(** * A shallow embedding of the CBT/DBT RAG assistant

    The development follows the layout of the repository:

    - [Py]                  the few Python notions the code relies on
                            (exceptions, [str.strip], [str.join], truthiness);
    - [Document], [DocumentChunk]   src/core/models/document.py;
    - [ChunkModel], [PostgresVectorStore]
                            src/infrastructure/vector_stores/postgres_vector_store.py;
    - [SentenceTransformerEmbedder]
                            src/infrastructure/embedding/sentence_transformer_embedder.py;
    - [OllamaProvider]      src/infrastructure/llm_providers/ollama_provider.py;
    - [IngestionService]    src/services/ingestion_service.py;
    - [RunIngestion]        scripts/run_ingestion.py;
    - [QueryService]        src/services/query_service.py;
    - [RunQuery]            scripts/run_query.py;
    - [FileLoader]          src/infrastructure/data_loaders/file_loader.py.

    Conventions.  A Python [int] is a [Z]; a [float] is a rational (only the
    length of an embedding and the order of distances are ever inspected);
    a [str] is the [string] of the bytes of its UTF-8 encoding; a
    [Dict[str, Any]] is a [gmap string MetaValue]; [Optional[T]] is
    [option T].  Code that can raise returns an [Outcome].  Log statements
    have no effect on results and are left out.

    The database is PostgreSQL with pgvector behind SQLAlchemy and
    psycopg2.  What the code leaves to them is a parameter ([PgServer]):
    which requests fail, which texts denote uuids, the rounding of a
    component to single precision, the JSON documents the server takes,
    and the rows an index scan yields. *)

From Stdlib Require Import String Ascii List ZArith QArith Lia Permutation Sorted.
From stdpp Require Import base gmap strings list pretty.

Open Scope string_scope.
Open Scope list_scope.
Open Scope Z_scope.

(* ===================================================================== *)
(** * Python preliminaries                                                *)
(* ===================================================================== *)

Module Py.

(** Exception classes the code distinguishes in its [except] clauses. *)
Inductive ExcClass :=
| SQLAlchemyError      (* sqlalchemy.exc.SQLAlchemyError and subclasses *)
| TyperExit (code : Z) (* typer.Exit(code=...) *)
| OtherException.      (* any other subclass of Exception *)

Record Exc := mkExc { exc_class : ExcClass; exc_str : string (* str(e) *) }.

(** The result of evaluating an expression or calling a function. *)
Inductive Outcome (A : Type) :=
| Return (a : A)
| Raise (e : Exc).
Arguments Return {A} a.
Arguments Raise {A} e.

(** [len(xs)] *)
Definition len {A} (xs : list A) : Z := Z.of_nat (length xs).

(** Truthiness of a list: [not xs]. *)
Definition not_ {A} (xs : list A) : bool :=
  match xs with [] => true | _ :: _ => false end.

(** Truthiness of a string. *)
Definition not_str (s : string) : bool :=
  match s with EmptyString => true | String _ _ => false end.

(** [sep.join(parts)] *)
Fixpoint join (sep : string) (parts : list string) : string :=
  match parts with
  | [] => ""
  | [p] => p
  | p :: rest => p +:+ sep +:+ join sep rest
  end.

(** A [str] is held as its UTF-8 encoding, one [ascii] per byte.  The
    characters [c] with [c.isspace()] are U+0009..U+000D, U+001C..U+0020,
    U+0085, U+00A0, U+1680, U+2000..U+200A, U+2028, U+2029, U+202F, U+205F
    and U+3000; their encodings have one, two or three bytes. *)
Definition byte (c : ascii) : N := N_of_ascii c.

Definition space1 (a : ascii) : bool :=
  ((9 <=? byte a)%N && (byte a <=? 13)%N) || ((28 <=? byte a)%N && (byte a <=? 32)%N).

Definition space2 (a b : ascii) : bool :=
  (byte a =? 194)%N && ((byte b =? 133)%N || (byte b =? 160)%N).

Definition space3 (a b c : ascii) : bool :=
  ((byte a =? 225)%N && (byte b =? 154)%N && (byte c =? 128)%N)
  || ((byte a =? 226)%N && (byte b =? 128)%N
      && (((128 <=? byte c)%N && (byte c <=? 138)%N)
          || (byte c =? 168)%N || (byte c =? 169)%N || (byte c =? 175)%N))
  || ((byte a =? 226)%N && (byte b =? 129)%N && (byte c =? 159)%N)
  || ((byte a =? 227)%N && (byte b =? 128)%N && (byte c =? 128)%N).

(** [s] is one whitespace character. *)
Definition isspace (s : string) : bool :=
  match s with
  | String a EmptyString => space1 a
  | String a (String b EmptyString) => space2 a b
  | String a (String b (String c EmptyString)) => space3 a b c
  | _ => false
  end.

(** [s.lstrip()] *)
Fixpoint lstrip (s : string) : string :=
  match s with
  | EmptyString => EmptyString
  | String a s1 =>
      if space1 a then lstrip s1
      else
        match s1 with
        | EmptyString => s
        | String b s2 =>
            if space2 a b then lstrip s2
            else
              match s2 with
              | EmptyString => s
              | String c s3 => if space3 a b c then lstrip s3 else s
              end
        end
  end.

(** [s.rstrip()]: what is left of [s] once its tail is stripped is dropped
    when it is one whitespace character. *)
Fixpoint rstrip (s : string) : string :=
  match s with
  | EmptyString => EmptyString
  | String a s' =>
      let r := String a (rstrip s') in
      if isspace r then EmptyString else r
  end.

(** [s.strip()] *)
Definition strip (s : string) : string := rstrip (lstrip s).

(** [repr(s)] of a [str] whose characters above U+007F are printable: the
    quote is the single quote, unless [s] holds a single quote and no
    double quote; the backslash, the quote, and the control characters are
    escaped. *)
Definition hex_digit (n : N) : ascii :=
  ascii_of_N (if (n <? 10)%N then 48 + n else 87 + n).

Definition contains (c : ascii) (s : string) : bool :=
  existsb (Ascii.eqb c) (list_ascii_of_string s).

Definition backslash : ascii := "092"%char.
Definition double_quote : ascii := "034"%char.

Definition repr_char (quote : ascii) (c : ascii) : string :=
  let one x := String x EmptyString in
  if Ascii.eqb c backslash then String backslash (one backslash)
  else if Ascii.eqb c quote then String backslash (one quote)
  else if (byte c =? 10)%N then String backslash "n"
  else if (byte c =? 13)%N then String backslash "r"
  else if (byte c =? 9)%N then String backslash "t"
  else if (byte c <? 32)%N || (byte c =? 127)%N
  then String backslash
         (String "x" (String (hex_digit (byte c / 16)) (one (hex_digit (byte c mod 16)))))
  else one c.

Definition repr (s : string) : string :=
  let quote : ascii :=
    if contains "'"%char s && negb (contains double_quote s) then double_quote
    else "'"%char in
  String quote
    (String.concat EmptyString (map (repr_char quote) (list_ascii_of_string s))
     +:+ String quote EmptyString).

(** psycopg2 cannot adapt a [str] that holds the NUL character. *)
Definition has_nul (s : string) : bool := contains zero s.

(** The newline character. *)
Definition nl : string := String "010"%char EmptyString.

(** [xs[i : i + n]] for [0 <= i] and [0 <= n]. *)
Definition slice {A} (xs : list A) (i n : nat) : list A := take n (drop i xs).

End Py.
Import Py.

(* ===================================================================== *)
(** * src/core/models/document.py                                         *)
(* ===================================================================== *)

(** A [float]. *)
Definition float := Q.

(** Values found in a metadata dictionary ([Dict[str, Any]]): the JSON
    scalars the loaders and the ingestion service put there. *)
Inductive MetaValue :=
| MStr (s : string)
| MInt (n : Z)
| MBool (b : bool)
| MNone.

(** [str(v)], as used by f-strings and by the metadata filter. *)
Definition py_str (v : MetaValue) : string :=
  match v with
  | MStr s => s
  | MInt n => pretty n
  | MBool true => "True"
  | MBool false => "False"
  | MNone => "None"
  end.

(** A dictionary value. *)
Abbreviation Metadata := (gmap string MetaValue).

(** Dictionaries are objects: a [Document] refers to its metadata. *)
Abbreviation loc := positive.
Abbreviation Heap := (gmap loc Metadata).

Module Document.
Record t := mk {
  id : string;
  content : string;
  metadata : loc            (* reference to the dict object *)
}.
End Document.

Module DocumentChunk.
Record t := mk {
  id : string;
  document_id : string;
  content : string;
  metadata : Metadata;
  embedding : option (list float)
}.

(** [chunk.embedding = e] *)
Definition set_embedding (c : t) (e : list float) : t :=
  {| id := id c; document_id := document_id c; content := content c;
     metadata := metadata c; embedding := Some e |}.
End DocumentChunk.

(* ===================================================================== *)
(** * src/infrastructure/vector_stores/postgres_vector_store.py           *)
(* ===================================================================== *)

(** A row of table [document_chunks], and a [ChunkModel] object before it
    is flushed.  In a row the [id] is the canonical text of the uuid
    ([str] of the [uuid.UUID] the column yields) and the components of the
    [embedding] are single-precision numbers. *)
Module ChunkModel.
Record t := mk {
  id : string;                         (* PG_UUID(as_uuid=True), primary key *)
  document_id : string;                (* String, nullable=False *)
  content : string;                    (* String, nullable=False *)
  chunk_metadata : Metadata;           (* JSONB *)
  embedding : option (list float)      (* Vector(settings.embedding_dimension), nullable=True *)
}.
End ChunkModel.

Abbreviation Table := (list ChunkModel.t).

(** The statement built by [PostgresVectorStore.query]. *)
Record SelectStmt := mkSelect {
  where_astext : list (string * string);   (* chunk_metadata[key].astext == text *)
  order_by_cosine_distance : list float;
  limit : Z
}.

(** The requests a session sends to the database server. *)
Inductive DbOp :=
| OpBegin (view : Table)                       (* a connection is taken, the transaction begins *)
| OpInsert (view : Table) (row : ChunkModel.t)
| OpCommit (view : Table)
| OpSelect (stmt : SelectStmt) (view : Table).

(** What the code does not determine about the PostgreSQL server and
    pgvector:
    - [db_fault op]: the request fails for a reason outside the data
      (connection lost, server error); SQLAlchemy raises a SQLAlchemyError;
    - [uuid_text s]: the canonical text of the uuid that the text [s]
      denotes for column [id], if the server takes [s] for a uuid;
    - [float4 x]: the single-precision number stored for the component [x]
      of a vector, if [x] is in range;
    - [jsonb_accepts m]: the server takes the JSON document of [m] for
      column [chunk_metadata];
    - [scan_order stmt rows]: the candidate rows of a SELECT that the
      executor obtains, in the order in which it produces them.  A
      sequential scan yields every candidate; the HNSW index declared on
      [embedding] may yield only some of them.  The statement of [query]
      has a single sort key, so rows at equal distance come out in this
      order;
    - [cosine_distance]: pgvector's operator [<=>]; it has no value (NaN)
      for a vector of norm zero. *)
Class PgServer := {
  db_fault : DbOp -> bool;
  uuid_text : string -> option string;
  float4 : float -> option float;
  jsonb_accepts : Metadata -> bool;
  scan_order : SelectStmt -> Table -> Table;
  scan_order_sub : forall stmt rows, scan_order stmt rows ⊆+ rows;
  cosine_distance : list float -> list float -> option Q
}.

(** The database as one session sees it: the committed rows of
    [document_chunks] in insertion order, and the rows visible inside the
    session's open transaction, if there is one. *)
Record Database := mkDb {
  table : Table;
  txn : option Table
}.

(** The sort key of [ORDER BY embedding <=> q]: a distance, NaN, or NULL
    for a row without embedding. *)
Inductive SortKey :=
| Distance (d : Q)
| NaN
| Null.

Module PostgresVectorStore.
Section WithServer.
Context `{server : PgServer}.

(** [settings.embedding_dimension], the width of column [embedding]. *)
Variable settings_embedding_dimension : Z.
(** [self._embedding_dim] *)
Variable _embedding_dim : Z.

Definition sql_error (msg : string) : Exc := mkExc SQLAlchemyError msg.

(** The [ValueError] of psycopg2 for a string parameter with a NUL. *)
Definition nul_error : Exc :=
  mkExc OtherException "A string literal cannot contain NUL (0x00) characters.".

(** The bind processor of column type [Vector(dim)]: pgvector raises
    [ValueError] for a vector of another width, and SQLAlchemy wraps what a
    bind processor raises into a StatementError. *)
Definition fits_column (e : option (list float)) : bool :=
  match e with
  | None => true
  | Some v => len v =? settings_embedding_dimension
  end.

(** The string parameters of the INSERT of a row. *)
Definition row_has_nul (row : ChunkModel.t) : bool :=
  has_nul (ChunkModel.id row) || has_nul (ChunkModel.document_id row)
  || has_nul (ChunkModel.content row).

(** The vector as column [embedding] holds it. *)
Definition stored_vector (e : option (list float)) : option (option (list float)) :=
  match e with
  | None => Some None
  | Some v => Some <$> mapM float4 v
  end.

(** The row as the table holds it, if the server takes its values. *)
Definition to_stored (row : ChunkModel.t) : option ChunkModel.t :=
  i ← uuid_text (ChunkModel.id row);
  e ← stored_vector (ChunkModel.embedding row);
  if jsonb_accepts (ChunkModel.chunk_metadata row)
  then Some (ChunkModel.mk i (ChunkModel.document_id row) (ChunkModel.content row)
               (ChunkModel.chunk_metadata row) e)
  else None.

Definition id_taken (view : Table) (i : string) : bool :=
  existsb (fun r => String.eqb (ChunkModel.id r) i) view.

(** The server's part of the INSERT of one row inside the transaction. *)
Definition insert_row (view : Table) (row : ChunkModel.t) : Outcome Table :=
  if db_fault (OpInsert view row) then Raise (sql_error "OperationalError")
  else
    match to_stored row with
    | None => Raise (sql_error "DataError")
    | Some r =>
        if id_taken view (ChunkModel.id r) then Raise (sql_error "IntegrityError")
        else Return (view ++ [r])
    end.

(** The rows of the INSERT, one after the other; on a failure the
    transaction keeps the rows inserted so far. *)
Fixpoint insert_rows (view : Table) (pending : list ChunkModel.t) : Outcome unit * Table :=
  match pending with
  | [] => (Return tt, view)
  | row :: rest =>
      match insert_row view row with
      | Return view' => insert_rows view' rest
      | Raise e => (Raise e, view)
      end
  end.

(** The flush of the pending objects, as one INSERT statement: a
    connection is taken; SQLAlchemy processes the parameters of every row;
    psycopg2 adapts them; the server inserts the rows. *)
Definition flush (view : Table) (pending : list ChunkModel.t) : Outcome unit * Table :=
  if db_fault (OpBegin view) then (Raise (sql_error "OperationalError"), view)
  else if negb (forallb (fun row => fits_column (ChunkModel.embedding row)) pending)
  then (Raise (sql_error "StatementError"), view)
  else if existsb row_has_nul pending then (Raise nul_error, view)
  else insert_rows view pending.

(** [self.SessionLocal()]: a new session, with no transaction yet. *)
Definition SessionLocal (db : Database) : Database := mkDb (table db) None.

(** [session.add_all(pending); session.commit()]: the transaction starts
    from the committed rows; the rows become visible only if the flush
    and the COMMIT go through. *)
Definition session_commit (pending : list ChunkModel.t) (db : Database)
  : Outcome unit * Database :=
  match flush (table db) pending with
  | (Return _, view) =>
      if db_fault (OpCommit view)
      then (Raise (sql_error "OperationalError"), mkDb (table db) (Some view))
      else (Return tt, mkDb view None)
  | (Raise e, view) => (Raise e, mkDb (table db) (Some view))
  end.

(** [session.rollback()] *)
Definition session_rollback (db : Database) : Database := mkDb (table db) None.

(** [session.close()]: an open transaction is rolled back. *)
Definition session_close (db : Database) : Database := mkDb (table db) None.

(** The [for chunk in chunks] loop of [add]: returns
    [(chunk_models, added_ids)]. *)
Fixpoint add_loop (chunks : list DocumentChunk.t)
         (chunk_models : list ChunkModel.t) (added_ids : list string)
  : list ChunkModel.t * list string :=
  match chunks with
  | [] => (chunk_models, added_ids)
  | chunk :: rest =>
      match DocumentChunk.embedding chunk with
      | None => add_loop rest chunk_models added_ids            (* continue *)
      | Some e =>
          if negb (len e =? _embedding_dim)
          then add_loop rest chunk_models added_ids             (* continue *)
          else
            add_loop rest
              (chunk_models ++
                 [ChunkModel.mk (DocumentChunk.id chunk)
                    (DocumentChunk.document_id chunk)
                    (DocumentChunk.content chunk)
                    (DocumentChunk.metadata chunk)              (* metadata or {} *)
                    (Some e)])
              (added_ids ++ [DocumentChunk.id chunk])
      end
  end.

(** [PostgresVectorStore.add]: [except SQLAlchemyError] returns the empty
    list after a rollback; any other exception leaves the method, after
    the [finally] clause has closed the session. *)
Definition add (chunks : list DocumentChunk.t) (db : Database)
  : Outcome (list string) * Database :=
  if not_ chunks then (Return [], db)
  else
    let '(chunk_models, added_ids) := add_loop chunks [] [] in
    if not_ chunk_models then (Return [], db)
    else
      let session := SessionLocal db in
      match session_commit chunk_models session with
      | (Return _, session') => (Return added_ids, session_close session')
      | (Raise e, session') =>
          match exc_class e with
          | SQLAlchemyError => (Return [], session_close (session_rollback session'))
          | _ => (Raise e, session_close session')
          end
      end.

(** [chunk_metadata[key].astext]: the JSON value as text, NULL for a
    missing key and for JSON null. *)
Definition astext (v : MetaValue) : option string :=
  match v with
  | MStr s => Some s
  | MInt n => Some (pretty n)
  | MBool true => Some "true"
  | MBool false => Some "false"
  | MNone => None
  end.

(** The WHERE clause: every condition holds (a NULL comparison does not). *)
Definition matches (conds : list (string * string)) (row : ChunkModel.t) : bool :=
  forallb (fun '(key, txt) =>
             match ChunkModel.chunk_metadata row !! key ≫= astext with
             | Some t => String.eqb t txt
             | None => false
             end) conds.

(** [embedding <=> q] *)
Definition distance_to (q : list float) (row : ChunkModel.t) : SortKey :=
  match ChunkModel.embedding row with
  | Some e =>
      match cosine_distance e q with
      | Some d => Distance d
      | None => NaN
      end
  | None => Null
  end.

(** Ascending order of the sort key: NaN after every number, NULLs last. *)
Definition dist_le (a b : SortKey) : bool :=
  match a, b with
  | Distance x, Distance y => Qle_bool x y
  | Distance _, _ => true
  | NaN, Distance _ => false
  | NaN, _ => true
  | Null, Null => true
  | Null, _ => false
  end.

(** ORDER BY on one key: rows with equal keys keep the order in which
    the executor produced them. *)
Fixpoint insert_by (key : ChunkModel.t -> SortKey) (r : ChunkModel.t) (rows : Table)
  : Table :=
  match rows with
  | [] => [r]
  | r' :: rest =>
      if dist_le (key r) (key r') then r :: r' :: rest
      else r' :: insert_by key r rest
  end.

Definition order_by (key : ChunkModel.t -> SortKey) (rows : Table) : Table :=
  foldr (insert_by key) [] rows.

(** The string parameters of the SELECT. *)
Definition stmt_has_nul (stmt : SelectStmt) : bool :=
  existsb (fun '(key, txt) => has_nul key || has_nul txt) (where_astext stmt).

(** [LIMIT] is a bigint and must not be negative. *)
Definition limit_ok (n : Z) : bool := (0 <=? n) && (n <? 2 ^ 63).

(** [session.execute(stmt).scalars().all()]: a connection is taken;
    SQLAlchemy processes the parameters (the query vector goes through the
    bind processor of the column's type); psycopg2 adapts them; the server
    ranks by the sort key the rows it obtains among those that satisfy the
    WHERE clause, and cuts at the LIMIT. *)
Definition session_execute (stmt : SelectStmt) (db : Database) : Outcome Table :=
  if db_fault (OpBegin (table db)) then Raise (sql_error "OperationalError")
  else if negb (fits_column (Some (order_by_cosine_distance stmt)))
  then Raise (sql_error "StatementError")
  else if stmt_has_nul stmt then Raise nul_error
  else if db_fault (OpSelect stmt (table db)) then Raise (sql_error "OperationalError")
  else
    match mapM float4 (order_by_cosine_distance stmt) with
    | None => Raise (sql_error "DataError")
    | Some q =>
        if negb (limit_ok (limit stmt)) then Raise (sql_error "DataError")
        else
          let candidates :=
            scan_order stmt (List.filter (matches (where_astext stmt)) (table db)) in
          Return (take (Z.to_nat (limit stmt)) (order_by (distance_to q) candidates))
    end.

(** The [if filters: for key, value in filters.items(): stmt = stmt.where(...)]
    part of [query]. *)
Definition where_clauses (filters : option (list (string * MetaValue)))
  : list (string * string) :=
  match filters with
  | None => []
  | Some items => map (fun '(key, value) => (key, py_str value)) items
  end.

(** Conversion of a result row back to a [DocumentChunk]; [str(result.id)]
    is the canonical text the row holds. *)
Definition to_document_chunk (result : ChunkModel.t) : DocumentChunk.t :=
  DocumentChunk.mk (ChunkModel.id result) (ChunkModel.document_id result)
    (ChunkModel.content result) (ChunkModel.chunk_metadata result)
    (ChunkModel.embedding result).

(** [PostgresVectorStore.query]: [except SQLAlchemyError] returns the empty
    list; any other exception leaves the method. *)
Definition query (query_embedding : list float) (top_k : Z)
           (filters : option (list (string * MetaValue))) (db : Database)
  : Outcome (list DocumentChunk.t) :=
  if not_ query_embedding then Return []
  else if negb (len query_embedding =? _embedding_dim) then Return []
  else
    let session := SessionLocal db in
    let stmt := mkSelect (where_clauses filters) query_embedding top_k in
    match session_execute stmt session with
    | Return results => Return (map to_document_chunk results)
    | Raise e =>
        match exc_class e with
        | SQLAlchemyError => Return []
        | _ => Raise e
        end
    end.

End WithServer.
End PostgresVectorStore.

(* ===================================================================== *)
(** * src/core/interfaces                                                 *)
(* ===================================================================== *)

(** The abstract base classes.  The embedding model, the LLM, the loader
    and the text splitter are used as functions of their arguments; a vector
    store has a state [S]. *)

Module DataLoader.
(** The arguments of one [Document(id=..., content=..., metadata=...)]
    construction performed by the loader. *)
Record fields := mk_fields {
  id : string; content : string; metadata : Metadata
}.
Class t := { load : string -> Outcome (list fields) }.
End DataLoader.

Module EmbeddingModel.
Class t := {
  embed_documents : list string -> Outcome (list (list float));
  embed_query : string -> Outcome (list float);
  dimension : Z
}.
End EmbeddingModel.

Module LLM.
(** One turn of a conversation: [{"role": ..., "content": ...}]. *)
Record Message := mk_message { role : string; content : string }.
Class t := {
  generate : string -> option (list Message) -> Outcome string
}.
End LLM.

Module VectorStore.
Class t (S : Type) := {
  add : list DocumentChunk.t -> S -> Outcome (list string) * S;
  query : list float -> Z -> option (list (string * MetaValue)) -> S ->
          Outcome (list DocumentChunk.t) * S
}.
End VectorStore.

(** langchain's [RecursiveCharacterTextSplitter]. *)
Module TextSplitter.
Class t := { split_text : string -> Outcome (list string) }.
End TextSplitter.

(** [uuid.uuid4()]: the n-th identifier generated by the process. *)
Class UuidSource := { uuid4 : nat -> string }.

(** [PostgresVectorStore] implements [VectorStore]. *)
#[global] Instance PostgresVectorStore_VectorStore `{server : PgServer}
  (settings_embedding_dimension _embedding_dim : Z) : VectorStore.t Database := {
  VectorStore.add chunks db :=
    PostgresVectorStore.add settings_embedding_dimension _embedding_dim chunks db;
  VectorStore.query q top_k filters db :=
    (PostgresVectorStore.query settings_embedding_dimension _embedding_dim
       q top_k filters db, db)
}.

(* ===================================================================== *)
(** * The services' world: objects, collaborators' calls, exceptions      *)
(* ===================================================================== *)

(** Calls made to the collaborators, in program order. *)
Inductive Call :=
| CallLoad (source : string)
| CallSplitText (text : string)
| CallEmbedDocuments (texts : list string)
| CallEmbedQuery (text : string)
| CallAdd (chunks : list DocumentChunk.t)
| CallQuery (query_embedding : list float) (top_k : Z)
            (filters : option (list (string * MetaValue)))
| CallGenerate (prompt : string) (history : option (list LLM.Message)).

Record World (S : Type) := mkWorld {
  heap : Heap;                 (* the dict objects *)
  uuid_count : nat;            (* identifiers generated so far *)
  store : S;                   (* state of the vector store *)
  calls : list Call            (* collaborator calls made so far *)
}.
Arguments mkWorld {S}.
Arguments heap {S}.
Arguments uuid_count {S}.
Arguments store {S}.
Arguments calls {S}.

(** Computations that read and write the world and may raise. *)
Definition M (S A : Type) : Type := World S -> Outcome A * World S.

#[global] Instance M_ret {S} : MRet (M S) := fun A a w => (Return a, w).
#[global] Instance M_bind {S} : MBind (M S) := fun A B f m w =>
  match m w with
  | (Return a, w') => f a w'
  | (Raise e, w') => (Raise e, w')
  end.

Section Actions.
Context {S : Type}.

Definition raise {A} (e : Exc) : M S A := fun w => (Raise e, w).

(** [try: body except Exception as e: handler(e)] *)
Definition try_except {A} (body : M S A) (handler : Exc -> M S A) : M S A :=
  fun w => match body w with
           | (Return a, w') => (Return a, w')
           | (Raise e, w') => handler e w'
           end.

Definition record_call (c : Call) : M S unit :=
  fun w => (Return tt, mkWorld (heap w) (uuid_count w) (store w) (calls w ++ [c])).

Definition outcome {A} (result : Outcome A) : M S A := fun w => (result, w).

Definition on_store {A} (method : S -> Outcome A * S) : M S A :=
  fun w => let '(r, s') := method (store w) in
           (r, mkWorld (heap w) (uuid_count w) s' (calls w)).

(** A call to a collaborator that is a function of its arguments. *)
Definition call {A} (c : Call) (result : Outcome A) : M S A :=
  _ ← record_call c; outcome result.

(** A call to the vector store. *)
Definition call_store {A} (c : Call) (method : S -> Outcome A * S) : M S A :=
  _ ← record_call c; on_store method.

(** [uuid.uuid4()] *)
Definition new_uuid `{uuids : UuidSource} : M S string :=
  fun w => (Return (uuid4 (uuid_count w)),
            mkWorld (heap w) (Datatypes.S (uuid_count w)) (store w) (calls w)).

(** Allocation of a new dict object with the given items. *)
Definition new_dict (items : Metadata) : M S loc :=
  fun w => let l := fresh (dom (heap w)) in
           (Return l, mkWorld (<[l := items]> (heap w)) (uuid_count w) (store w) (calls w)).

(** The items of a dict object. *)
Definition dict_items (l : loc) : M S Metadata :=
  fun w => (Return (default ∅ (heap w !! l)), w).

(** [d.copy()] *)
Definition dict_copy (l : loc) : M S loc :=
  items ← dict_items l; new_dict items.

(** [d[key] = value] *)
Definition dict_setitem (l : loc) (key : string) (value : MetaValue) : M S unit :=
  fun w => (Return tt,
            mkWorld (alter (fun items => <[key := value]> items) l (heap w))
              (uuid_count w) (store w) (calls w)).

End Actions.

(* ===================================================================== *)
(** * src/infrastructure/embedding/sentence_transformer_embedder.py       *)
(* ===================================================================== *)

Module SentenceTransformerEmbedder.

(** The loaded [SentenceTransformer] model: [encode] on a list of texts
    and on one text (followed by [.tolist()]). *)
Class Model := {
  encode : list string -> Outcome (list (list float));
  encode_one : string -> Outcome (list float);
  get_sentence_embedding_dimension : Z
}.

Section Embedder.
Context `{model : Model}.

Definition embed_documents (texts : list string) : Outcome (list (list float)) :=
  if not_ texts then Return []
  else
    match encode texts with
    | Return embeddings_list => Return embeddings_list
    | Raise _ => Return []                      (* except Exception *)
    end.

Definition embed_query (text : string) : Outcome (list float) :=
  if not_str text then Return []
  else
    match encode_one text with
    | Return embedding_list => Return embedding_list
    | Raise _ => Return []                      (* except Exception *)
    end.

Definition dimension : Z := get_sentence_embedding_dimension.
End Embedder.

#[global] Instance EmbeddingModel_instance `{model : Model} : EmbeddingModel.t := {
  EmbeddingModel.embed_documents := embed_documents;
  EmbeddingModel.embed_query := embed_query;
  EmbeddingModel.dimension := dimension
}.

End SentenceTransformerEmbedder.

(* ===================================================================== *)
(** * src/infrastructure/llm_providers/ollama_provider.py                 *)
(* ===================================================================== *)

Module OllamaProvider.

Abbreviation Options := (gmap string MetaValue).

(** The mappings returned by the client; a key may be missing. *)
Record ChatResponse := mk_chat {
  message : option (option string)     (* 'message', and its 'content' *)
}.
Record GenerateResponse := mk_generate {
  response : option string             (* 'response' *)
}.

(** [ollama.Client]: the two endpoints used. *)
Class Client := {
  chat : string -> list LLM.Message -> Options -> Outcome ChatResponse;
  client_generate : string -> string -> Options -> Outcome GenerateResponse
}.

Record self := mk_self {
  default_model : string;
  default_options : Options
}.

Section Provider.
Context `{client : Client}.

Definition error_message (e : Exc) : string :=
  "[Error generating response: " +:+ exc_str e +:+ "]".

(** [OllamaProvider.generate]; the extra keyword arguments, handed to the
    client as they are, are left out. *)
Definition generate (this : self) (prompt : string)
           (history : option (list LLM.Message))
           (model : option string) (options : option Options)
  : Outcome string :=
  (* target_model = model or self.default_model *)
  let target_model :=
    match model with
    | Some m => if not_str m then default_model this else m
    | None => default_model this
    end in
  (* request_options = {**self.default_options, **(options or {})} *)
  let request_options := default ∅ options ∪ default_options this in
  let attempt : Outcome string :=
    match history with
    | Some (turn :: turns) =>
        let messages := (turn :: turns) ++ [LLM.mk_message "user" prompt] in
        match chat target_model messages request_options with
        | Return r =>
            (* response.get('message', {}).get('content', '') *)
            let generated_text := default "" (default None (message r)) in
            Return (strip generated_text)
        | Raise e => Raise e
        end
    | _ =>
        match client_generate target_model prompt request_options with
        | Return r =>
            (* response.get('response', '') *)
            let generated_text := default "" (response r) in
            Return (strip generated_text)
        | Raise e => Raise e
        end
    end in
  match attempt with
  | Return text => Return text
  | Raise e => Return (error_message e)         (* except Exception *)
  end.
End Provider.

(** [OllamaProvider] implements [LLM]; the interface passes neither
    [model] nor [options]. *)
#[global] Instance LLM_instance `{client : Client} (this : self) : LLM.t := {
  LLM.generate prompt history := generate this prompt history None None
}.

End OllamaProvider.

(* ===================================================================== *)
(** * src/services/ingestion_service.py                                   *)
(* ===================================================================== *)

Module IngestionService.
Section Service.
Context {S : Type}.
Context `{loader : DataLoader.t} `{splitter : TextSplitter.t}
        `{embedder : EmbeddingModel.t} `{vstore : VectorStore.t S}
        `{uuids : UuidSource}.

(** [self.batch_size] *)
Variable batch_size : Z.

(** [self.data_loader.load(source)]: the loader builds the [Document]
    objects, each with a dict of its own. *)
Fixpoint build_documents (loaded : list DataLoader.fields) : M S (list Document.t) :=
  match loaded with
  | [] => mret []
  | f :: rest =>
      metadata ← new_dict (DataLoader.metadata f);
      docs ← build_documents rest;
      mret (Document.mk (DataLoader.id f) (DataLoader.content f) metadata :: docs)
  end.

Definition data_loader_load (source : string) : M S (list Document.t) :=
  loaded ← call (CallLoad source) (DataLoader.load source);
  build_documents loaded.

(** [for i, text_chunk in enumerate(texts)] *)
Fixpoint enumerate_loop (doc : Document.t) (texts : list string) (i : Z)
         (all_chunks : list DocumentChunk.t) : M S (list DocumentChunk.t) :=
  match texts with
  | [] => mret all_chunks
  | text_chunk :: rest =>
      chunk_metadata ← dict_copy (Document.metadata doc);
      _ ← dict_setitem chunk_metadata "chunk_index" (MInt i);
      chunk_id ← new_uuid;
      md ← dict_items chunk_metadata;
      enumerate_loop doc rest (i + 1)
        (all_chunks ++ [DocumentChunk.mk chunk_id (Document.id doc) text_chunk md None])
  end.

(** [for doc in documents] *)
Fixpoint chunk_documents (documents : list Document.t)
         (all_chunks : list DocumentChunk.t) : M S (list DocumentChunk.t) :=
  match documents with
  | [] => mret all_chunks
  | doc :: rest =>
      texts ← call (CallSplitText (Document.content doc))
                (TextSplitter.split_text (Document.content doc));
      all_chunks' ← enumerate_loop doc texts 0 all_chunks;
      chunk_documents rest all_chunks'
  end.

(** [range(0, stop, step)] *)
Definition range_step (stop : nat) (step : Z) : Outcome (list nat) :=
  if step =? 0 then Raise (mkExc OtherException "range() arg 3 must not be zero")
  else if step <? 0 then Return []
  else
    let s := Z.to_nat step in
    Return (map (fun k => (k * s)%nat) (seq 0 ((stop + s - 1) / s)%nat)).

(** The body of [for i in range(0, len(all_chunks), self.batch_size)]. *)
Fixpoint batch_loop (all_chunks : list DocumentChunk.t) (starts : list nat)
         (total_chunks_added : Z) : M S Z :=
  match starts with
  | [] => mret total_chunks_added
  | i :: rest =>
      let batch_chunks := slice all_chunks i (Z.to_nat batch_size) in
      let texts_to_embed := map DocumentChunk.content batch_chunks in
      embeddings ← call (CallEmbedDocuments texts_to_embed)
                     (EmbeddingModel.embed_documents texts_to_embed);
      if not_ embeddings || negb (len embeddings =? len batch_chunks)
      then batch_loop all_chunks rest total_chunks_added        (* continue *)
      else
        let batch_chunks := zip_with DocumentChunk.set_embedding batch_chunks embeddings in
        added_ids ← call_store (CallAdd batch_chunks) (VectorStore.add batch_chunks);
        if not_ added_ids
        then batch_loop all_chunks rest total_chunks_added
        else batch_loop all_chunks rest (total_chunks_added + len added_ids)
  end.

(** Step 3 of [run_ingestion] and its [return] statement: the chunks are
    embedded and stored batch after batch. *)
Definition embed_and_store (all_chunks : list DocumentChunk.t) : M S bool :=
  starts ← outcome (range_step (length all_chunks) batch_size);
  total_chunks_added ← batch_loop all_chunks starts 0;
  mret (0 <? total_chunks_added).

(** [IngestionService.run_ingestion] *)
Definition run_ingestion (source : string) : M S bool :=
  try_except
    (documents ← data_loader_load source;
     if not_ documents then mret false
     else
       all_chunks ← chunk_documents documents [];
       if not_ all_chunks then mret false
       else embed_and_store all_chunks)
    (fun e => mret false).

End Service.
End IngestionService.

(* ===================================================================== *)
(** * scripts/run_ingestion.py                                            *)
(* ===================================================================== *)

Module RunIngestion.
Section Script.
Context {S : Type}.
Context `{loader : DataLoader.t} `{splitter : TextSplitter.t}
        `{embedder : EmbeddingModel.t} `{vstore : VectorStore.t S}
        `{uuids : UuidSource}.

(** The construction of the components ([FileLoader()],
    [SentenceTransformerEmbedder(...)], [PostgresVectorStore(...)], ...);
    it may raise. *)
Variable initialize_components : Outcome unit.

Definition typer_exit (code : Z) : M S unit := raise (mkExc (TyperExit code) "").

(** [main]; it always ends by raising [typer.Exit]. *)
Definition main (source_path : string) (batch_size : Z) : M S unit :=
  try_except
    (_ ← outcome initialize_components;
     IngestionService.run_ingestion batch_size source_path ≫= fun success : bool =>
     if success then typer_exit 0
     else
       docs_check ← IngestionService.data_loader_load source_path;
       if not_ docs_check then typer_exit 0
       else typer_exit 1)
    (fun e =>
       match exc_class e with
       | TyperExit _ => raise e                   (* except typer.Exit as e: raise e *)
       | _ => typer_exit 1                        (* except Exception *)
       end).

(** The exit status of the process. *)
Definition exit_code {A} (r : Outcome A) : Z :=
  match r with
  | Return _ => 0
  | Raise e => match exc_class e with TyperExit code => code | _ => 1 end
  end.

(** [typer.Argument(exists=True, file_okay=True, dir_okay=True,
    readable=True, resolve_path=True)]: whether the path given on the
    command line exists and can be read, and the resolved path. *)
Variable path_readable : string -> bool.
Variable resolve_path : string -> string.

(** The command as typer runs it, with the exit status of the process:
    a source path that does not pass the validation of its argument ends
    the process with status 2 before [main] is called. *)
Definition app (source_path : string) (batch_size : Z) : M S Z :=
  if negb (path_readable source_path) then mret 2
  else
    fun w =>
      let '(r, w') := main (resolve_path source_path) batch_size w in
      (Return (exit_code r), w').

End Script.
End RunIngestion.

(* ===================================================================== *)
(** * src/services/query_service.py                                       *)
(* ===================================================================== *)

Module QueryService.

(** A format string, parsed: literal text and replacement fields. *)
Inductive Segment := Lit (text : string) | Field (name : string).

(** [template.format(context=..., query=...)] *)
Fixpoint format (template : list Segment) (kwargs : list (string * string))
  : Outcome string :=
  match template with
  | [] => Return ""
  | Lit text :: rest =>
      match format rest kwargs with
      | Return s => Return (text +:+ s)
      | Raise e => Raise e
      end
  | Field name :: rest =>
      match list_find (fun kv => String.eqb (fst kv) name) kwargs with
      | Some (_, (_, value)) =>
          match format rest kwargs with
          | Return s => Return (value +:+ s)
          | Raise e => Raise e
          end
      | None => Raise (mkExc OtherException (repr name))    (* KeyError(name) *)
      end
  end.

Definition DEFAULT_PROMPT_TEMPLATE : list Segment :=
  [ Lit (nl +:+
         "Based on the following context documents, please answer the user's query." +:+ nl +:+
         "Provide a concise and helpful answer grounded in the provided context." +:+ nl +:+
         "If the context doesn't contain the answer, state that you couldn't find relevant information in the documents." +:+ nl +:+
         nl +:+
         "Context Documents:" +:+ nl +:+
         "---" +:+ nl);
    Field "context";
    Lit (nl +:+ "---" +:+ nl +:+ nl +:+ "User Query: ");
    Field "query";
    Lit (nl +:+ nl +:+ "Answer:" +:+ nl) ].

(** [d.get(key, 'N/A')] inside an f-string. *)
Definition get_or_na (d : Metadata) (key : string) : string :=
  match d !! key with Some v => py_str v | None => "N/A" end.

(** The f-string of one retrieved chunk. *)
Definition format_chunk (chunk : DocumentChunk.t) : string :=
  "Source: " +:+ get_or_na (DocumentChunk.metadata chunk) "source" +:+
  ", Page: " +:+ get_or_na (DocumentChunk.metadata chunk) "page" +:+ nl +:+
  DocumentChunk.content chunk.

Definition no_context_marker : string := "No relevant context documents found.".

Definition context_of (retrieved_chunks : list DocumentChunk.t) : string :=
  if not_ retrieved_chunks then no_context_marker
  else join (nl +:+ "---" +:+ nl) (map format_chunk retrieved_chunks).

Section Service.
Context {S : Type}.
Context `{embedder : EmbeddingModel.t} `{vstore : VectorStore.t S} `{llm : LLM.t}.

Variable prompt_template : list Segment.
Variable top_k_retrieval : Z.

(** [QueryService.query] *)
Definition query (user_query : string) : M S string :=
  try_except
    (query_embedding ← call (CallEmbedQuery user_query)
                         (EmbeddingModel.embed_query user_query);
     if not_ query_embedding then mret "[Error: Failed to embed query]"
     else
       retrieved_chunks ←
         call_store (CallQuery query_embedding top_k_retrieval None)
           (VectorStore.query query_embedding top_k_retrieval None);
       let context_str := context_of retrieved_chunks in
       final_prompt ← outcome (format prompt_template
                                 [("context", context_str); ("query", user_query)]);
       response ← call (CallGenerate final_prompt None)
                    (LLM.generate final_prompt None);
       mret response)
    (fun e => mret ("[Error processing query: " +:+ exc_str e +:+ "]")).

End Service.
End QueryService.

(* ===================================================================== *)
(** * scripts/run_query.py                                                *)
(* ===================================================================== *)

Module RunQuery.
Section Script.
Context {S : Type}.
Context `{embedder : EmbeddingModel.t} `{vstore : VectorStore.t S} `{llm : LLM.t}.

(** The construction of the components ([SentenceTransformerEmbedder(...)],
    [PostgresVectorStore(...)], [OllamaProvider(...)]); it may raise. *)
Variable initialize_components : Outcome unit.

(** [main]: the service is built with the default prompt template; the
    response is printed, and the script ends by raising [typer.Exit]. *)
Definition main (query : string) (top_k : Z) : M S unit :=
  try_except
    (_ ← outcome initialize_components;
     QueryService.query QueryService.DEFAULT_PROMPT_TEMPLATE top_k query
       ≫= fun response : string =>
     RunIngestion.typer_exit 0)
    (fun e =>
       match exc_class e with
       | TyperExit _ => raise e                   (* except typer.Exit as e: raise e *)
       | _ => RunIngestion.typer_exit 1           (* except Exception *)
       end).

End Script.
End RunQuery.

(* ===================================================================== *)
(** * src/infrastructure/data_loaders/file_loader.py                      *)
(* ===================================================================== *)

Module FileLoader.

Inductive Encoding := utf_8 | latin_1.

(** What [Path.read_text] gives: the text, [UnicodeDecodeError], or
    another exception. *)
Inductive ReadText :=
| Text (content : string)
| UnicodeDecodeError
| ReadError (e : Exc).

(** The file system and PyPDF2, as the loader uses them.  [pdf_pages] is
    the opening of the file and of the reader with [len(reader.pages)],
    which may raise, and then for every page the result of
    [reader.pages[page_num].extract_text()]. *)
Class FileSystem := {
  path_exists : string -> bool;                     (* Path.exists() *)
  is_file : string -> bool;                         (* Path.is_file() *)
  is_dir : string -> bool;                          (* Path.is_dir() *)
  suffix_lower : string -> string;                  (* Path.suffix.lower() *)
  rglob : string -> list string;                    (* Path.rglob('*') *)
  resolve : string -> Outcome string;               (* str(Path.resolve()) *)
  read_text : string -> Encoding -> ReadText;
  pdf_pages : string -> Outcome (list (Outcome string))
}.

Section Loader.
Context {S : Type}.
Context `{fs : FileSystem} `{uuids : UuidSource}.

Definition SUPPORTED_EXTENSIONS : list string := [".txt"; ".pdf"].

(** [ext in self.SUPPORTED_EXTENSIONS] *)
Definition supported (ext : string) : bool :=
  existsb (String.eqb ext) SUPPORTED_EXTENSIONS.

(** [Document(content=content, metadata=metadata)]: the id is drawn from
    [uuid4]. *)
Definition new_document (content : string) (metadata : Metadata)
  : M S DataLoader.fields :=
  doc_id ← new_uuid;
  mret (DataLoader.mk_fields doc_id content metadata).

(** [for page_num in range(num_pages)] inside the [try] of the PDF branch:
    a page that raises ends the loop, and the documents appended so far
    are kept. *)
Fixpoint pages_loop (source_str : string) (num_pages : Z) (page_num : Z)
         (pages : list (Outcome string)) (docs : list DataLoader.fields)
  : M S (list DataLoader.fields) :=
  match pages with
  | [] => mret docs
  | Raise _ :: _ => mret docs                            (* except Exception *)
  | Return content :: rest =>
      if not_str content
      then pages_loop source_str num_pages (page_num + 1) rest docs
      else
        doc ← new_document content
                {["source" := MStr source_str; "page" := MInt (page_num + 1);
                  "total_pages" := MInt num_pages]};
        pages_loop source_str num_pages (page_num + 1) rest (docs ++ [doc])
  end.

(** [FileLoader._load_single_file] *)
Definition _load_single_file (file_path : string) : M S (list DataLoader.fields) :=
  let file_extension := suffix_lower file_path in
  source_str ← outcome (resolve file_path);
  if String.eqb file_extension ".txt" then
    match read_text file_path utf_8 with
    | Text content =>
        doc ← new_document content {["source" := MStr source_str]};
        mret [doc]
    | UnicodeDecodeError =>
        match read_text file_path latin_1 with
        | Text content =>
            doc ← new_document content {["source" := MStr source_str]};
            mret [doc]
        | _ => mret []                                   (* except Exception as e_enc *)
        end
    | ReadError _ => mret []                             (* except Exception *)
    end
  else if String.eqb file_extension ".pdf" then
    match pdf_pages file_path with
    | Return pages => pages_loop source_str (len pages) 0 pages []
    | Raise _ => mret []                                 (* except Exception *)
    end
  else mret [].

(** [for item in source_path.rglob('*')] *)
Fixpoint rglob_loop (items : list string) (documents : list DataLoader.fields)
  : M S (list DataLoader.fields) :=
  match items with
  | [] => mret documents
  | item :: rest =>
      if is_file item && supported (suffix_lower item)
      then
        docs ← _load_single_file item;
        rglob_loop rest (documents ++ docs)
      else rglob_loop rest documents
  end.

(** [FileLoader.load] *)
Definition load (source : string) : M S (list DataLoader.fields) :=
  if negb (path_exists source) then mret []
  else if is_file source then
    if supported (suffix_lower source)
    then
      docs ← _load_single_file source;
      mret ([] ++ docs)
    else mret []
  else if is_dir source then rglob_loop (rglob source) []
  else mret [].

End Loader.
End FileLoader.

(* ===================================================================== *)
(** * Vocabulary of the specification                                     *)
(* ===================================================================== *)

Module Spec.

(** The validation of the specification of [add]: an embedding is
    present and its length is the configured dimension. *)
Definition passes_validation (dim : Z) (chunk : DocumentChunk.t) : bool :=
  match DocumentChunk.embedding chunk with
  | Some e => len e =? dim
  | None => false
  end.

Definition validated (dim : Z) (chunks : list DocumentChunk.t) : list DocumentChunk.t :=
  List.filter (passes_validation dim) chunks.

(** The [ChunkModel] object made of a chunk: every field as it is in the
    chunk. *)
Definition row_of (chunk : DocumentChunk.t) : ChunkModel.t :=
  ChunkModel.mk (DocumentChunk.id chunk) (DocumentChunk.document_id chunk)
    (DocumentChunk.content chunk) (DocumentChunk.metadata chunk)
    (DocumentChunk.embedding chunk).

(** [rows] are the rows the table holds for [chunks]: one row per chunk,
    in order, with the chunk's document, text and metadata, the canonical
    text of its id and its vector in single precision. *)
Definition rows_of `{server : PgServer} (chunks : list DocumentChunk.t) (rows : Table)
  : Prop :=
  Forall2 (fun c r => PostgresVectorStore.to_stored (row_of c) = Some r) chunks rows.

(** What [add] and [query] make of an exception [e] raised inside their
    [try]: the empty list for a SQLAlchemyError, which they catch; they
    raise [e] otherwise. *)
Definition result_on_error {A} (e : Exc) : Outcome (list A) :=
  match exc_class e with
  | SQLAlchemyError => Return []
  | _ => Raise e
  end.

(** The specification's statement of the two outcomes of [add]: the
    validated chunks are all stored and their ids returned, or the
    contents are unchanged and the empty list is returned. *)
Definition add_persists_all_or_returns_empty `{server : PgServer} (sdim dim : Z) : Prop :=
  forall chunks db,
    let result := PostgresVectorStore.add sdim dim chunks db in
    (result.1 = Return (map DocumentChunk.id (validated dim chunks)) /\
     exists rows, rows_of (validated dim chunks) rows /\
                  table result.2 = table db ++ rows) \/
    (result.1 = Return [] /\ table result.2 = table db).

(** A query vector the store accepts. *)
Definition valid_query (dim : Z) (q : list float) : Prop :=
  q <> [] /\ len q = dim.

(** [a] is ranked no later than [b] under the sort key [key]. *)
Definition ranked_le (key : ChunkModel.t -> SortKey) (a b : ChunkModel.t) : Prop :=
  PostgresVectorStore.dist_le (key a) (key b) = true.

(** The specification's statement that a rejected query is told apart from
    an empty result. *)
Definition rejection_is_distinguishable `{server : PgServer} (sdim dim : Z) : Prop :=
  forall q top_k filters db q' top_k' filters',
    q = [] \/ len q <> dim ->
    valid_query dim q' ->
    PostgresVectorStore.query sdim dim q top_k filters db
    <> PostgresVectorStore.query sdim dim q' top_k' filters' (mkDb [] None).

(** The ranking the specification describes: the matching rows in
    ascending distance, rows at equal distance in insertion order, cut
    at [top_k]. *)
Definition insertion_order_ranking `{server : PgServer} (q : list float) (top_k : Z)
           (filters : option (list (string * MetaValue))) (rows : Table)
  : list DocumentChunk.t :=
  map PostgresVectorStore.to_document_chunk
    (take (Z.to_nat top_k)
       (PostgresVectorStore.order_by (PostgresVectorStore.distance_to q)
          (List.filter (PostgresVectorStore.matches
                          (PostgresVectorStore.where_clauses filters)) rows))).


(** *** Ingestion *)

(** The dict objects that exist in [w] exist unchanged in [w']. *)
Definition preserves_objects {S} (w w' : World S) : Prop :=
  forall l x, heap w !! l = Some x -> heap w' !! l = Some x.

(** The chunk set of a document with metadata [m] split into [texts]:
    the chunk at position [k] holds the [k]-th text, refers to the
    document, has no embedding yet, and its metadata is [m] with
    [chunk_index] set to [k]. *)
Definition is_chunk_set (doc : Document.t) (m : Metadata) (texts : list string)
           (group : list DocumentChunk.t) : Prop :=
  length group = length texts /\
  forall (k : nat) (c : DocumentChunk.t),
    group !! k = Some c ->
    texts !! k = Some (DocumentChunk.content c) /\
    DocumentChunk.document_id c = Document.id doc /\
    DocumentChunk.embedding c = None /\
    DocumentChunk.metadata c = <["chunk_index" := MInt (Z.of_nat k)]> m.

(** The texts the splitter returns for a content. *)
Definition split_texts `{splitter : TextSplitter.t} (content : string) : list string :=
  match TextSplitter.split_text content with
  | Return texts => texts
  | Raise _ => []
  end.

(** The [chunk_index] entries of a list of chunks. *)
Definition chunk_indices (group : list DocumentChunk.t) : list (option MetaValue) :=
  map (fun c => DocumentChunk.metadata c !! "chunk_index") group.

(** The batches of [batch_size] consecutive chunks ([0 < batch_size]). *)
Definition batches (all_chunks : list DocumentChunk.t) (batch_size : Z)
  : list (list DocumentChunk.t) :=
  let s := Z.to_nat batch_size in
  map (fun k => slice all_chunks (k * s) s)
    (seq 0 ((length all_chunks + s - 1) / s)%nat).

(** The batch with the embeddings attached, if the embedding call
    returned one vector per chunk. *)
Definition embedded `{embedder : EmbeddingModel.t} (batch : list DocumentChunk.t)
  : option (list DocumentChunk.t) :=
  match EmbeddingModel.embed_documents (map DocumentChunk.content batch) with
  | Return embeddings =>
      if not_ embeddings || negb (len embeddings =? len batch) then None
      else Some (zip_with DocumentChunk.set_embedding batch embeddings)
  | Raise _ => None
  end.

Definition embedding_succeeds `{embedder : EmbeddingModel.t} (batch : list DocumentChunk.t) : bool :=
  match embedded batch with Some _ => true | None => false end.

(** The effect on the store, and the number of ids returned, of handing
    every batch whose embedding succeeded to [add], one batch after the
    other, up to a call of [add] that raises. *)
Fixpoint store_batches {S} `{vstore : VectorStore.t S} `{embedder : EmbeddingModel.t}
         (batches : list (list DocumentChunk.t)) (total : Z) (s : S)
  : Outcome Z * S :=
  match batches with
  | [] => (Return total, s)
  | batch :: rest =>
      match embedded batch with
      | None => store_batches rest total s
      | Some batch' =>
          match VectorStore.add batch' s with
          | (Return ids, s') => store_batches rest (total + len ids) s'
          | (Raise e, s') => (Raise e, s')
          end
      end
  end.

(** The texts sent to [embed_documents], call after call. *)
Definition embed_calls (cs : list Call) : list (list string) :=
  omap (fun c => match c with CallEmbedDocuments texts => Some texts | _ => None end) cs.


(** The specification's statement that a source without documents and a
    source without extractable chunks both end the script with status 0. *)
Definition nothing_to_ingest_exits_zero {S} `{loader : DataLoader.t}
           `{splitter : TextSplitter.t} `{embedder : EmbeddingModel.t}
           `{vstore : VectorStore.t S} `{uuids : UuidSource} : Prop :=
  forall (source : string) (batch_size : Z) (w : World S) docs,
    DataLoader.load source = Return docs ->
    Forall (fun d => TextSplitter.split_text (DataLoader.content d) = Return []) docs ->
    RunIngestion.exit_code
      (RunIngestion.main (Return tt) source batch_size w).1 = 0.

(** *** Query *)

(** The default prompt for a context block and a query. *)
Definition default_prompt (context query : string) : string :=
  nl +:+
  "Based on the following context documents, please answer the user's query." +:+ nl +:+
  "Provide a concise and helpful answer grounded in the provided context." +:+ nl +:+
  "If the context doesn't contain the answer, state that you couldn't find relevant information in the documents." +:+ nl +:+
  nl +:+
  "Context Documents:" +:+ nl +:+
  "---" +:+ nl +:+
  context +:+
  nl +:+ "---" +:+ nl +:+ nl +:+ "User Query: " +:+
  query +:+
  nl +:+ nl +:+ "Answer:" +:+ nl.

(** The string returned when a step of the query raises. *)
Definition query_error (e : Exc) : string :=
  "[Error processing query: " +:+ exc_str e +:+ "]".

End Spec.

(* ===================================================================== *)
(** * Concrete collaborators and data used in the examples                *)
(* ===================================================================== *)

Module Examples.

Definition dot (a b : list float) : Q :=
  foldr Qplus 0%Q (zip_with Qmult a b).

Definition is_zero_vector (a : list float) : bool := forallb (Qeq_bool 0) a.

(** The cosine distance of unit vectors; none for the zero vector. *)
Definition unit_cosine_distance (a b : list float) : option Q :=
  if is_zero_vector a || is_zero_vector b then None else Some (1 - dot a b)%Q.

(** A uuid in the standard form: 8-4-4-4-12 hexadecimal digits, in upper
    or lower case; its canonical text is in lower case. *)
Definition is_hex (c : ascii) : bool :=
  let n := byte c in
  ((48 <=? n)%N && (n <=? 57)%N) || ((65 <=? n)%N && (n <=? 70)%N)
  || ((97 <=? n)%N && (n <=? 102)%N).

Definition lower_hex (c : ascii) : ascii :=
  let n := byte c in
  if (65 <=? n)%N && (n <=? 70)%N then ascii_of_N (n + 32) else c.

Definition standard_uuid (s : string) : option string :=
  let cs := list_ascii_of_string s in
  if (length cs =? 36)%nat
     && forallb (fun '(i, c) =>
                   if existsb (Nat.eqb i) [8; 13; 18; 23]%nat then Ascii.eqb c "-"%char
                   else is_hex c)
          (zip (seq 0 36) cs)
  then Some (string_of_list_ascii (map lower_hex cs))
  else None.

(** The server refuses a JSON document with a NUL in a key or a string. *)
Definition json_without_nul (m : Metadata) : bool :=
  forallb (fun '(key, value) =>
             negb (has_nul key)
             && match value with MStr t => negb (has_nul t) | _ => true end)
    (map_to_list m).

(** A server without faults that visits every row, in insertion order;
    the vectors of the examples have components that single precision
    represents exactly. *)
#[local] Instance reliable_server : PgServer := {
  db_fault _ := false;
  uuid_text := standard_uuid;
  float4 x := Some x;
  jsonb_accepts := json_without_nul;
  scan_order _ rows := rows;
  scan_order_sub _ rows := Permutation_submseteq _ _ (Permutation_refl rows);
  cosine_distance := unit_cosine_distance
}.

(** A server without faults that visits every row, newest first. *)
#[local] Instance newest_first_server : PgServer := {
  db_fault _ := false;
  uuid_text := standard_uuid;
  float4 x := Some x;
  jsonb_accepts := json_without_nul;
  scan_order _ rows := rev rows;
  scan_order_sub _ rows := Permutation_submseteq _ _ (Permutation_sym (Permutation_rev rows));
  cosine_distance := unit_cosine_distance
}.

(** A server without faults whose index yields one candidate only. *)
#[local] Instance lossy_index_server : PgServer := {
  db_fault _ := false;
  uuid_text := standard_uuid;
  float4 x := Some x;
  jsonb_accepts := json_without_nul;
  scan_order _ rows := take 1 rows;
  scan_order_sub _ rows := sublist_submseteq _ _ (sublist_take rows 1);
  cosine_distance := unit_cosine_distance
}.

(** A server that loses the connection at every COMMIT. *)
#[local] Instance failing_commit_server : PgServer := {
  db_fault op := match op with OpCommit _ => true | _ => false end;
  uuid_text := standard_uuid;
  float4 x := Some x;
  jsonb_accepts := json_without_nul;
  scan_order _ rows := rows;
  scan_order_sub _ rows := Permutation_submseteq _ _ (Permutation_refl rows);
  cosine_distance := unit_cosine_distance
}.

(** A server that cannot be reached for SELECT. *)
#[local] Instance failing_select_server : PgServer := {
  db_fault op := match op with OpSelect _ _ => true | _ => false end;
  uuid_text := standard_uuid;
  float4 x := Some x;
  jsonb_accepts := json_without_nul;
  scan_order _ rows := rows;
  scan_order_sub _ rows := Permutation_submseteq _ _ (Permutation_refl rows);
  cosine_distance := unit_cosine_distance
}.

Definition empty_db : Database := mkDb [] None.

Definition chunk (i doc text : string) (e : option (list float)) : DocumentChunk.t :=
  DocumentChunk.mk i doc text ∅ e.

(** Identifiers in canonical form. *)
Definition uid (last : string) : string := "00000000-0000-4000-8000-0000000000" +:+ last.

Definition c1 := chunk (uid "01") "doc-a" "Alpha" (Some [1; 0]%Q).
Definition c2 := chunk (uid "02") "doc-a" "Beta" (Some [0; 1]%Q).
Definition c2' := chunk (uid "2b") "doc-a" "Beta again" (Some [0; 1]%Q).
Definition c3 := chunk (uid "03") "doc-a" "Gamma" (Some [1; 0; 0]%Q).
Definition c4 := chunk (uid "04") "doc-b" "Delta" None.
Definition c5 := chunk (uid "05") "doc-b" "Epsilon" (Some [0; -1]%Q).

(** A chunk whose text holds the NUL character, and two chunks whose ids
    are the same uuid, written in lower and in upper case. *)
Definition c6 := chunk (uid "06") "doc-b" (String zero "Zeta") (Some [1; 0]%Q).
Definition c7 := chunk (uid "ab") "doc-c" "Eta" (Some [1; 0]%Q).
Definition c7_upper :=
  chunk "00000000-0000-4000-8000-0000000000AB" "doc-c" "Eta again" (Some [0; 1]%Q).
(** [c7_upper] as a table holds it. *)
Definition c7_held := chunk (uid "ab") "doc-c" "Eta again" (Some [0; 1]%Q).

(** A loader: source "empty" holds no document, source "blank" one
    document without text, source "binary" one document of three words
    whose second word starts with the NUL character, any other source one
    document of three words. *)
#[local] Instance test_loader : DataLoader.t := {
  DataLoader.load source :=
    if String.eqb source "empty" then Return []
    else if String.eqb source "blank"
    then Return [DataLoader.mk_fields "doc-blank" "" {["source" := MStr "blank"]}]
    else if String.eqb source "binary"
    then Return [DataLoader.mk_fields "doc-bin" ("Alpha " +:+ String zero "Zeta Gamma")
                   {["source" := MStr "binary"]}]
    else Return [DataLoader.mk_fields "doc-1" "Alpha Beta Gamma"
                   {["source" := MStr source; "page" := MInt 1]}]
}.

(** A splitter that cuts at every space. *)
Fixpoint words_from (current : string) (s : string) : list string :=
  match s with
  | EmptyString => if not_str current then [] else [current]
  | String c s' =>
      if Ascii.eqb c " "%char
      then (if not_str current then [] else [current]) ++ words_from "" s'
      else words_from (current +:+ String c EmptyString) s'
  end.

#[local] Instance word_splitter : TextSplitter.t := {
  TextSplitter.split_text text := Return (words_from "" text)
}.

(** A model of dimension 2 that fails on a batch containing "Beta". *)
#[local] Instance test_model : SentenceTransformerEmbedder.Model := {
  SentenceTransformerEmbedder.encode texts :=
    if existsb (String.eqb "Beta") texts
    then Raise (mkExc OtherException "encode failed")
    else Return (map (fun _ => [1; 0]%Q) texts);
  SentenceTransformerEmbedder.encode_one text := Return [1; 0]%Q;
  SentenceTransformerEmbedder.get_sentence_embedding_dimension := 2
}.

(** An embedding model that raises on a batch containing "Beta". *)
#[local] Instance raising_embedder : EmbeddingModel.t := {
  EmbeddingModel.embed_documents texts :=
    if existsb (String.eqb "Beta") texts
    then Raise (mkExc OtherException "out of memory")
    else Return (map (fun _ => [1; 0]%Q) texts);
  EmbeddingModel.embed_query text := Return [1; 0]%Q;
  EmbeddingModel.dimension := 2
}.

#[local] Instance counter_uuids : UuidSource := {
  uuid4 n := "uuid-" +:+ pretty n
}.

(** Identifiers in canonical form, for the first 10^12 of them. *)
Definition pad12 (digits : string) : string :=
  String.concat EmptyString (replicate (12 - String.length digits) "0") +:+ digits.

#[local] Instance canonical_uuids : UuidSource := {
  uuid4 n := "00000000-0000-4000-8000-" +:+ pad12 (pretty n)
}.

Definition world (db : Database) : World Database := mkWorld ∅ 0 db [].

(** An Ollama client that answers with surrounding whitespace, and one
    whose calls fail. *)
#[local] Instance answering_client : OllamaProvider.Client := {
  OllamaProvider.chat model messages options :=
    Return (OllamaProvider.mk_chat (Some (Some "  A reply in a conversation. ")));
  OllamaProvider.client_generate model prompt options :=
    Return (OllamaProvider.mk_generate (Some ("  An answer." +:+ nl)))
}.

#[local] Instance unreachable_client : OllamaProvider.Client := {
  OllamaProvider.chat model messages options :=
    Raise (mkExc OtherException "connection refused");
  OllamaProvider.client_generate model prompt options :=
    Raise (mkExc OtherException "connection refused")
}.

Definition provider : OllamaProvider.self := OllamaProvider.mk_self "llama3" ∅.

(** Three chunks before embedding. *)
Definition unembedded : list DocumentChunk.t :=
  [chunk (uid "a0") "doc-1" "Alpha" None; chunk (uid "a1") "doc-1" "Beta" None;
   chunk (uid "a2") "doc-1" "Gamma" None].

(** A document whose metadata is the object at location 1. *)
Definition doc1 : Document.t := Document.mk "doc-1" "Alpha Beta Gamma" 1%positive.
Definition world_with_doc1 : World Database :=
  mkWorld {[1%positive := {["source" := MStr "notes.txt"]}]} 0 (mkDb [] None) [].

Definition db12 : Database := mkDb [Spec.row_of c1; Spec.row_of c2] None.
Definition db_ties : Database := mkDb [Spec.row_of c2; Spec.row_of c2'] None.

(** An embedding model of dimension 2 that never fails. *)
#[local] Instance constant_embedder : EmbeddingModel.t := {
  EmbeddingModel.embed_documents texts := Return (map (fun _ => [1; 0]%Q) texts);
  EmbeddingModel.embed_query text := Return [1; 0]%Q;
  EmbeddingModel.dimension := 2
}.

(** A loader and a splitter whose calls fail. *)
#[local] Instance failing_loader : DataLoader.t := {
  DataLoader.load source := Raise (mkExc OtherException "permission denied")
}.

#[local] Instance failing_splitter : TextSplitter.t := {
  TextSplitter.split_text text := Raise (mkExc OtherException "cannot split")
}.

(** A directory with two text files (the second one not in UTF-8), a PDF
    of five pages (the second without text, the fourth unreadable), a
    file of another type and a subdirectory. *)
Definition suffix_of (path : string) : string :=
  if String.eqb path "/data/a.txt" then ".txt"
  else if String.eqb path "/data/sub/d.TXT" then ".txt"
  else if String.eqb path "/data/b.pdf" then ".pdf"
  else if String.eqb path "/data/c.md" then ".md"
  else "".

#[local] Instance test_files : FileLoader.FileSystem := {
  FileLoader.path_exists path :=
    existsb (String.eqb path)
      ["/data"; "/data/a.txt"; "/data/b.pdf"; "/data/c.md"; "/data/sub"; "/data/sub/d.TXT"];
  FileLoader.is_file path :=
    existsb (String.eqb path) ["/data/a.txt"; "/data/b.pdf"; "/data/c.md"; "/data/sub/d.TXT"];
  FileLoader.is_dir path := existsb (String.eqb path) ["/data"; "/data/sub"];
  FileLoader.suffix_lower := suffix_of;
  FileLoader.rglob path :=
    if String.eqb path "/data"
    then ["/data/a.txt"; "/data/b.pdf"; "/data/c.md"; "/data/sub"; "/data/sub/d.TXT"]
    else if String.eqb path "/data/sub" then ["/data/sub/d.TXT"]
    else [];
  FileLoader.resolve path := Return path;
  FileLoader.read_text path encoding :=
    if String.eqb path "/data/a.txt" then FileLoader.Text "Alpha Beta Gamma"
    else if String.eqb path "/data/sub/d.TXT"
    then match encoding with
         | FileLoader.utf_8 => FileLoader.UnicodeDecodeError
         | FileLoader.latin_1 => FileLoader.Text "Delta"
         end
    else FileLoader.ReadError (mkExc OtherException "cannot read");
  FileLoader.pdf_pages path :=
    if String.eqb path "/data/b.pdf"
    then Return [Return "Page one"; Return ""; Return "Page three";
                 Raise (mkExc OtherException "damaged page"); Return "Page five"]
    else Raise (mkExc OtherException "not a PDF")
}.

End Examples.

(* ===================================================================== *)
(** * Vocabulary of the further properties                                *)
(* ===================================================================== *)

Module Props.

(** The primary keys of a table. *)
Definition ids (t : Table) : list string := map ChunkModel.id t.

(** What the schema promises of table [document_chunks]: the ids are
    pairwise distinct and every stored vector has the width of the column. *)
Definition table_ok (width : Z) (t : Table) : Prop :=
  NoDup (ids t) /\
  Forall (fun r => forall e, ChunkModel.embedding r = Some e -> len e = width) t.

(** A chunk satisfies the [filters] of a query: every key is present in
    its metadata, with a value whose JSON text is [str] of the filter's. *)
Definition satisfies (items : list (string * MetaValue)) (c : DocumentChunk.t) : Prop :=
  Forall (fun kv => exists mv, DocumentChunk.metadata c !! kv.1 = Some mv /\
                               PostgresVectorStore.astext mv = Some (py_str kv.2))
         items.

(** [s] starts with a whitespace character. *)
Definition starts_with_space (s : string) : bool :=
  match s with
  | EmptyString => false
  | String a s1 =>
      space1 a
      || match s1 with
         | EmptyString => false
         | String b s2 =>
             space2 a b
             || match s2 with
                | EmptyString => false
                | String c _ => space3 a b c
                end
         end
  end.

(** [s] ends with a whitespace character. *)
Fixpoint ends_with_space (s : string) : bool :=
  match s with
  | EmptyString => false
  | String _ s' => isspace s || ends_with_space s'
  end.

(** Neither end of the string is whitespace. *)
Definition trimmed (s : string) : Prop :=
  starts_with_space s = false /\ ends_with_space s = false.

(** What the driver and the server need of a chunk apart from its vector:
    no NUL character in its strings, an id that is the canonical text of a
    uuid, metadata the server accepts as JSON. *)
Definition well_formed `{server : PgServer} (c : DocumentChunk.t) : Prop :=
  PostgresVectorStore.row_has_nul (Spec.row_of c) = false /\
  uuid_text (DocumentChunk.id c) = Some (DocumentChunk.id c) /\
  jsonb_accepts (DocumentChunk.metadata c) = true.

(** The row holds the chunk, with a vector of [dim] components. *)
Definition holds (dim : Z) (c : DocumentChunk.t) (r : ChunkModel.t) : Prop :=
  ChunkModel.id r = DocumentChunk.id c /\
  ChunkModel.document_id r = DocumentChunk.document_id c /\
  ChunkModel.content r = DocumentChunk.content c /\
  ChunkModel.chunk_metadata r = DocumentChunk.metadata c /\
  exists e, ChunkModel.embedding r = Some e /\ len e = dim.

(** The server executes the statement for the query vector [q'] in single
    precision: the connection holds, the vector has the width of the
    column and components in range, no string parameter holds a NUL
    character, and the LIMIT is a bigint that is not negative. *)
Definition executes `{server : PgServer} (sdim : Z) (stmt : SelectStmt) (db : Database)
           (q' : list float) : Prop :=
  db_fault (OpBegin (table db)) = false /\
  len (order_by_cosine_distance stmt) = sdim /\
  PostgresVectorStore.stmt_has_nul stmt = false /\
  db_fault (OpSelect stmt (table db)) = false /\
  mapM float4 (order_by_cosine_distance stmt) = Some q' /\
  PostgresVectorStore.limit_ok (limit stmt) = true.

(** The server's scan yields every candidate row of the statement. *)
Definition exact_scan `{server : PgServer} (stmt : SelectStmt) (rows : Table) : Prop :=
  scan_order stmt rows ≡ₚ rows.

(** Calls to the loader and to the splitter only: neither the embedding
    model, nor the store, nor the LLM. *)
Definition loading_only (cs : list Call) : Prop :=
  Forall (fun c => match c with
                   | CallLoad _ | CallSplitText _ => True
                   | _ => False
                   end) cs.

(** The collaborator does not raise [typer.Exit] itself. *)
Definition no_exit {A} (r : Outcome A) : Prop :=
  forall e, r = Raise e -> forall code, exc_class e <> TyperExit code.

(** The page number in the metadata of a document loaded from a PDF. *)
Definition page_of (d : DataLoader.fields) : Z :=
  match DataLoader.metadata d !! "page" with
  | Some (MInt p) => p
  | _ => 0
  end.


End Props.

(* ===================================================================== *)
(** * Properties                                                          *)
(* ===================================================================== *)

(** ** The vector store *)

Section VectorStoreFacts.
Context `{server : PgServer}.
Variables sdim dim : Z.

Import PostgresVectorStore.

Lemma add_loop_spec chunks models ids :
  add_loop dim chunks models ids =
    (models ++ map Spec.row_of (Spec.validated dim chunks),
     ids ++ map DocumentChunk.id (Spec.validated dim chunks)).
Proof.
  revert models ids.
  induction chunks as [|c chunks IH]; intros models ids; simpl.
  - by rewrite !app_nil_r.
  - unfold Spec.passes_validation.
    destruct c as [i d t m [e|]]; simpl; [|apply IH].
    destruct (len e =? dim); simpl; [|apply IH].
    rewrite IH. by rewrite <- !app_assoc.
Qed.

(** What the table holds of a row the server took. *)
Lemma to_stored_fields (row r : ChunkModel.t) :
  to_stored row = Some r ->
  uuid_text (ChunkModel.id row) = Some (ChunkModel.id r) /\
  ChunkModel.document_id r = ChunkModel.document_id row /\
  ChunkModel.content r = ChunkModel.content row /\
  ChunkModel.chunk_metadata r = ChunkModel.chunk_metadata row /\
  stored_vector (ChunkModel.embedding row) = Some (ChunkModel.embedding r) /\
  jsonb_accepts (ChunkModel.chunk_metadata row) = true.
Proof.
  unfold to_stored. intros H.
  destruct (uuid_text (ChunkModel.id row)) as [i|]; [|done].
  destruct (stored_vector (ChunkModel.embedding row)) as [e|]; [|done].
  simpl in H. destruct (jsonb_accepts (ChunkModel.chunk_metadata row)); [|done].
  by injection H as <-.
Qed.

(** A stored vector is as long as the vector given. *)
Lemma stored_vector_length (e : option (list float)) (e' : option (list float)) :
  stored_vector e = Some e' ->
  match e, e' with
  | Some v, Some v' => length v' = length v
  | None, None => True
  | _, _ => False
  end.
Proof.
  destruct e as [v|]; simpl.
  - destruct (mapM float4 v) as [v'|] eqn:E; simpl; [|done].
    intros [= <-]. symmetry. by apply length_mapM in E.
  - by intros [= <-].
Qed.

Lemma insert_rows_return (rows : list ChunkModel.t) :
  forall view view',
    insert_rows view rows = (Return tt, view') ->
    exists stored,
      Forall2 (fun row r => to_stored row = Some r) rows stored /\
      view' = view ++ stored.
Proof.
  induction rows as [|row rows IH]; intros view view'; simpl.
  - intros [= <-]. exists []. split; [constructor|by rewrite app_nil_r].
  - unfold insert_row.
    destruct (db_fault (OpInsert view row)); [done|].
    destruct (to_stored row) as [r|] eqn:E; [|done].
    destruct (id_taken view (ChunkModel.id r)); [done|].
    intros Hf. apply IH in Hf as (stored & Hall & ->).
    exists (r :: stored). split; [by constructor|by rewrite <- app_assoc].
Qed.

Lemma flush_return view rows view' :
  flush sdim view rows = (Return tt, view') ->
  insert_rows view rows = (Return tt, view').
Proof.
  unfold flush.
  destruct (db_fault (OpBegin view)); [done|].
  destruct (negb (forallb _ rows)); [done|].
  by destruct (existsb row_has_nul rows).
Qed.

(** A flush that fails leaves the session's view at a table that starts
    with the committed rows; only a NUL makes it raise anything but a
    SQLAlchemyError. *)
Lemma flush_raise view rows e view' :
  flush sdim view rows = (Raise e, view') ->
  exc_class e = SQLAlchemyError \/
  (e = nul_error /\ existsb row_has_nul rows = true).
Proof.
  unfold flush.
  destruct (db_fault (OpBegin view)); [intros [= <- _]; by left|].
  destruct (negb (forallb _ rows)); [intros [= <- _]; by left|].
  destruct (existsb row_has_nul rows); [intros [= <- _]; by right|].
  clear. revert view. induction rows as [|row rows IH]; intros view; simpl; [done|].
  unfold insert_row.
  destruct (db_fault (OpInsert view row)); [intros [= <- _]; by left|].
  destruct (to_stored row) as [r|]; [|intros [= <- _]; by left].
  destruct (id_taken view (ChunkModel.id r)); [intros [= <- _]; by left|].
  apply IH.
Qed.

Lemma session_commit_return rows db r db' :
  session_commit sdim rows db = (r, db') ->
  match r with
  | Return _ =>
      (exists stored, Forall2 (fun row r => to_stored row = Some r) rows stored /\
                      table db' = table db ++ stored) /\
      txn db' = None
  | Raise e =>
      table db' = table db /\
      (exc_class e = SQLAlchemyError \/
       (e = nul_error /\ existsb row_has_nul rows = true))
  end.
Proof.
  unfold session_commit.
  destruct (flush sdim (table db) rows) as [[[]|e] view] eqn:F.
  - apply flush_return, insert_rows_return in F as (stored & Hall & ->).
    destruct (db_fault _); intros [= <- <-]; simpl; [by auto|].
    split; [by exists stored|done].
  - apply flush_raise in F. intros [= <- <-]. done.
Qed.

(** The three ways [add] can end. *)
Lemma add_cases chunks db :
  let valid := Spec.validated dim chunks in
  let commit := (session_commit sdim (map Spec.row_of valid) (SessionLocal db)).1 in
  (valid = [] /\ add sdim dim chunks db = (Return [], db)) \/
  (valid <> [] /\ commit = Return tt /\
     (add sdim dim chunks db).1 = Return (map DocumentChunk.id valid) /\
     (exists rows, Spec.rows_of valid rows /\
                   table (add sdim dim chunks db).2 = table db ++ rows) /\
     txn (add sdim dim chunks db).2 = None) \/
  (valid <> [] /\
     (exists e, commit = Raise e /\
                (add sdim dim chunks db).1 = Spec.result_on_error e /\
                (exc_class e = SQLAlchemyError \/
                 (e = nul_error /\
                  existsb row_has_nul (map Spec.row_of valid) = true))) /\
     table (add sdim dim chunks db).2 = table db /\
     txn (add sdim dim chunks db).2 = None).
Proof.
  intros valid commit. subst valid commit.
  unfold add. destruct chunks as [|c chunks]; [by left|].
  change (not_ (c :: chunks)) with false. cbv iota.
  rewrite add_loop_spec. cbn [app].
  generalize (Spec.validated dim (c :: chunks)). intros valid.
  destruct valid as [|v valid']; [by left|].
  right. change (not_ (map Spec.row_of (v :: valid'))) with false. cbv iota.
  destruct (session_commit sdim (map Spec.row_of (v :: valid')) (SessionLocal db))
    as [[[]|e] db'] eqn:C; apply session_commit_return in C.
  - left. destruct C as [(stored & Hall & Ht) _]. cbn [fst snd].
    split; [done|]. split; [done|]. split; [done|]. split; [|done].
    exists stored. split; [|exact Ht].
    unfold Spec.rows_of. by apply Forall2_fmap_l in Hall.
  - right. destruct C as [Ht Hclass]. split; [done|]. cbn [fst].
    split; [|by destruct (exc_class e)].
    exists e. split; [done|]. split; [|done].
    unfold Spec.result_on_error. by destruct (exc_class e).
Qed.

(** Only a NUL character in a string of a validated chunk makes [add]
    raise. *)
Lemma add_raise chunks db e :
  (add sdim dim chunks db).1 = Raise e ->
  e = nul_error /\
  existsb row_has_nul (map Spec.row_of (Spec.validated dim chunks)) = true.
Proof.
  intros He.
  destruct (add_cases chunks db)
    as [[_ E]|[(_ & _ & E & _)|(_ & (e' & _ & E & Hc) & _)]]; rewrite E in He; try done.
  unfold Spec.result_on_error in He. destruct Hc as [Hc|[-> Hc]].
  - by rewrite Hc in He.
  - simpl in He. by injection He as <-.
Qed.

(** Without a NUL character, [add] returns a list. *)
Lemma add_returns chunks db :
  existsb row_has_nul (map Spec.row_of (Spec.validated dim chunks)) = false ->
  exists ids, (add sdim dim chunks db).1 = Return ids.
Proof.
  intros Hnul. destruct (add sdim dim chunks db).1 as [ids|e] eqn:E; [by exists ids|].
  apply add_raise in E as [_ E]. congruence.
Qed.

(** The rows of given chunks are determined by the chunks. *)
Lemma rows_of_unique (chunks : list DocumentChunk.t) (rows rows' : Table) :
  Spec.rows_of chunks rows -> Spec.rows_of chunks rows' -> rows = rows'.
Proof.
  intros H. revert rows'. induction H as [|c r chunks rows Hr H IH]; intros rows' H'.
  - by inversion H'.
  - inversion H' as [|c' r' chunks' rows'' Hr' H'']; subst.
    f_equal; [congruence|by apply IH].
Qed.

(** The rows of chunks that pass the validation hold vectors of the
    store's dimension. *)
Lemma rows_of_width (chunks : list DocumentChunk.t) (rows : Table) :
  Forall (fun c => Spec.passes_validation dim c = true) chunks ->
  Spec.rows_of chunks rows ->
  Forall (fun r => exists e, ChunkModel.embedding r = Some e /\ len e = dim) rows.
Proof.
  intros Hv H. induction H as [|c r chunks rows Hr H IH]; [constructor|].
  apply Forall_cons in Hv as [Hc Hv]. constructor; [|by apply IH].
  apply to_stored_fields in Hr as (_ & _ & _ & _ & He & _).
  apply stored_vector_length in He. simpl in He.
  unfold Spec.passes_validation in Hc.
  destruct (DocumentChunk.embedding c) as [e|]; [|done].
  destruct (ChunkModel.embedding r) as [e'|]; [|done].
  exists e'. split; [done|]. apply Z.eqb_eq in Hc. unfold len in *. lia.
Qed.

Lemma validated_pass (chunks : list DocumentChunk.t) :
  Forall (fun c => Spec.passes_validation dim c = true) (Spec.validated dim chunks).
Proof.
  apply Forall_forall. intros c Hc%list_elem_of_In. by apply filter_In in Hc as [_ Hc].
Qed.

End VectorStoreFacts.

(** [add] on three chunks of which one has the wrong dimension and one has
    no embedding: the two others are stored and their ids returned. *)
Example add_drops_invalid_chunks :
  let '(ids, db') :=
    PostgresVectorStore.add (server := Examples.reliable_server) 2 2
      [Examples.c1; Examples.c3; Examples.c4; Examples.c5] Examples.empty_db in
  ids = Return [DocumentChunk.id Examples.c1; DocumentChunk.id Examples.c5] /\
  table db' = [Spec.row_of Examples.c1; Spec.row_of Examples.c5].
Proof. vm_compute. done. Qed.

(** A primary-key violation at the second row of the INSERT: the first row
    was inserted inside the transaction, nothing is committed.  The key is
    the uuid, not its text: the same uuid in upper case is taken. *)
Example add_rolls_back_on_duplicate_id :
  PostgresVectorStore.insert_rows (server := Examples.reliable_server) []
     [Spec.row_of Examples.c1; Spec.row_of Examples.c1]
  = (Raise (PostgresVectorStore.sql_error "IntegrityError"), [Spec.row_of Examples.c1]) /\
  PostgresVectorStore.add (server := Examples.reliable_server) 2 2
     [Examples.c1; Examples.c1] Examples.empty_db
  = (Return [], Examples.empty_db) /\
  PostgresVectorStore.add (server := Examples.reliable_server) 2 2
     [Examples.c7_upper] (mkDb [Spec.row_of Examples.c7] None)
  = (Return [], mkDb [Spec.row_of Examples.c7] None).
Proof. vm_compute. done. Qed.

(** An id given in upper case is returned as it was given and stored in
    canonical form; an id that is not a uuid is refused. *)
Example add_stores_the_canonical_id :
  let '(ids, db') :=
    PostgresVectorStore.add (server := Examples.reliable_server) 2 2
      [Examples.c7_upper] Examples.empty_db in
  ids = Return ["00000000-0000-4000-8000-0000000000AB"] /\
  map ChunkModel.id (table db') = ["00000000-0000-4000-8000-0000000000ab"] /\
  PostgresVectorStore.add (server := Examples.reliable_server) 2 2
    [Examples.chunk "id-1" "doc-a" "Alpha" (Some [1; 0]%Q)] Examples.empty_db
  = (Return [], Examples.empty_db).
Proof. vm_compute. done. Qed.

(** C1.  [add] returns the ids of the chunks that pass the validation
    (embedding present, of the store's dimension) and of no other chunk:
    the returned list is empty or the ids of the validated chunks in input
    order (and when no list is returned, the commit has raised an exception
    that is not a SQLAlchemyError); the id of a rejected chunk is not
    returned (unless a validated chunk carries the same id); when the
    commit succeeds the list is exactly the validated ids and the new rows
    are those of the validated chunks; the table grows by these rows or not
    at all; every validated chunk has its own embedding, whose length is
    the store's dimension, and so has its row. *)
Theorem add_returns_validated_ids `{server : PgServer} (sdim dim : Z)
        (chunks : list DocumentChunk.t) (db : Database) :
  let valid := Spec.validated dim chunks in
  let result := PostgresVectorStore.add sdim dim chunks db in
  let commit :=
    (PostgresVectorStore.session_commit sdim (map Spec.row_of valid)
       (PostgresVectorStore.SessionLocal db)).1 in
  (result.1 = Return [] \/ result.1 = Return (map DocumentChunk.id valid) \/
   exists e, result.1 = Raise e /\ commit = Raise e /\ exc_class e <> SQLAlchemyError) /\
  (forall c ids, In c chunks -> Spec.passes_validation dim c = false ->
                 ~ In (DocumentChunk.id c) (map DocumentChunk.id valid) ->
                 result.1 = Return ids ->
                 ~ In (DocumentChunk.id c) ids) /\
  (commit = Return tt ->
     result.1 = Return (map DocumentChunk.id valid) /\
     exists rows, Spec.rows_of valid rows /\ table result.2 = table db ++ rows) /\
  (table result.2 = table db \/
   exists rows, Spec.rows_of valid rows /\ table result.2 = table db ++ rows) /\
  (forall c, In c valid ->
     In c chunks /\
     exists e, DocumentChunk.embedding c = Some e /\
               ChunkModel.embedding (Spec.row_of c) = Some e /\ len e = dim) /\
  (forall rows, Spec.rows_of valid rows ->
     Forall (fun r => exists e, ChunkModel.embedding r = Some e /\ len e = dim) rows).
Proof.
  intros valid result commit.
  assert (Hids : result.1 = Return [] \/ result.1 = Return (map DocumentChunk.id valid) \/
                 exists e, result.1 = Raise e /\ commit = Raise e /\
                           exc_class e <> SQLAlchemyError).
  { destruct (add_cases sdim dim chunks db)
      as [[_ E]|[(_ & _ & E & _)|(_ & (e & C & E & _) & _)]];
      subst result; rewrite E; auto.
    unfold Spec.result_on_error. destruct (exc_class e) eqn:Hc; auto.
    - right. right. exists e. fold valid in C. fold commit in C. by rewrite Hc.
    - right. right. exists e. fold valid in C. fold commit in C. by rewrite Hc. }
  split; [exact Hids|]. split; [|split; [|split; [|split]]].
  - intros c ids _ _ Hnot Hr Hin.
    destruct Hids as [E|[E|(e & E & _)]]; rewrite E in Hr; [| |done].
    + injection Hr as <-. done.
    + injection Hr as <-. by apply Hnot.
  - intros Hc.
    destruct (add_cases sdim dim chunks db)
      as [[V E]|[(_ & _ & E1 & E2 & _)|(_ & (e & He & _) & _)]].
    + subst result valid. rewrite E, V. simpl. split; [done|].
      exists []. split; [constructor|by rewrite app_nil_r].
    + done.
    + subst commit valid. congruence.
  - destruct (add_cases sdim dim chunks db)
      as [[_ E]|[(_ & _ & _ & E & _)|(_ & _ & E & _)]];
      subst result; [rewrite E| |]; auto.
  - intros c Hin. apply filter_In in Hin as [Hin Hv]. split; [done|].
    unfold Spec.passes_validation in Hv.
    destruct (DocumentChunk.embedding c) as [e|] eqn:E; [|done].
    exists e. simpl. rewrite E. repeat split. by apply Z.eqb_eq.
  - intros rows. apply rows_of_width, validated_pass.
Qed.

(** The counterexample to C4: a chunk whose text holds the NUL character
    makes the driver raise [ValueError] when the rows are flushed; [add]
    does not catch it: no list is returned. *)
Lemma add_raises_on_a_nul_character :
  ~ Spec.add_persists_all_or_returns_empty (server := Examples.reliable_server) 2 2.
Proof.
  intros Hclaim.
  destruct (Hclaim [Examples.c1; Examples.c6] Examples.empty_db) as [[H _]|[H _]];
    vm_compute in H; discriminate H.
Qed.

(** C4 (as the code has it).  The validated chunks of one [add] are
    committed as one unit: if the commit goes through, all of them become
    rows and their ids are returned; if the flush or the COMMIT fails, the
    table is as before, and the result is the empty list when the failure
    is a SQLAlchemyError, while any other exception leaves [add]; the
    table never grows by anything but nothing or all the rows of the
    validated chunks; no transaction is left open. *)
Theorem add_is_atomic `{server : PgServer} (sdim dim : Z)
        (chunks : list DocumentChunk.t) (db : Database) :
  let valid := Spec.validated dim chunks in
  let result := PostgresVectorStore.add sdim dim chunks db in
  let commit :=
    (PostgresVectorStore.session_commit sdim (map Spec.row_of valid)
       (PostgresVectorStore.SessionLocal db)).1 in
  (commit = Return tt ->
     result.1 = Return (map DocumentChunk.id valid) /\
     exists rows, Spec.rows_of valid rows /\ table result.2 = table db ++ rows) /\
  (forall e, commit = Raise e ->
     table result.2 = table db /\ result.1 = Spec.result_on_error e) /\
  (forall rows, table result.2 = table db ++ rows ->
     rows = [] \/ Spec.rows_of valid rows) /\
  (txn result.2 = None \/ result.2 = db).
Proof.
  intros valid result commit.
  assert (Hgrow : forall rows : Table, table db = table db ++ rows -> rows = []).
  { intros rows Hr. apply (f_equal length) in Hr. rewrite length_app in Hr.
    destruct rows; [done|simpl in Hr; lia]. }
  destruct (add_cases sdim dim chunks db)
    as [[V E]|[(V & C & E1 & (rows & Hrows & E2) & E3)|(V & (e & C & E1 & Hc) & E2 & E3)]].
  - fold valid in V. fold result in E. rewrite E, V. simpl.
    split; [|split; [|split]]; auto.
    + intros _. split; [done|]. exists []. split; [constructor|by rewrite app_nil_r].
    + intros e He. subst commit. rewrite V in He.
      unfold PostgresVectorStore.session_commit, PostgresVectorStore.flush in He.
      simpl in He.
      destruct (db_fault (OpBegin (table db))); simpl in He.
      * injection He as <-. done.
      * destruct (db_fault (OpCommit (table db))); [|done].
        injection He as <-. done.
  - fold valid in V, C, E1, E2, Hrows. fold result in E1, E2, E3. fold commit in C.
    split; [|split; [|split]]; auto.
    + split; [done|]. by exists rows.
    + intros e He. congruence.
    + intros rows' Hr. right. rewrite E2 in Hr. apply app_inv_head in Hr. by subst rows'.
  - fold valid in V, C, Hc. fold result in E1, E2, E3. fold commit in C.
    split; [|split; [|split]]; auto.
    + intros Hc'. congruence.
    + intros e' He'. rewrite C in He'. injection He' as <-. done.
    + intros rows Hr. left. rewrite E2 in Hr. by apply Hgrow.
Qed.

(** ** ORDER BY: the sort of [session_execute] *)

Section OrderBy.
Import PostgresVectorStore.
Variable key : ChunkModel.t -> SortKey.

#[local] Abbreviation ranked_le := (Spec.ranked_le key).




Lemma insert_by_perm r rows : Permutation (insert_by key r rows) (r :: rows).
Proof.
  induction rows as [|r' rows IH]; simpl; [done|].
  destruct (dist_le (key r) (key r')); [done|].
  rewrite IH. apply perm_swap.
Qed.

Lemma order_by_perm rows : Permutation (order_by key rows) rows.
Proof.
  induction rows as [|r rows IH]; simpl; [done|].
  rewrite insert_by_perm. by constructor.
Qed.



(** A row inserted in front of rows that all rank no earlier stays in
    front: the sort does not reorder a list that is already in order. *)
Lemma order_by_id rows : StronglySorted ranked_le rows -> order_by key rows = rows.
Proof.
  induction 1 as [|r rows Hs IH Hall]; simpl; [done|].
  rewrite IH. destruct rows as [|r' rows]; simpl; [done|].
  apply Forall_cons in Hall as [Hr _]. unfold ranked_le in Hr. by rewrite Hr.
Qed.


(** The first rows of a ranking are ranked. *)
Lemma take_sorted (n : nat) (rows : Table) :
  StronglySorted ranked_le rows -> StronglySorted ranked_le (take n rows).
Proof.
  intros H. revert n. induction H as [|r rows Hs IH Hall]; intros [|n]; simpl;
    try constructor.
  - apply IH.
  - apply Forall_forall. intros x Hx. rewrite Forall_forall in Hall. apply Hall.
    eapply elem_of_submseteq; [exact Hx|]. apply sublist_submseteq, sublist_take.
Qed.

End OrderBy.

(** ** [PostgresVectorStore.query] *)

Section QueryFacts.
Context `{server : PgServer}.
Variables sdim dim : Z.
Import PostgresVectorStore.

Lemma matches_no_filter r : matches (where_clauses None) r = true.
Proof. done. Qed.

Lemma filter_no_filter (rows : Table) :
  List.filter (matches (where_clauses None)) rows = rows.
Proof. induction rows as [|r rows IH]; simpl; [done|by f_equal]. Qed.

(** What [query] returns for a vector it accepts. *)
Lemma query_valid q top_k filters db :
  Spec.valid_query dim q ->
  query sdim dim q top_k filters db =
    match session_execute sdim (mkSelect (where_clauses filters) q top_k) (SessionLocal db) with
    | Return results => Return (map to_document_chunk results)
    | Raise e => Spec.result_on_error e
    end.
Proof.
  intros [Hne Hlen]. unfold query.
  destruct q as [|x q]; [done|]. simpl not_.
  apply Z.eqb_eq in Hlen. rewrite Hlen. simpl.
  destruct (session_execute _ _ _) as [rows|e]; [done|].
  unfold Spec.result_on_error. by destruct (exc_class e).
Qed.

(** The rows of the session when the server executes the statement. *)
Lemma session_execute_rows stmt db q' :
  Props.executes sdim stmt db q' ->
  session_execute sdim stmt (SessionLocal db) =
    Return (take (Z.to_nat (limit stmt))
              (order_by (distance_to q')
                 (scan_order stmt (List.filter (matches (where_astext stmt)) (table db))))).
Proof.
  intros (Hb & Hw & Hn & Hs & Hq & Hl). unfold session_execute. simpl.
  rewrite Hb. apply Z.eqb_eq in Hw. rewrite Hw. simpl. by rewrite Hn, Hs, Hq, Hl.
Qed.

(** The ways the session can end: a SQLAlchemyError, the driver's
    [ValueError] for a NUL character, or the rows. *)
Lemma session_execute_cases stmt db :
  (exists e, session_execute sdim stmt (SessionLocal db) = Raise e /\
             exc_class e = SQLAlchemyError) \/
  (session_execute sdim stmt (SessionLocal db) = Raise nul_error /\
   stmt_has_nul stmt = true) \/
  (exists q', Props.executes sdim stmt db q').
Proof.
  unfold session_execute, Props.executes. simpl.
  destruct (db_fault (OpBegin (table db))); [left; by eexists|].
  destruct (len (order_by_cosine_distance stmt) =? sdim) eqn:Hw; simpl;
    [|left; by eexists].
  destruct (stmt_has_nul stmt); [right; by left|].
  destruct (db_fault (OpSelect stmt (table db))); [left; by eexists|].
  destruct (mapM float4 (order_by_cosine_distance stmt)) as [q'|]; [|left; by eexists].
  destruct (limit_ok (limit stmt)); simpl; [|left; by eexists].
  right. right. exists q'. apply Z.eqb_eq in Hw. done.
Qed.

(** The chunks selected when the server executes the statement. *)
Lemma query_rows q top_k filters db q' :
  Spec.valid_query dim q ->
  Props.executes sdim (mkSelect (where_clauses filters) q top_k) db q' ->
  query sdim dim q top_k filters db =
    Return
      (map to_document_chunk
         (take (Z.to_nat top_k)
            (order_by (distance_to q')
               (scan_order (mkSelect (where_clauses filters) q top_k)
                  (List.filter (matches (where_clauses filters)) (table db)))))).
Proof.
  intros Hq He. rewrite query_valid by done.
  by rewrite (session_execute_rows _ _ _ He).
Qed.

(** The ways [query] can end. *)
Lemma query_cases q top_k filters db :
  let stmt := mkSelect (where_clauses filters) q top_k in
  query sdim dim q top_k filters db = Return [] \/
  (query sdim dim q top_k filters db = Raise nul_error /\ stmt_has_nul stmt = true) \/
  (Spec.valid_query dim q /\ exists q', Props.executes sdim stmt db q').
Proof.
  intros stmt. unfold query.
  destruct (not_ q) eqn:Hne; [by left|].
  destruct (len q =? dim) eqn:Hlen; simpl; [|by left].
  fold stmt.
  destruct (session_execute_cases stmt db) as [(e & -> & Hc)|[[-> Hn]|(q' & He)]].
  - left. by rewrite Hc.
  - right. by left.
  - right. right. split; [|by exists q'].
    split; [by destruct q|by apply Z.eqb_eq].
Qed.

End QueryFacts.

(** Retrieval over a store of two chunks with [top_k = 5]: two results,
    nearest first; over an empty store: no result. *)
Example query_two_chunk_store :
  PostgresVectorStore.query (server := Examples.reliable_server) 2 2 [0; 1]%Q 5 None
    Examples.db12
  = Return [Examples.c2; Examples.c1] /\
  PostgresVectorStore.query (server := Examples.reliable_server) 2 2 [0; 1]%Q 5 None
    Examples.empty_db
  = Return [].
Proof. vm_compute. done. Qed.

(** The counterexample to C2: a vector of the wrong dimension and an empty
    vector, queried on a store of two chunks, give the empty list, which
    is also the answer of a valid query on an empty store. *)
Lemma query_rejection_is_an_empty_list :
  ~ Spec.rejection_is_distinguishable (server := Examples.reliable_server) 2 2.
Proof.
  intros Hclaim.
  apply (Hclaim [1; 0; 0]%Q 5 None Examples.db12 [1; 0]%Q 5 None).
  - right. done.
  - split; done.
  - vm_compute. done.
Qed.

(** C2 (as the code has it).  A query vector that is empty or of the wrong
    dimension makes [query] return the empty list, whatever the store
    holds and whatever the server does: the value that every query on an
    empty store returns (unless the driver refuses a NUL character in a
    filter and the query raises). *)
Theorem query_rejects_with_empty_list `{server : PgServer} (sdim dim : Z) (q : list float)
        (top_k : Z) (filters : option (list (string * MetaValue))) (db : Database) :
  q = [] \/ len q <> dim ->
  PostgresVectorStore.query sdim dim q top_k filters db = Return [] /\
  forall q' top_k' filters',
    PostgresVectorStore.query sdim dim q top_k filters db
    = PostgresVectorStore.query sdim dim q' top_k' filters' (mkDb [] None) \/
    (PostgresVectorStore.query sdim dim q' top_k' filters' (mkDb [] None)
     = Raise PostgresVectorStore.nul_error /\
     PostgresVectorStore.stmt_has_nul
       (mkSelect (PostgresVectorStore.where_clauses filters') q' top_k') = true).
Proof.
  intros Hq.
  assert (E : PostgresVectorStore.query sdim dim q top_k filters db = Return []).
  { unfold PostgresVectorStore.query. destruct Hq as [->|Hq]; [done|].
    destruct q as [|x q]; [done|]. simpl not_.
    apply Z.eqb_neq in Hq. by rewrite Hq. }
  split; [exact E|]. intros q' top_k' filters'. rewrite E.
  destruct (query_cases sdim dim q' top_k' filters' (mkDb [] None))
    as [E'|[E'|(Hv & q'' & He)]]; [by left|by right|left].
  rewrite (query_rows sdim dim q' top_k' filters' (mkDb [] None) q'' Hv He). simpl.
  pose proof (scan_order_sub
                (mkSelect (PostgresVectorStore.where_clauses filters') q' top_k') [])
    as Hsub.
  apply submseteq_nil_r in Hsub. rewrite Hsub. simpl. by rewrite take_nil.
Qed.

Lemma query_rejects_with_empty_list_witness :
  PostgresVectorStore.query (server := Examples.reliable_server) 2 2 [1; 0; 0]%Q 5 None
    Examples.db12
  = Return [].
Proof.
  apply (query_rejects_with_empty_list (server := Examples.reliable_server)
           2 2 [1; 0; 0]%Q 5 None Examples.db12).
  right. vm_compute. discriminate.
Defined.

(** Two chunks at the same distance from the query, inserted as [c2] then
    [c2']: a server that visits the newest row first returns them in that
    order; when the SELECT fails, a store of two chunks yields no result;
    so it does when [top_k] is not a bigint; and an index that yields one
    candidate leaves one result of two. *)
Example query_ties_and_faults :
  PostgresVectorStore.query (server := Examples.newest_first_server) 2 2 [0; 1]%Q 5 None
    Examples.db_ties
  = Return [Examples.c2'; Examples.c2] /\
  Spec.insertion_order_ranking (server := Examples.newest_first_server) [0; 1]%Q 5 None
    (table Examples.db_ties)
  = [Examples.c2; Examples.c2'] /\
  PostgresVectorStore.query (server := Examples.failing_select_server) 2 2 [0; 1]%Q 5 None
    Examples.db12
  = Return [] /\
  PostgresVectorStore.query (server := Examples.reliable_server) 2 2 [0; 1]%Q (2 ^ 63) None
    Examples.db12
  = Return [] /\
  PostgresVectorStore.query (server := Examples.lossy_index_server) 2 2 [0; 1]%Q 5 None
    Examples.db12
  = Return [Examples.c1].
Proof. vm_compute. done. Qed.




(** ** Ingestion: chunking *)

Section ChunkingFacts.
Context {S : Type}.
Context `{loader : DataLoader.t} `{splitter : TextSplitter.t}
        `{embedder : EmbeddingModel.t} `{vstore : VectorStore.t S}
        `{uuids : UuidSource}.
Import IngestionService.

#[local] Abbreviation preserves_objects := (@Spec.preserves_objects S).

Lemma preserves_objects_refl w : preserves_objects w w.
Proof. by intros l x. Qed.

Lemma preserves_objects_trans w1 w2 w3 :
  preserves_objects w1 w2 -> preserves_objects w2 w3 -> preserves_objects w1 w3.
Proof. intros H12 H23 l x Hl. by apply H23, H12. Qed.

(** One document: the chunks appended by the [enumerate] loop started at
    index [i]. *)
Lemma enumerate_loop_spec doc m texts :
  forall i all_chunks w,
    heap w !! Document.metadata doc = Some m ->
    exists group w',
      enumerate_loop doc texts i all_chunks w = (Return (all_chunks ++ group), w') /\
      length group = length texts /\
      (forall (k : nat) c, group !! k = Some c ->
         texts !! k = Some (DocumentChunk.content c) /\
         DocumentChunk.document_id c = Document.id doc /\
         DocumentChunk.embedding c = None /\
         DocumentChunk.metadata c = <["chunk_index" := MInt (i + Z.of_nat k)]> m) /\
      preserves_objects w w' /\ store w' = store w /\ calls w' = calls w.
Proof.
  induction texts as [|text texts IH]; intros i all_chunks w Hm.
  - exists [], w. simpl. rewrite app_nil_r.
    split; [done|]. split; [done|]. split; [by intros k c Hk|].
    split; [apply preserves_objects_refl|done].
  - set (l := fresh (dom (heap w))).
    assert (Hl : heap w !! l = None).
    { apply not_elem_of_dom. apply is_fresh. }
    assert (Hne : l <> Document.metadata doc) by congruence.
    set (md := <["chunk_index" := MInt i]> m).
    set (w1 := mkWorld (<[l := md]> (heap w)) (Datatypes.S (uuid_count w)) (store w) (calls w)).
    assert (Hstep : enumerate_loop doc (text :: texts) i all_chunks w =
              enumerate_loop doc texts (i + 1)
                (all_chunks ++ [DocumentChunk.mk (uuid4 (uuid_count w)) (Document.id doc)
                                  text md None]) w1).
    { simpl. unfold mbind, M_bind, dict_copy, dict_items, new_dict, dict_setitem, new_uuid.
      unfold mbind, M_bind. simpl. rewrite Hm. simpl. fold l.
      rewrite alter_insert_eq. rewrite lookup_insert_eq. simpl. done. }
    destruct (IH (i + 1) (all_chunks ++ [DocumentChunk.mk (uuid4 (uuid_count w))
                                       (Document.id doc) text md None]) w1)
      as (group & w' & Hrun & Hlen & Hgroup & Hpres & Hstore & Hcalls).
    { simpl. by rewrite lookup_insert_ne. }
    exists (DocumentChunk.mk (uuid4 (uuid_count w)) (Document.id doc) text md None :: group), w'.
    split; [|split; [|split; [|split; [|split]]]].
    + rewrite Hstep, Hrun. by rewrite <- app_assoc.
    + simpl. by rewrite Hlen.
    + intros [|k] c Hk; simpl in Hk.
      * injection Hk as <-. simpl. repeat split; try done.
        subst md. by rewrite Z.add_0_r.
      * destruct (Hgroup k c Hk) as (Ht & Hd & He & Hmd).
        repeat split; try done. rewrite Hmd. do 2 f_equal. lia.
    + intros l' x Hl'. apply Hpres. simpl.
      rewrite lookup_insert_ne; [done|]. congruence.
    + by rewrite Hstore.
    + by rewrite Hcalls.
Qed.

(** The [for doc in documents] loop. *)
Lemma chunk_documents_spec documents :
  forall all_chunks w,
    Forall (fun doc => is_Some (heap w !! Document.metadata doc) /\
                       exists texts,
                         TextSplitter.split_text (Document.content doc) = Return texts)
           documents ->
    exists groups w',
      chunk_documents documents all_chunks w = (Return (all_chunks ++ concat groups), w') /\
      Forall2 (fun doc group =>
                 exists texts m,
                   TextSplitter.split_text (Document.content doc) = Return texts /\
                   heap w !! Document.metadata doc = Some m /\
                   heap w' !! Document.metadata doc = Some m /\
                   Spec.is_chunk_set doc m texts group)
              documents groups /\
      preserves_objects w w' /\ store w' = store w /\
      Spec.embed_calls (calls w') = Spec.embed_calls (calls w).
Proof.
  induction documents as [|doc documents IH]; intros all_chunks w Hdocs.
  - exists [], w. simpl. rewrite app_nil_r.
    split; [done|]. split; [constructor|]. split; [apply preserves_objects_refl|done].
  - apply Forall_cons in Hdocs as [[[m Hm] [texts Htexts]] Hdocs].
    set (w1 := mkWorld (heap w) (uuid_count w) (store w)
                 (calls w ++ [CallSplitText (Document.content doc)])).
    destruct (enumerate_loop_spec doc m texts 0 all_chunks w1 Hm)
      as (group & w2 & Hrun & Hlen & Hgroup & Hpres & Hstore & Hcalls).
    destruct (IH (all_chunks ++ group) w2)
      as (groups & w' & Hrun' & Hall & Hpres' & Hstore' & Hcalls').
    { eapply Forall_impl; [exact Hdocs|]. intros d [[x Hx] Ht]. split; [|exact Ht].
      exists x. apply Hpres. exact Hx. }
    exists (group :: groups), w'.
    split; [|split; [|split; [|split]]].
    + simpl. unfold mbind, M_bind, call, record_call, outcome.
      unfold mbind, M_bind. simpl. rewrite Htexts. fold w1.
      rewrite Hrun, Hrun'. by rewrite <- app_assoc.
    + constructor.
      * exists texts, m. split; [done|]. split; [done|].
        split; [by apply Hpres', Hpres|]. split; [done|].
        intros k c Hk. destruct (Hgroup k c Hk) as (? & ? & ? & Hmd).
        by rewrite Hmd.
      * clear -Hall Hdocs Hpres.
        induction Hall as [|d g ds gs (texts' & m' & Ht & Hm2 & Hm' & Hset) Hall IHall];
          [constructor|].
        apply Forall_cons in Hdocs as [[[m0 Hm0] _] Hdocs].
        constructor; [|by apply IHall].
        exists texts', m'. split; [done|]. split; [|done].
        assert (heap w2 !! Document.metadata d = Some m0) as Hm02 by (apply Hpres, Hm0).
        congruence.
    + intros l x Hx. apply Hpres', Hpres. exact Hx.
    + by rewrite Hstore', Hstore.
    + rewrite Hcalls', Hcalls. simpl. unfold Spec.embed_calls.
      rewrite omap_app. simpl. by rewrite app_nil_r.
Qed.

End ChunkingFacts.

Lemma is_chunk_set_indices (doc : Document.t) (m : Metadata) (texts : list string)
      (group : list DocumentChunk.t) :
  Spec.is_chunk_set doc m texts group ->
  Spec.chunk_indices group
  = map (fun k : nat => Some (MInt (Z.of_nat k))) (seq 0 (length texts)) /\
  map DocumentChunk.content group = texts /\
  Forall (fun c => forall key, key <> "chunk_index" ->
                               DocumentChunk.metadata c !! key = m !! key) group /\
  NoDup (Spec.chunk_indices group).
Proof.
  intros [Hlen Hset].
  assert (Hidx : Spec.chunk_indices group
                 = map (fun k : nat => Some (MInt (Z.of_nat k))) (seq 0 (length texts))).
  { apply list_eq. intros k. unfold Spec.chunk_indices.
    rewrite !list_lookup_fmap.
    destruct (group !! k) as [c|] eqn:Hk; simpl.
    - destruct (Hset k c Hk) as (_ & _ & _ & ->).
      rewrite lookup_insert_eq.
      assert (k < length texts)%nat as Hlt.
      { rewrite <- Hlen. by apply lookup_lt_Some in Hk. }
      by rewrite lookup_seq_lt.
    - apply lookup_ge_None in Hk. rewrite lookup_seq_ge; [done|lia]. }
  split; [exact Hidx|]. split; [|split].
  - apply list_eq. intros k. rewrite list_lookup_fmap.
    destruct (group !! k) as [c|] eqn:Hk; simpl.
    + by destruct (Hset k c Hk) as (-> & _).
    + apply lookup_ge_None in Hk. symmetry. apply lookup_ge_None. lia.
  - apply Forall_forall. intros c Hc key Hkey.
    apply list_elem_of_lookup in Hc as [k Hk].
    destruct (Hset k c Hk) as (_ & _ & _ & ->).
    by rewrite lookup_insert_ne.
  - rewrite Hidx. apply NoDup_fmap_2; [|apply NoDup_seq].
    intros a b Hab. injection Hab as Hab. lia.
Qed.

(** C7.  Chunking a list of documents whose texts the splitter returns:
    the chunks come document after document; the chunk set of a document
    split into [n] texts carries the [chunk_index] values [0 .. n-1] in
    split order, each chunk's metadata is the document's metadata with
    [chunk_index] added (every other key as in the document), and the
    document's own metadata object is the same before and after. *)
Theorem chunks_get_contiguous_indices {S : Type}
        `{splitter : TextSplitter.t} `{uuids : UuidSource}
        (documents : list Document.t) (w : World S) :
  Forall (fun doc => is_Some (heap w !! Document.metadata doc) /\
                     exists texts,
                       TextSplitter.split_text (Document.content doc) = Return texts)
         documents ->
  exists groups w',
    IngestionService.chunk_documents documents [] w = (Return (concat groups), w') /\
    Forall2 (fun doc group =>
               exists texts m,
                 TextSplitter.split_text (Document.content doc) = Return texts /\
                 heap w !! Document.metadata doc = Some m /\
                 heap w' !! Document.metadata doc = Some m /\
                 Spec.is_chunk_set doc m texts group /\
                 Spec.chunk_indices group
                 = map (fun k : nat => Some (MInt (Z.of_nat k))) (seq 0 (length texts)) /\
                 NoDup (Spec.chunk_indices group) /\
                 Forall (fun c => forall key, key <> "chunk_index" ->
                                   DocumentChunk.metadata c !! key = m !! key) group)
            documents groups /\
    Spec.preserves_objects w w'.
Proof.
  intros Hdocs.
  destruct (chunk_documents_spec documents [] w Hdocs)
    as (groups & w' & Hrun & Hall & Hpres & _).
  exists groups, w'. split; [exact Hrun|]. split; [|exact Hpres].
  eapply Forall2_impl; [exact Hall|].
  intros doc group (texts & m & Ht & Hm & Hm' & Hset).
  exists texts, m. repeat (split; [done|]).
  destruct (is_chunk_set_indices doc m texts group Hset) as (Hi & _ & Hk & Hnd).
  done.
Qed.

Lemma chunks_get_contiguous_indices_witness :
  exists groups w',
    IngestionService.chunk_documents (splitter := Examples.word_splitter)
      (uuids := Examples.counter_uuids) [Examples.doc1] [] Examples.world_with_doc1
    = (Return (concat groups), w') /\
    map Spec.chunk_indices groups = [[Some (MInt 0); Some (MInt 1); Some (MInt 2)]] /\
    heap w' !! 1%positive = Some {["source" := MStr "notes.txt"]}.
Proof.
  destruct (chunks_get_contiguous_indices (splitter := Examples.word_splitter)
              (uuids := Examples.counter_uuids) [Examples.doc1] Examples.world_with_doc1)
    as (groups & w' & Hrun & Hall & Hpres).
  - constructor; [|constructor]. split.
    + exists {["source" := MStr "notes.txt"]}. reflexivity.
    + eexists. reflexivity.
  - exists groups, w'. split; [exact Hrun|]. split.
    + apply Forall2_cons_inv_l in Hall as (group & rest & Hdoc & Hrest & ->).
      apply Forall2_nil_inv_l in Hrest as ->.
      destruct Hdoc as (texts & m & Ht & _ & _ & _ & Hidx & _ & _).
      injection Ht as <-. simpl. by rewrite Hidx.
    + apply Hpres. reflexivity.
Defined.

(** ** Ingestion: batches *)

Lemma concat_slices {A : Type} (xs : list A) (s m : nat) :
  concat (map (fun k => slice xs (k * s) s) (seq 0 m)) = take (m * s) xs.
Proof.
induction m as [|m IH].
- by rewrite take_0.
- rewrite seq_S, map_app, concat_app, IH. simpl. rewrite app_nil_r.
  unfold slice. rewrite take_take_drop. f_equal. lia.
Qed.

Lemma concat_batches (all_chunks : list DocumentChunk.t) (batch_size : Z) :
  0 < batch_size -> concat (Spec.batches all_chunks batch_size) = all_chunks.
Proof.
intros Hpos. unfold Spec.batches. rewrite concat_slices.
apply take_ge.
set (s := Z.to_nat batch_size). set (n := length all_chunks).
assert (0 < s)%nat as Hs by (subst s; lia).
pose proof (Nat.div_mod_eq (n + s - 1) s) as Hdiv.
pose proof (Nat.mod_upper_bound (n + s - 1) s) as Hmod.
nia.
Qed.

Lemma range_step_batches (all_chunks : list DocumentChunk.t) (batch_size : Z) :
  0 < batch_size ->
  exists starts,
    IngestionService.range_step (length all_chunks) batch_size = Return starts /\
    map (fun i => slice all_chunks i (Z.to_nat batch_size)) starts
    = Spec.batches all_chunks batch_size.
Proof.
intros Hpos. unfold IngestionService.range_step.
destruct (batch_size =? 0) eqn:E0; [lia|].
destruct (batch_size <? 0) eqn:E1; [lia|].
eexists. split; [reflexivity|].
unfold Spec.batches. by rewrite map_map.
Qed.


Section BatchFacts.
Context {S : Type}.
Context `{vstore : VectorStore.t S} `{embedder : EmbeddingModel.t}.
Variable batch_size : Z.

(** Batches whose embedding failed contribute nothing. *)
Lemma store_batches_skip (batches : list (list DocumentChunk.t)) :
  forall total (s : S),
    Spec.store_batches batches total s
    = Spec.store_batches (List.filter Spec.embedding_succeeds batches) total s.
Proof.
  induction batches as [|batch batches IH]; intros total s; simpl; [done|].
  unfold Spec.embedding_succeeds at 1.
  destruct (Spec.embedded batch) as [batch'|] eqn:E; [|apply IH].
  simpl. rewrite E.
  destruct (VectorStore.add batch' s) as [[ids|e] s']; [apply IH|done].
Qed.


(** The batch loop: the store and the result are those of
    [Spec.store_batches]; when no call of [add] raises, every batch is sent
    to the embedder. *)
Lemma batch_loop_spec all_chunks :
  (forall texts, exists es, EmbeddingModel.embed_documents texts = Return es) ->
  forall starts total (w : World S),
    let batches := map (fun i => slice all_chunks i (Z.to_nat batch_size)) starts in
    exists cs,
      IngestionService.batch_loop batch_size all_chunks starts total w
      = ((Spec.store_batches batches total (store w)).1,
         mkWorld (heap w) (uuid_count w)
           (Spec.store_batches batches total (store w)).2
           (calls w ++ cs)) /\
      (forall total', (Spec.store_batches batches total (store w)).1 = Return total' ->
                      Spec.embed_calls cs = map (map DocumentChunk.content) batches).
Proof.
  intros Hembed. induction starts as [|i starts IH]; intros total w batches.
  - exists []. simpl. rewrite app_nil_r. by destruct w.
  - subst batches. simpl.
    set (batch := slice all_chunks i (Z.to_nat batch_size)).
    set (texts := map DocumentChunk.content batch).
    destruct (Hembed texts) as [es Hes].
    unfold mbind, M_bind, call, call_store, record_call, outcome, on_store.
    unfold mbind, M_bind. simpl. fold batch texts.
    unfold Spec.embedded. fold texts. rewrite Hes.
    destruct (not_ es || negb (len es =? len batch)) eqn:Hbad.
    + destruct (IH total (mkWorld (heap w) (uuid_count w) (store w)
                            (calls w ++ [CallEmbedDocuments texts]))) as (cs & Hrun & Hcs).
      exists (CallEmbedDocuments texts :: cs). split.
      * rewrite Hrun. simpl. by rewrite <- app_assoc.
      * intros total' Ht. simpl. by rewrite (Hcs total' Ht).
    + set (batch' := zip_with DocumentChunk.set_embedding batch es).
      destruct (VectorStore.add batch' (store w)) as [[ids|e] s'] eqn:Hadd.
      * cbn [fst snd store heap uuid_count calls].
        destruct (IH (total + len ids)
                    (mkWorld (heap w) (uuid_count w) s'
                       ((calls w ++ [CallEmbedDocuments texts]) ++ [CallAdd batch'])))
          as (cs & Hrun & Hcs).
        cbn [fst snd store heap uuid_count calls] in Hrun, Hcs.
        exists (CallEmbedDocuments texts :: CallAdd batch' :: cs). split.
        -- replace (calls w ++ CallEmbedDocuments texts :: CallAdd batch' :: cs)
             with (((calls w ++ [CallEmbedDocuments texts]) ++ [CallAdd batch']) ++ cs)
             by (by rewrite <- !app_assoc).
           rewrite <- Hrun. rewrite Hadd.
           destruct ids as [|id0 ids]; simpl not_; cbv iota; [|done].
           by replace (total + len []) with total by (unfold len; simpl; lia).
        -- intros total' Ht. simpl. by rewrite (Hcs total' Ht).
      * cbn [fst snd store heap uuid_count calls].
        exists [CallEmbedDocuments texts; CallAdd batch']. split.
        -- rewrite Hadd. by rewrite <- app_assoc.
        -- intros total' Ht. done.
Qed.

End BatchFacts.


(** Step 3 and the [return] statement: the chunks are cut into
    consecutive batches; the store and the result are those obtained from
    the batches whose embedding succeeded alone; when no call of [add]
    raises, the texts of every batch are sent to the embedder. *)
Lemma embed_and_store_spec {S : Type} `{vstore : VectorStore.t S}
      `{embedder : EmbeddingModel.t}
      (batch_size : Z) (all_chunks : list DocumentChunk.t) (w : World S) :
  0 < batch_size ->
  (forall texts, exists es, EmbeddingModel.embed_documents texts = Return es) ->
  let batches := Spec.batches all_chunks batch_size in
  let good := List.filter Spec.embedding_succeeds batches in
  let r := Spec.store_batches good 0 (store w) in
  exists w' cs,
    IngestionService.embed_and_store batch_size all_chunks w
    = (match r.1 with Return total => Return (0 <? total) | Raise e => Raise e end, w') /\
    calls w' = calls w ++ cs /\
    store w' = r.2 /\ heap w' = heap w /\ uuid_count w' = uuid_count w /\
    (forall total, r.1 = Return total ->
                   Spec.embed_calls cs = map (map DocumentChunk.content) batches).
Proof.
  intros Hpos Hembed batches good r.
  destruct (range_step_batches all_chunks batch_size Hpos) as (starts & Hrange & Hbatches).
  destruct (batch_loop_spec batch_size all_chunks Hembed starts 0 w)
    as (cs & Hrun & Hcs).
  rewrite Hbatches in Hrun, Hcs. fold batches in Hrun, Hcs.
  rewrite (store_batches_skip batches) in Hrun, Hcs. fold good in Hrun, Hcs.
  fold r in Hrun, Hcs.
  exists (mkWorld (heap w) (uuid_count w) r.2 (calls w ++ cs)), cs.
  split; [|by repeat split].
  unfold IngestionService.embed_and_store, mbind, M_bind, outcome.
  rewrite Hrange, Hrun. by destruct r.1.
Qed.

(** ** Ingestion: nothing to ingest *)

Section NothingToIngest.
Context {S : Type}.
Context `{loader : DataLoader.t} `{splitter : TextSplitter.t}
        `{embedder : EmbeddingModel.t} `{vstore : VectorStore.t S}
        `{uuids : UuidSource}.
Import IngestionService.

(** The loader's documents, each with its own metadata object. *)
Lemma build_documents_spec loaded :
  forall w : World S,
    exists documents w',
      build_documents loaded w = (Return documents, w') /\
      Forall2 (fun f doc =>
                 Document.content doc = DataLoader.content f /\
                 heap w' !! Document.metadata doc = Some (DataLoader.metadata f))
              loaded documents /\
      Spec.preserves_objects w w' /\ store w' = store w /\ calls w' = calls w.
Proof.
induction loaded as [|f loaded IH]; intros w.
- exists [], w. simpl. split; [done|]. split; [constructor|]. split; [|done]. by intros l x.
- set (l := fresh (dom (heap w))).
  assert (Hl : heap w !! l = None) by (apply not_elem_of_dom, is_fresh).
  set (w1 := mkWorld (<[l := DataLoader.metadata f]> (heap w)) (uuid_count w)
               (store w) (calls w)).
  destruct (IH w1) as (documents & w' & Hrun & Hall & Hpres & Hstore & Hcalls).
  exists (Document.mk (DataLoader.id f) (DataLoader.content f) l :: documents), w'.
  split; [|split; [|split; [|split]]].
  + simpl. unfold mbind, M_bind, new_dict. fold l w1. by rewrite Hrun.
  + constructor; [|exact Hall]. split; [done|]. simpl.
    apply Hpres. simpl. by rewrite lookup_insert_eq.
  + intros l' x Hx. apply Hpres. simpl. rewrite lookup_insert_ne; [done|congruence].
  + by rewrite Hstore.
  + by rewrite Hcalls.
Qed.

Lemma data_loader_load_spec source loaded (w : World S) :
  DataLoader.load source = Return loaded ->
  exists documents w',
    data_loader_load source w = (Return documents, w') /\
    Forall2 (fun f doc =>
               Document.content doc = DataLoader.content f /\
               heap w' !! Document.metadata doc = Some (DataLoader.metadata f))
            loaded documents /\
    store w' = store w /\
    Spec.embed_calls (calls w') = Spec.embed_calls (calls w).
Proof.
intros Hload.
destruct (build_documents_spec loaded
            (mkWorld (heap w) (uuid_count w) (store w) (calls w ++ [CallLoad source])))
  as (documents & w' & Hrun & Hall & _ & Hstore & Hcalls).
exists documents, w'. split; [|split; [exact Hall|split; [exact Hstore|]]].
- unfold data_loader_load, call, record_call, outcome, mbind, M_bind.
  rewrite Hload. exact Hrun.
- rewrite Hcalls. simpl. unfold Spec.embed_calls. rewrite omap_app. simpl.
  by rewrite app_nil_r.
Qed.

(** A source whose documents (if any) all split into no text: the run
    returns [False] and leaves the store as it was. *)
Lemma run_ingestion_nothing batch_size source loaded (w : World S) :
  DataLoader.load source = Return loaded ->
  Forall (fun f => TextSplitter.split_text (DataLoader.content f) = Return []) loaded ->
  exists w', run_ingestion batch_size source w = (Return false, w') /\ store w' = store w.
Proof.
intros Hload Hsplit.
destruct (data_loader_load_spec source loaded w Hload)
  as (documents & w1 & Hrun1 & Hall & Hstore1 & _).
unfold run_ingestion, try_except. unfold mbind at 1, M_bind at 1. rewrite Hrun1.
destruct documents as [|doc documents]; [by exists w1|].
change (not_ (doc :: documents)) with false. cbv iota.
destruct (chunk_documents_spec (doc :: documents) [] w1)
  as (groups & w2 & Hrun2 & Hgroups & _ & Hstore2 & _).
{ clear -Hall Hsplit. revert Hsplit.
  induction Hall as [|f d fs ds [Hc Hm] Hall IHall]; intros Hsplit; [constructor|].
  apply Forall_cons in Hsplit as [Hf Hsplit].
  constructor; [|by apply IHall]. split; [by eexists|].
  exists []. by rewrite Hc. }
assert (Hnil : concat groups = []).
{ clear -Hall Hsplit Hgroups. revert loaded Hall Hsplit.
  induction Hgroups as [|d g ds gs (texts & m & Ht & _ & _ & Hlen & _) Hgroups IHg];
    intros loaded Hall Hsplit; [done|].
  apply Forall2_cons_inv_r in Hall as (f & fs & [Hc _] & Hall & ->).
  apply Forall_cons in Hsplit as [Hf Hsplit].
  rewrite Hc, Hf in Ht. injection Ht as <-.
  destruct g; [|done]. simpl. by eapply IHg. }
unfold mbind, M_bind. rewrite Hrun2, Hnil. simpl.
exists w2. split; [done|]. by rewrite Hstore2.
Qed.

End NothingToIngest.

(** ** Ingestion: the whole run *)





(** An embedder that raises, instead of returning, ends the run: with
    batches of one chunk, the first chunk is stored, the second batch
    raises, and the run returns [False].  So does a chunk that makes [add]
    raise: the first chunk of the source [binary] is stored, the second
    holds the NUL character, and the third is never sent to the
    embedder. *)
Example exception_in_a_batch_ends_the_run :
  (let '(result, w') :=
     IngestionService.run_ingestion
       (loader := Examples.test_loader) (splitter := Examples.word_splitter)
       (embedder := Examples.raising_embedder)
       (vstore := PostgresVectorStore_VectorStore (server := Examples.reliable_server) 2 2)
       (uuids := Examples.canonical_uuids)
       1 "notes.txt" (Examples.world Examples.empty_db) in
   result = Return false /\
   map ChunkModel.content (table (store w')) = ["Alpha"] /\
   Spec.embed_calls (calls w') = [["Alpha"]; ["Beta"]]) /\
  (let '(result, w') :=
     IngestionService.run_ingestion
       (loader := Examples.test_loader) (splitter := Examples.word_splitter)
       (embedder := Examples.constant_embedder)
       (vstore := PostgresVectorStore_VectorStore (server := Examples.reliable_server) 2 2)
       (uuids := Examples.canonical_uuids)
       1 "binary" (Examples.world Examples.empty_db) in
   result = Return false /\
   map ChunkModel.content (table (store w')) = ["Alpha"] /\
   Spec.embed_calls (calls w') = [["Alpha"]; [String zero "Zeta"]]).
Proof. vm_compute. done. Qed.


(** The counterexample to C6: a source with one document that has no
    text yields no chunk, and the script ends with status 1. *)
Lemma no_chunks_exits_with_failure :
  ~ Spec.nothing_to_ingest_exits_zero
      (loader := Examples.test_loader) (splitter := Examples.word_splitter)
      (embedder := SentenceTransformerEmbedder.EmbeddingModel_instance
                     (model := Examples.test_model))
      (vstore := PostgresVectorStore_VectorStore (server := Examples.reliable_server) 2 2)
      (uuids := Examples.canonical_uuids).
Proof.
intros Hclaim.
specialize (Hclaim "blank" 100 (Examples.world Examples.empty_db)
              [DataLoader.mk_fields "doc-blank" "" {["source" := MStr "blank"]}]).
assert (Hexit : RunIngestion.exit_code
          (RunIngestion.main
             (loader := Examples.test_loader) (splitter := Examples.word_splitter)
             (embedder := SentenceTransformerEmbedder.EmbeddingModel_instance
                            (model := Examples.test_model))
             (vstore := PostgresVectorStore_VectorStore
                          (server := Examples.reliable_server) 2 2)
             (uuids := Examples.canonical_uuids)
             (Return tt) "blank" 100 (Examples.world Examples.empty_db)).1 = 1)
  by (vm_compute; reflexivity).
rewrite Hclaim in Hexit; [discriminate| reflexivity |].
constructor; [reflexivity|constructor].
Qed.

(** C6 (as the code has it).  When the source yields no document, or
    documents that all split into no chunk, [run_ingestion] returns
    [False] without touching the store (the value it also returns on a
    failure); the script then loads the source again and ends with status
    0 if there is no document and with status 1 if there are documents. *)
Theorem nothing_to_ingest_exit_status {S : Type}
        `{loader : DataLoader.t} `{splitter : TextSplitter.t}
        `{embedder : EmbeddingModel.t} `{vstore : VectorStore.t S}
        `{uuids : UuidSource}
        (source : string) (batch_size : Z) (loaded : list DataLoader.fields)
        (w : World S) :
  DataLoader.load source = Return loaded ->
  Forall (fun f => TextSplitter.split_text (DataLoader.content f) = Return []) loaded ->
  (exists w', IngestionService.run_ingestion batch_size source w = (Return false, w') /\
              store w' = store w) /\
  RunIngestion.exit_code (RunIngestion.main (Return tt) source batch_size w).1
  = (if not_ loaded then 0 else 1) /\
  store (RunIngestion.main (Return tt) source batch_size w).2 = store w.
Proof.
intros Hload Hsplit.
destruct (run_ingestion_nothing batch_size source loaded w Hload Hsplit)
  as (w1 & Hrun & Hstore1).
split; [by exists w1|].
destruct (data_loader_load_spec source loaded w1 Hload)
  as (docs_check & w2 & Hrun2 & Hall & Hstore2 & _).
assert (Hsame : not_ docs_check = not_ loaded) by (by destruct Hall).
assert (Hmain : RunIngestion.main (Return tt) source batch_size w
                = (Raise (mkExc (TyperExit (if not_ loaded then 0 else 1)) ""), w2)).
{ unfold RunIngestion.main, try_except, outcome, mbind, M_bind.
  rewrite Hrun, Hrun2, Hsame. by destruct (not_ loaded). }
rewrite Hmain. simpl. split; [done|]. congruence.
Qed.

Lemma nothing_to_ingest_exit_status_witness :
  RunIngestion.exit_code
    (RunIngestion.main
       (loader := Examples.test_loader) (splitter := Examples.word_splitter)
       (embedder := SentenceTransformerEmbedder.EmbeddingModel_instance
                      (model := Examples.test_model))
       (vstore := PostgresVectorStore_VectorStore (server := Examples.reliable_server) 2 2)
       (uuids := Examples.canonical_uuids)
       (Return tt) "empty" 100 (Examples.world Examples.empty_db)).1 = 0.
Proof.
apply (nothing_to_ingest_exit_status
         (loader := Examples.test_loader) (splitter := Examples.word_splitter)
         (embedder := SentenceTransformerEmbedder.EmbeddingModel_instance
                        (model := Examples.test_model))
         (vstore := PostgresVectorStore_VectorStore (server := Examples.reliable_server) 2 2)
         (uuids := Examples.canonical_uuids)
         "empty" 100 [] (Examples.world Examples.empty_db)).
- reflexivity.
- constructor.
Defined.

(** ** The query service *)

Lemma format_default_template (context query : string) :
  QueryService.format QueryService.DEFAULT_PROMPT_TEMPLATE
    [("context", context); ("query", query)]
  = Return (Spec.default_prompt context query).
Proof.
reflexivity.
Qed.

Lemma format_chunk_not_empty (c : DocumentChunk.t) : QueryService.format_chunk c <> "".
Proof. done. Qed.




(** ** [strip] *)

Lemma append_cons (x : ascii) (a b : string) : String x a +:+ b = String x (a +:+ b).
Proof. reflexivity. Qed.

Lemma append_assoc (a b c : string) : (a +:+ b) +:+ c = a +:+ (b +:+ c).
Proof.
  induction a as [|x a IH]; [reflexivity|].
  rewrite !append_cons. by rewrite IH.
Qed.

Lemma lstrip_upto (n : nat) (s : string) :
  (String.length s <= n)%nat -> Props.starts_with_space (lstrip s) = false.
Proof.
  revert s. induction n as [|n IH]; intros s Hn.
  - destruct s; [done|simpl in Hn; lia].
  - destruct s as [|a s1]; [done|]. cbn [lstrip]. simpl in Hn.
    destruct (space1 a) eqn:H1; [apply IH; lia|].
    destruct s1 as [|b s2]; [simpl; by rewrite H1|]. simpl in Hn.
    destruct (space2 a b) eqn:H2; [apply IH; lia|].
    destruct s2 as [|c s3]; [simpl; by rewrite H1, H2|]. simpl in Hn.
    destruct (space3 a b c) eqn:H3; [apply IH; lia|].
    simpl. by rewrite H1, H2, H3.
Qed.

(** What [lstrip] leaves does not start with whitespace. *)
Lemma lstrip_no_space (s : string) : Props.starts_with_space (lstrip s) = false.
Proof. by apply (lstrip_upto (String.length s)). Qed.

Lemma rstrip_cons (a : ascii) (s : string) :
  rstrip (String a s)
  = if isspace (String a (rstrip s)) then EmptyString else String a (rstrip s).
Proof. reflexivity. Qed.

(** What [rstrip] leaves does not end with whitespace. *)
Lemma rstrip_no_space (s : string) : Props.ends_with_space (rstrip s) = false.
Proof.
  induction s as [|a s IH]; [done|]. rewrite rstrip_cons.
  destruct (isspace (String a (rstrip s))) eqn:Ha; [done|].
  cbn [Props.ends_with_space]. by rewrite Ha, IH.
Qed.

(** [rstrip] keeps a prefix. *)
Lemma rstrip_prefix (s : string) : exists u, s = rstrip s +:+ u.
Proof.
  induction s as [|a s [u IH]]; [by exists EmptyString|]. rewrite rstrip_cons.
  destruct (isspace (String a (rstrip s))).
  - by exists (String a s).
  - exists u. rewrite append_cons. by rewrite <- IH.
Qed.

Lemma starts_with_space_prefix (p u : string) :
  Props.starts_with_space p = true -> Props.starts_with_space (p +:+ u) = true.
Proof.
  destruct p as [|a [|b [|c p]]]; simpl; [done| | |].
  - rewrite orb_false_r. by intros ->.
  - rewrite orb_false_r. intros [->| ->]%orb_true_iff; [done|].
    by rewrite orb_true_r.
  - done.
Qed.

Lemma strip_trimmed (s : string) : Props.trimmed (strip s).
Proof.
  split; [|apply rstrip_no_space].
  unfold strip. destruct (rstrip_prefix (lstrip s)) as [u Hu].
  destruct (Props.starts_with_space (rstrip (lstrip s))) eqn:E; [|done].
  apply (starts_with_space_prefix _ u) in E. rewrite <- Hu in E.
  by rewrite lstrip_no_space in E.
Qed.

Lemma rstrip_fixed (s : string) : Props.ends_with_space s = false -> rstrip s = s.
Proof.
  induction s as [|a s IH]; [done|]. cbn [Props.ends_with_space].
  intros [Ha Hs]%orb_false_iff. rewrite rstrip_cons, (IH Hs). by rewrite Ha.
Qed.

Lemma lstrip_fixed (s : string) : Props.starts_with_space s = false -> lstrip s = s.
Proof.
  destruct s as [|a [|b [|c s]]]; [done| | |]; cbn [Props.starts_with_space lstrip].
  - rewrite orb_false_r. by intros ->.
  - rewrite orb_false_r. by intros [-> ->]%orb_false_iff.
  - by intros [-> [-> ->]%orb_false_iff]%orb_false_iff.
Qed.

Lemma strip_fixed (s : string) : Props.trimmed s -> strip s = s.
Proof.
  intros [Hfirst Hlast]. unfold strip. rewrite (lstrip_fixed s Hfirst).
  by apply rstrip_fixed.
Qed.

(** No whitespace character ends with the byte of the closing bracket. *)
Lemma ends_with_bracket (s : string) : Props.ends_with_space (s +:+ "]") = false.
Proof.
  induction s as [|a s IH]; [done|]. rewrite append_cons.
  cbn [Props.ends_with_space]. rewrite IH, orb_false_r.
  destruct s as [|b [|c s]]; simpl.
  - unfold space2. simpl. by rewrite andb_false_r.
  - unfold space3. simpl. by rewrite !andb_false_r.
  - by destruct s.
Qed.

(** ** The Ollama provider *)

(** The error string survives [strip]: a successful answer can be equal
    to it. *)
Lemma strip_error_message (e : Exc) :
  strip (OllamaProvider.error_message e) = OllamaProvider.error_message e.
Proof.
  apply strip_fixed. unfold OllamaProvider.error_message. split; [done|].
  rewrite <- append_assoc. apply ends_with_bracket.
Qed.

(** A failure and an answer with the same result. *)
Example generation_failure_looks_like_an_answer :
  OllamaProvider.generate (client := Examples.unreachable_client) Examples.provider
    "Hello" None None None
  = Return "[Error generating response: connection refused]" /\
  OllamaProvider.generate (client := Examples.answering_client) Examples.provider
    "Hello" None None None
  = Return "An answer.".
Proof. vm_compute. done. Qed.


(** ** The query service never raises *)



(* ===================================================================== *)
(** * Further properties                                                  *)
(* ===================================================================== *)

(** ** The table behind [add] *)

Section TableFacts.
Context `{server : PgServer}.
Variable sdim : Z.
Import PostgresVectorStore.

Lemma id_taken_spec (view : Table) (i : string) :
  id_taken view i = true <-> In i (Props.ids view).
Proof.
  unfold id_taken, Props.ids. rewrite existsb_exists. split.
  - intros (r & Hr & He). apply String.eqb_eq in He. subst i. by apply in_map.
  - intros Hi. apply in_map_iff in Hi as (r & <- & Hr). exists r. split; [done|].
    apply String.eqb_refl.
Qed.

(** What the server has checked of the rows of an INSERT that went
    through. *)
Lemma insert_rows_checks (rows : list ChunkModel.t) :
  forall view view',
    insert_rows view rows = (Return tt, view') ->
    exists stored,
      Forall2 (fun row r => to_stored row = Some r) rows stored /\
      view' = view ++ stored /\
      NoDup (Props.ids stored) /\
      (forall r, In r stored -> ~ In (ChunkModel.id r) (Props.ids view)).
Proof.
  induction rows as [|row rows IH]; intros view view' Hf; simpl in Hf.
  - injection Hf as <-. exists []. rewrite app_nil_r.
    repeat split; [constructor|constructor|by intros r []].
  - unfold insert_row in Hf.
    destruct (db_fault (OpInsert view row)); [done|].
    destruct (to_stored row) as [r|] eqn:Hr; [|done].
    destruct (id_taken view (ChunkModel.id r)) eqn:Htaken; [done|].
    apply IH in Hf as (stored & Hall & -> & Hnd & Hfresh).
    assert (Hnew : ~ In (ChunkModel.id r) (Props.ids view)).
    { intros Hin. apply id_taken_spec in Hin. congruence. }
    exists (r :: stored). split; [by constructor|]. split; [by rewrite <- app_assoc|].
    split.
    + simpl. apply NoDup_cons. split; [|done].
      intros Hin%list_elem_of_In. apply in_map_iff in Hin as (r' & He & Hr').
      apply (Hfresh r' Hr'). unfold Props.ids. rewrite map_app, in_app_iff.
      right. simpl. by left.
    + intros r' [<-|Hr']; [done|]. intros Hin. apply (Hfresh r' Hr').
      unfold Props.ids in *. rewrite map_app, in_app_iff. by left.
Qed.

(** The INSERT goes through when the server has no fault and takes the
    values of every row, and the canonical ids are new and distinct. *)
Lemma insert_rows_succeeds (rows stored : list ChunkModel.t) :
  (forall op, db_fault op = false) ->
  Forall2 (fun row r => to_stored row = Some r) rows stored ->
  forall view,
    NoDup (Props.ids stored) ->
    (forall r, In r stored -> ~ In (ChunkModel.id r) (Props.ids view)) ->
    insert_rows view rows = (Return tt, view ++ stored).
Proof.
  intros Hno Hall. induction Hall as [|row r rows stored Hr Hall IH];
    intros view Hnd Hfresh; simpl.
  - by rewrite app_nil_r.
  - unfold insert_row. rewrite Hno, Hr.
    destruct (id_taken view (ChunkModel.id r)) eqn:Htaken.
    { apply id_taken_spec in Htaken. exfalso. apply (Hfresh r); [by left|done]. }
    simpl in Hnd. apply NoDup_cons in Hnd as [Hr' Hnd].
    rewrite IH; [by rewrite <- app_assoc|done|].
    intros r' Hr'' Hin. unfold Props.ids in Hin. rewrite map_app, in_app_iff in Hin.
    destruct Hin as [Hin|[He|[]]].
    + by apply (Hfresh r'); [right|].
    + apply Hr'. apply list_elem_of_In. unfold Props.ids. rewrite He. by apply in_map.
Qed.

(** A flush that returns has processed the parameters of every row. *)
Lemma flush_return_fits view rows view' :
  flush sdim view rows = (Return tt, view') ->
  forallb (fun row => fits_column sdim (ChunkModel.embedding row)) rows = true.
Proof.
  unfold flush.
  destruct (db_fault (OpBegin view)); [done|].
  by destruct (forallb _ rows).
Qed.

(** The driver's [ValueError] comes after the parameters of every row were
    processed. *)
Lemma flush_raise_nul view rows view' :
  flush sdim view rows = (Raise nul_error, view') ->
  forallb (fun row => fits_column sdim (ChunkModel.embedding row)) rows = true.
Proof.
  unfold flush.
  destruct (db_fault (OpBegin view)); [done|].
  by destruct (forallb _ rows).
Qed.

(** The vectors of stored rows have the width of the column. *)
Lemma stored_widths (rows stored : list ChunkModel.t) :
  Forall2 (fun row r => to_stored row = Some r) rows stored ->
  forallb (fun row => fits_column sdim (ChunkModel.embedding row)) rows = true ->
  Forall (fun r => forall e, ChunkModel.embedding r = Some e -> len e = sdim) stored.
Proof.
  induction 1 as [|row r rows stored Hr Hall IH]; [constructor|].
  simpl. intros [Hfit Hfits]%andb_prop. constructor; [|by apply IH].
  intros e He. apply to_stored_fields in Hr as (_ & _ & _ & _ & Hv & _).
  apply stored_vector_length in Hv. rewrite He in Hv.
  destruct (ChunkModel.embedding row) as [v|]; [|done].
  simpl in Hfit. apply Z.eqb_eq in Hfit. unfold len in *. lia.
Qed.

(** What a commit that returns has checked. *)
Lemma session_commit_checks rows db :
  (session_commit sdim rows (SessionLocal db)).1 = Return tt ->
  exists stored,
    Forall2 (fun row r => to_stored row = Some r) rows stored /\
    NoDup (Props.ids stored) /\
    (forall r, In r stored -> ~ In (ChunkModel.id r) (Props.ids (table db))) /\
    forallb (fun row => fits_column sdim (ChunkModel.embedding row)) rows = true.
Proof.
  unfold session_commit. simpl.
  destruct (flush sdim (table db) rows) as [[[]|e] view] eqn:F; [|done].
  intros _. pose proof (flush_return_fits _ _ _ F) as Hfits.
  apply flush_return, insert_rows_checks in F as (stored & Hall & _ & Hnd & Hfresh).
  by exists stored.
Qed.

(** The commit goes through when the server has no fault and takes the
    values of every row, the vectors have the width of the column, no
    string holds a NUL character, and the canonical ids are new and
    distinct. *)
Lemma session_commit_succeeds rows stored db :
  (forall op, db_fault op = false) ->
  Forall2 (fun row r => to_stored row = Some r) rows stored ->
  forallb (fun row => fits_column sdim (ChunkModel.embedding row)) rows = true ->
  existsb row_has_nul rows = false ->
  NoDup (Props.ids stored) ->
  (forall r, In r stored -> ~ In (ChunkModel.id r) (Props.ids (table db))) ->
  (session_commit sdim rows (SessionLocal db)).1 = Return tt.
Proof.
  intros Hno Hall Hfits Hnul Hnd Hfresh.
  unfold session_commit, flush. simpl. rewrite Hno, Hfits, Hnul. simpl.
  rewrite (insert_rows_succeeds rows stored Hno Hall (table db) Hnd Hfresh).
  by rewrite Hno.
Qed.

(** The commit does not raise the driver's [ValueError] when a vector has
    another width than the column. *)
Lemma session_commit_raise_nul rows db :
  (session_commit sdim rows (SessionLocal db)).1 = Raise nul_error ->
  forallb (fun row => fits_column sdim (ChunkModel.embedding row)) rows = true.
Proof.
  unfold session_commit. simpl.
  destruct (flush sdim (table db) rows) as [[[]|e] view] eqn:F.
  - by destruct (db_fault _).
  - simpl. intros [= ->]. by apply flush_raise_nul in F.
Qed.

End TableFacts.

Section AddFacts.
Context `{server : PgServer}.
Variables sdim dim : Z.
Import PostgresVectorStore.

Lemma rows_of_stored (chunks : list DocumentChunk.t) (rows : Table) :
  Spec.rows_of chunks rows <->
  Forall2 (fun row r => to_stored row = Some r) (map Spec.row_of chunks) rows.
Proof.
  unfold Spec.rows_of. split; intros H.
  - apply Forall2_fmap_l. exact H.
  - apply Forall2_fmap_l in H. exact H.
Qed.

(** The rows of validated chunks pass the bind processor of a column of
    the store's dimension. *)
Lemma validated_rows_fit chunks :
  forallb (fun row => fits_column dim (ChunkModel.embedding row))
    (map Spec.row_of (Spec.validated dim chunks)) = true.
Proof.
  apply forallb_forall. intros r Hr.
  apply in_map_iff in Hr as (c & <- & Hc). apply filter_In in Hc as [_ Hv].
  unfold Spec.passes_validation in Hv. simpl.
  by destruct (DocumentChunk.embedding c) as [e|].
Qed.

(** When all chunks pass the validation, all are validated. *)
Lemma validated_all chunks :
  Forall (fun c => Spec.passes_validation dim c = true) chunks ->
  Spec.validated dim chunks = chunks.
Proof.
  intros Hall. unfold Spec.validated. apply forallb_filter_id, forallb_forall.
  intros c Hc%list_elem_of_In. by rewrite Forall_forall in Hall; apply Hall.
Qed.

(** [add] of chunks that the driver and the server take, with new and
    distinct ids, on a server without faults. *)
Lemma add_succeeds chunks rows db :
  (forall op, db_fault op = false) ->
  Spec.rows_of (Spec.validated dim chunks) rows ->
  existsb row_has_nul (map Spec.row_of (Spec.validated dim chunks)) = false ->
  NoDup (Props.ids rows) ->
  (forall r, In r rows -> ~ In (ChunkModel.id r) (Props.ids (table db))) ->
  (add dim dim chunks db).1 = Return (map DocumentChunk.id (Spec.validated dim chunks)) /\
  table (add dim dim chunks db).2 = table db ++ rows.
Proof.
  intros Hno Hrows Hnul Hnd Hfresh.
  assert (Hcommit :
    (session_commit dim (map Spec.row_of (Spec.validated dim chunks)) (SessionLocal db)).1
    = Return tt).
  { apply (session_commit_succeeds dim _ rows); try done.
    - by apply rows_of_stored.
    - apply validated_rows_fit. }
  destruct (add_cases dim dim chunks db)
    as [[V E]|[(_ & _ & E1 & (rows' & Hrows' & E2) & _)|(_ & (e & C & _) & _)]].
  - rewrite E, V. rewrite V in Hrows. inversion Hrows. simpl. by rewrite app_nil_r.
  - split; [done|]. by rewrite E2, (rows_of_unique _ _ _ Hrows Hrows').
  - congruence.
Qed.

End AddFacts.

(** X1.  On a server without faults, with the store's dimension equal to
    the width of the column, [add] stores every chunk that passes the
    validation and returns their ids, provided the driver and the server
    take the values of these chunks (no string holds a NUL character, the
    ids denote uuids, the components are in the range of single precision,
    the metadata is accepted) and the uuids are pairwise distinct and not
    in the table yet.  The rows hold the canonical text of the ids and the
    vectors in single precision.  A batch of valid chunks gets as many ids
    and rows as it has chunks. *)
Theorem add_stores_fresh_valid_chunks `{server : PgServer} (dim : Z)
        (chunks : list DocumentChunk.t) (rows : Table) (db : Database) :
  (forall op, db_fault op = false) ->
  Spec.rows_of (Spec.validated dim chunks) rows ->
  Forall (fun c => PostgresVectorStore.row_has_nul (Spec.row_of c) = false)
         (Spec.validated dim chunks) ->
  NoDup (Props.ids rows) ->
  (forall r, In r rows -> ~ In (ChunkModel.id r) (Props.ids (table db))) ->
  (PostgresVectorStore.add dim dim chunks db).1
  = Return (map DocumentChunk.id (Spec.validated dim chunks)) /\
  table (PostgresVectorStore.add dim dim chunks db).2 = table db ++ rows /\
  Forall2 (fun c r =>
             uuid_text (DocumentChunk.id c) = Some (ChunkModel.id r) /\
             ChunkModel.document_id r = DocumentChunk.document_id c /\
             ChunkModel.content r = DocumentChunk.content c /\
             ChunkModel.chunk_metadata r = DocumentChunk.metadata c /\
             PostgresVectorStore.stored_vector (DocumentChunk.embedding c)
             = Some (ChunkModel.embedding r))
          (Spec.validated dim chunks) rows /\
  (Forall (fun c => Spec.passes_validation dim c = true) chunks ->
   (PostgresVectorStore.add dim dim chunks db).1 = Return (map DocumentChunk.id chunks) /\
   length rows = length chunks).
Proof.
  intros Hno Hrows Hnul Hnd Hfresh.
  assert (Hnul' : existsb PostgresVectorStore.row_has_nul
                    (map Spec.row_of (Spec.validated dim chunks)) = false).
  { apply not_true_iff_false. intros (r & Hr & Hn)%existsb_exists.
    apply in_map_iff in Hr as (c & <- & Hc).
    rewrite Forall_forall in Hnul. apply list_elem_of_In, Hnul in Hc. congruence. }
  destruct (add_succeeds dim chunks rows db Hno Hrows Hnul' Hnd Hfresh) as [E1 E2].
  split; [done|]. split; [done|]. split.
  - eapply Forall2_impl; [exact Hrows|]. intros c r Hr.
    by apply to_stored_fields in Hr as (? & ? & ? & ? & ? & _).
  - intros Hall. rewrite (validated_all dim chunks Hall) in E1, Hrows.
    split; [done|]. symmetry. by eapply Forall2_length.
Qed.

Lemma add_stores_fresh_valid_chunks_witness :
  (PostgresVectorStore.add (server := Examples.reliable_server) 2 2
     [Examples.c1; Examples.c3; Examples.c5] Examples.db_ties).1
  = Return [Examples.uid "01"; Examples.uid "05"].
Proof.
  apply (add_stores_fresh_valid_chunks (server := Examples.reliable_server) 2
           [Examples.c1; Examples.c3; Examples.c5]
           [Spec.row_of Examples.c1; Spec.row_of Examples.c5] Examples.db_ties).
  - reflexivity.
  - repeat constructor.
  - repeat constructor.
  - apply (bool_decide_unpack _). by vm_compute.
  - intros r Hr Hin. vm_compute in Hr, Hin.
    destruct Hr as [<-|[<-|[]]]; destruct Hin as [Hin|[Hin|[]]]; discriminate Hin.
Defined.

(** X2.  [add] keeps the table within its schema: if the ids are pairwise
    distinct and every stored vector has the width of the column before
    the call, so it is after the call, whatever the chunks, the store's
    dimension and the server's faults. *)
Theorem add_keeps_table_within_schema `{server : PgServer} (sdim dim : Z)
        (chunks : list DocumentChunk.t) (db : Database) :
  Props.table_ok sdim (table db) ->
  Props.table_ok sdim (table (PostgresVectorStore.add sdim dim chunks db).2).
Proof.
  intros [Hnd Hwidth].
  destruct (add_cases sdim dim chunks db)
    as [[_ E]|[(_ & C & _ & (rows & Hrows & E2) & _)|(_ & _ & E2 & _)]].
  - by rewrite E.
  - rewrite E2. apply session_commit_checks in C as (stored & Hall & Hnd' & Hfresh & Hfits).
    apply rows_of_stored in Hall.
    rewrite (rows_of_unique _ _ _ Hall Hrows) in Hnd', Hfresh.
    split.
    + unfold Props.ids. rewrite map_app. apply NoDup_app. split; [done|]. split; [|done].
      intros i Hi%list_elem_of_In Hi'%list_elem_of_In.
      apply in_map_iff in Hi' as (r & <- & Hr). by apply (Hfresh r).
    + apply Forall_app. split; [done|].
      apply (stored_widths sdim (map Spec.row_of (Spec.validated dim chunks))); [|done].
      by apply rows_of_stored.
  - by rewrite E2.
Qed.

Lemma add_keeps_table_within_schema_witness :
  Props.table_ok 2
    (table (PostgresVectorStore.add (server := Examples.reliable_server) 2 2
              [Examples.c1; Examples.c5] Examples.db_ties).2).
Proof.
  apply (add_keeps_table_within_schema (server := Examples.reliable_server) 2 2
           [Examples.c1; Examples.c5] Examples.db_ties).
  split.
  - apply (bool_decide_unpack _). by vm_compute.
  - repeat constructor; intros e [= <-]; reflexivity.
Defined.

(** X3.  When the store validates against a dimension other than the
    width of the column ([self._embedding_dim] differs from
    [settings.embedding_dimension]), [add] stores nothing and returns no
    id, whatever the chunks: what passes the validation does not pass the
    bind processor of the column, and SQLAlchemy's error for it comes
    before the driver looks at the strings. *)
Theorem add_stores_nothing_when_dimensions_differ `{server : PgServer} (sdim dim : Z)
        (chunks : list DocumentChunk.t) (db : Database) :
  dim <> sdim ->
  (PostgresVectorStore.add sdim dim chunks db).1 = Return [] /\
  table (PostgresVectorStore.add sdim dim chunks db).2 = table db.
Proof.
  intros Hne.
  assert (Hmisfit : Spec.validated dim chunks <> [] ->
            forallb (fun row => PostgresVectorStore.fits_column sdim (ChunkModel.embedding row))
              (map Spec.row_of (Spec.validated dim chunks)) = true -> False).
  { intros V Hfits. pose proof (validated_pass dim chunks) as Hdim.
    destruct (Spec.validated dim chunks) as [|c valid]; [done|].
    simpl in Hfits. apply andb_prop in Hfits as [Hfit _].
    apply Forall_cons in Hdim as [Hd _]. unfold Spec.passes_validation in Hd.
    destruct (DocumentChunk.embedding c) as [e|]; [|done]. simpl in Hfit.
    apply Z.eqb_eq in Hfit, Hd. congruence. }
  destruct (add_cases sdim dim chunks db)
    as [[_ E]|[(V & C & _)|(V & (e & C & E1 & Hc) & E2 & _)]]; [by rewrite E| |].
  - exfalso. apply session_commit_checks in C as (_ & _ & _ & _ & Hfits). by apply Hmisfit.
  - split; [|done]. rewrite E1. unfold Spec.result_on_error.
    destruct Hc as [-> |[-> _]]; [done|].
    exfalso. apply session_commit_raise_nul in C. by apply Hmisfit.
Qed.

Lemma add_stores_nothing_when_dimensions_differ_witness :
  (PostgresVectorStore.add (server := Examples.reliable_server) 3 2
     [Examples.c1; Examples.c6] Examples.empty_db).1 = Return [] /\
  table (PostgresVectorStore.add (server := Examples.reliable_server) 3 2
           [Examples.c1; Examples.c6] Examples.empty_db).2 = [].
Proof.
  apply (add_stores_nothing_when_dimensions_differ (server := Examples.reliable_server) 3 2
           [Examples.c1; Examples.c6] Examples.empty_db).
  discriminate.
Defined.

(** X4.  When the uuid of a chunk that passes the validation is already in
    the table, or two such chunks carry the same uuid, [add] stores none of
    the batch and returns no id: the result is the empty list, unless a
    string of the batch holds a NUL character, which makes [add] raise. *)
Theorem add_stores_nothing_when_an_id_is_taken `{server : PgServer} (sdim dim : Z)
        (chunks : list DocumentChunk.t) (rows : Table) (db : Database) :
  Spec.rows_of (Spec.validated dim chunks) rows ->
  (exists r, In r rows /\ In (ChunkModel.id r) (Props.ids (table db))) \/
  ~ NoDup (Props.ids rows) ->
  table (PostgresVectorStore.add sdim dim chunks db).2 = table db /\
  (forall ids, (PostgresVectorStore.add sdim dim chunks db).1 = Return ids -> ids = []) /\
  (existsb PostgresVectorStore.row_has_nul (map Spec.row_of (Spec.validated dim chunks))
   = false ->
   (PostgresVectorStore.add sdim dim chunks db).1 = Return []) /\
  (forall e, (PostgresVectorStore.add sdim dim chunks db).1 = Raise e ->
             e = PostgresVectorStore.nul_error).
Proof.
  intros Hrows Htaken.
  assert (Hraise : forall e, (PostgresVectorStore.add sdim dim chunks db).1 = Raise e ->
                             e = PostgresVectorStore.nul_error).
  { intros e He. by apply add_raise in He as [-> _]. }
  destruct (add_cases sdim dim chunks db)
    as [[_ E]|[(V & C & _)|(_ & (e & _ & E1 & Hc) & E2 & _)]].
  - rewrite E. simpl. repeat split; try done. by intros ids [= <-].
  - exfalso. apply session_commit_checks in C as (stored & Hall & Hnd & Hfresh & _).
    apply rows_of_stored in Hall.
    rewrite (rows_of_unique _ _ _ Hall Hrows) in Hnd, Hfresh.
    destruct Htaken as [(r & Hr & Hin)|Hdup]; [by apply (Hfresh r)|by apply Hdup].
  - split; [done|]. split; [|split; [|done]].
    + intros ids Hids. rewrite E1 in Hids. unfold Spec.result_on_error in Hids.
      destruct Hc as [Hc|[-> _]]; [rewrite Hc in Hids; by injection Hids as <-|done].
    + intros Hnul. rewrite E1. unfold Spec.result_on_error.
      destruct Hc as [-> |[_ Hc]]; [done|congruence].
Qed.

Lemma add_stores_nothing_when_an_id_is_taken_witness :
  table (PostgresVectorStore.add (server := Examples.reliable_server) 2 2
           [Examples.c5; Examples.c7_upper] (mkDb [Spec.row_of Examples.c7] None)).2
  = [Spec.row_of Examples.c7] /\
  (PostgresVectorStore.add (server := Examples.reliable_server) 2 2
     [Examples.c5; Examples.c7_upper] (mkDb [Spec.row_of Examples.c7] None)).1 = Return [].
Proof.
  pose proof (add_stores_nothing_when_an_id_is_taken (server := Examples.reliable_server) 2 2
                [Examples.c5; Examples.c7_upper]
                [Spec.row_of Examples.c5; Spec.row_of Examples.c7_held]
                (mkDb [Spec.row_of Examples.c7] None)) as H.
  destruct H as (Ht & _ & Hr & _).
  - repeat constructor.
  - left. exists (Spec.row_of Examples.c7_held). split; [right; by left|by left].
  - split; [exact Ht|]. apply Hr. reflexivity.
Defined.

(** ** Retrieval after [add], and the metadata filter *)

(** The WHERE clause built from [filters], read on the chunk. *)
Lemma matches_satisfies (items : list (string * MetaValue)) (r : ChunkModel.t) :
  PostgresVectorStore.matches (PostgresVectorStore.where_clauses (Some items)) r = true
  <-> Props.satisfies items (PostgresVectorStore.to_document_chunk r).
Proof.
unfold Props.satisfies, PostgresVectorStore.matches. simpl.
induction items as [|[k v] items IH]; simpl.
- split; [constructor|done].
- assert (Hhead :
    match ChunkModel.chunk_metadata r !! k ≫= PostgresVectorStore.astext with
    | Some t => String.eqb t (py_str v)
    | None => false
    end = true
    <-> exists mv, ChunkModel.chunk_metadata r !! k = Some mv /\
                   PostgresVectorStore.astext mv = Some (py_str v)).
  { destruct (ChunkModel.chunk_metadata r !! k) as [mv|]; simpl.
    - destruct (PostgresVectorStore.astext mv) as [t|] eqn:Hmv; simpl.
      + rewrite String.eqb_eq. split.
        * intros ->. by exists mv.
        * intros (mv' & [= <-] & Ht). congruence.
      + split; [done|]. intros (mv' & [= <-] & Ht). congruence.
    - split; [done|]. by intros (mv' & ? & _). }
  split.
  + intros [H1 H2]%andb_prop. constructor; [by apply Hhead|by apply IH].
  + intros [H1 H2]%Forall_cons. apply andb_true_intro. split; [by apply Hhead|by apply IH].
Qed.

(** The chunks [query] returns are rows of the table that satisfy the
    WHERE clause, none more often than the table holds it. *)
Lemma query_result_rows `{server : PgServer} (sdim dim : Z) (q : list float) (top_k : Z)
      (filters : option (list (string * MetaValue))) (db : Database)
      (found : list DocumentChunk.t) :
  PostgresVectorStore.query sdim dim q top_k filters db = Return found ->
  exists rows,
    found = map PostgresVectorStore.to_document_chunk rows /\
    rows ⊆+ List.filter (PostgresVectorStore.matches (PostgresVectorStore.where_clauses filters))
              (table db).
Proof.
  intros Hr.
  destruct (query_cases sdim dim q top_k filters db) as [E|[[E _]|(Hq & q' & He)]].
  - rewrite E in Hr. injection Hr as <-. exists []. split; [done|apply submseteq_nil_l].
  - congruence.
  - rewrite (query_rows sdim dim q top_k filters db q' Hq He) in Hr. injection Hr as <-.
    eexists. split; [done|].
    etrans; [apply sublist_submseteq, sublist_take|].
    rewrite order_by_perm. apply scan_order_sub.
Qed.

Lemma query_result_in_table `{server : PgServer} (sdim dim : Z) (q : list float) (top_k : Z)
      (filters : option (list (string * MetaValue))) (db : Database)
      (found : list DocumentChunk.t) (c : DocumentChunk.t) :
  PostgresVectorStore.query sdim dim q top_k filters db = Return found ->
  In c found ->
  exists r, c = PostgresVectorStore.to_document_chunk r /\ In r (table db) /\
            PostgresVectorStore.matches (PostgresVectorStore.where_clauses filters) r = true.
Proof.
  intros Hr Hc. apply query_result_rows in Hr as (rows & -> & Hsub).
  apply in_map_iff in Hc as (r & <- & Hin). exists r. split; [done|].
  apply filter_In, list_elem_of_In.
  eapply elem_of_submseteq; [|exact Hsub]. by apply list_elem_of_In.
Qed.

(** With [top_k] at least the number of rows, a query that the server
    executes with a scan that yields every candidate returns them all. *)
Lemma query_returns_all_candidates `{server : PgServer} (sdim dim : Z) (q : list float)
      (top_k : Z) (filters : option (list (string * MetaValue))) (db : Database)
      (q' : list float) :
  let stmt := mkSelect (PostgresVectorStore.where_clauses filters) q top_k in
  let matching :=
    List.filter (PostgresVectorStore.matches (PostgresVectorStore.where_clauses filters))
      (table db) in
  Spec.valid_query dim q ->
  Props.executes sdim stmt db q' ->
  Props.exact_scan stmt matching ->
  (length (table db) <= Z.to_nat top_k)%nat ->
  exists found,
    PostgresVectorStore.query sdim dim q top_k filters db = Return found /\
    Permutation found (map PostgresVectorStore.to_document_chunk matching).
Proof.
  intros stmt matching Hq He Hscan Hk.
  rewrite (query_rows sdim dim q top_k filters db q' Hq He).
  eexists. split; [done|]. fold stmt matching.
  apply Permutation_map. rewrite take_ge.
  - rewrite order_by_perm. exact Hscan.
  - rewrite (Permutation_length (order_by_perm _ _)).
    rewrite (Permutation_length Hscan).
    etrans; [apply filter_length_le|done].
Qed.

(** X5.  After an [add] that returned ids, a valid query without filter
    and with [top_k] at least the size of the table, which the server
    executes with a scan that yields every row, returns the chunks stored
    before together with the chunks that passed the validation, each as
    the table holds it: with the canonical text of its uuid as id, its
    vector in single precision, and the other fields as they were handed
    to [add]. *)
Theorem added_chunks_are_retrieved `{server : PgServer} (sdim dim : Z)
        (chunks : list DocumentChunk.t) (db : Database) (q q' : list float) (top_k : Z)
        (ids : list string) :
  let db' := (PostgresVectorStore.add sdim dim chunks db).2 in
  let stmt := mkSelect [] q top_k in
  (PostgresVectorStore.add sdim dim chunks db).1 = Return ids ->
  ids <> [] ->
  Spec.valid_query dim q ->
  Props.executes sdim stmt db' q' ->
  Props.exact_scan stmt (table db') ->
  (length (table db') <= Z.to_nat top_k)%nat ->
  exists rows found,
    Spec.rows_of (Spec.validated dim chunks) rows /\
    table db' = table db ++ rows /\
    PostgresVectorStore.query sdim dim q top_k None db' = Return found /\
    Permutation found (map PostgresVectorStore.to_document_chunk (table db ++ rows)) /\
    Forall2 (fun c r =>
               In (PostgresVectorStore.to_document_chunk r) found /\
               uuid_text (DocumentChunk.id c) = Some (ChunkModel.id r) /\
               ChunkModel.document_id r = DocumentChunk.document_id c /\
               ChunkModel.content r = DocumentChunk.content c /\
               ChunkModel.chunk_metadata r = DocumentChunk.metadata c /\
               PostgresVectorStore.stored_vector (DocumentChunk.embedding c)
               = Some (ChunkModel.embedding r))
            (Spec.validated dim chunks) rows.
Proof.
  intros db' stmt Hadd Hids Hq He Hscan Hk.
  destruct (add_cases sdim dim chunks db)
    as [[_ E]|[(_ & _ & _ & (rows & Hrows & E2) & _)|(_ & (e & _ & E1 & Hc) & _)]].
  - rewrite E in Hadd. by injection Hadd as <-.
  - fold db' in E2.
    destruct (query_returns_all_candidates sdim dim q top_k None db' q' Hq)
      as (found & Hfound & P); try done.
    { simpl. by rewrite filter_no_filter. }
    simpl in P. rewrite filter_no_filter, E2 in P.
    exists rows, found. split; [done|]. split; [done|]. split; [done|]. split; [done|].
    apply Forall2_same_length_lookup. split; [by eapply Forall2_length|].
    intros i c r Hc Hr.
    assert (Hcr : PostgresVectorStore.to_stored (Spec.row_of c) = Some r).
    { by eapply (Forall2_lookup_lr _ _ _ i) in Hrows. }
    split.
    + eapply Permutation_in; [symmetry; exact P|].
      apply in_map, in_app_iff. right. apply list_elem_of_In.
      by eapply list_elem_of_lookup_2.
    + by apply to_stored_fields in Hcr as (? & ? & ? & ? & ? & _).
  - rewrite E1 in Hadd. unfold Spec.result_on_error in Hadd.
    destruct Hc as [Hc|[-> _]]; [rewrite Hc in Hadd; by injection Hadd as <-|done].
Qed.

Lemma added_chunks_are_retrieved_witness :
  exists found,
    PostgresVectorStore.query (server := Examples.reliable_server) 2 2 [1; 0]%Q 10 None
      (PostgresVectorStore.add (server := Examples.reliable_server) 2 2
         [Examples.c4; Examples.c7_upper] Examples.db12).2 = Return found /\
    In Examples.c7_held found.
Proof.
  assert (Hq : Spec.valid_query 2 [1; 0]%Q) by (split; [discriminate|reflexivity]).
  assert (He : Props.executes (server := Examples.reliable_server) 2
                 (mkSelect [] [1; 0]%Q 10)
                 (PostgresVectorStore.add (server := Examples.reliable_server) 2 2
                    [Examples.c4; Examples.c7_upper] Examples.db12).2 [1; 0]%Q).
  { repeat split. }
  assert (Hk : (length (table (PostgresVectorStore.add (server := Examples.reliable_server)
                                 2 2 [Examples.c4; Examples.c7_upper] Examples.db12).2)
                <= Z.to_nat 10)%nat) by (vm_compute; lia).
  pose proof (added_chunks_are_retrieved (server := Examples.reliable_server) 2 2
                [Examples.c4; Examples.c7_upper] Examples.db12 [1; 0]%Q [1; 0]%Q 10
                ["00000000-0000-4000-8000-0000000000AB"]
                eq_refl ltac:(discriminate) Hq He (Permutation_refl _) Hk)
    as (rows & found & Hrows & _ & Hfound & _ & Hall).
  exists found. split; [exact Hfound|].
  inversion Hrows as [|c r cs rs Hr Hrest]; subst.
  apply Forall2_cons_1 in Hall as [(Hin & _) _].
  vm_compute in Hr. injection Hr as <-. exact Hin.
Defined.

(** X6.  The metadata filter of [query]: every chunk returned under
    [filters] is a stored chunk whose metadata has, for every key of the
    filter, a value whose JSON text equals [str] of the filter's value; an
    empty filter is no filter; and when the server executes a valid query
    with [top_k] at least the size of the table, with a scan that yields
    every candidate, every stored chunk that satisfies the filter is
    returned. *)
Theorem query_returns_the_matching_chunks `{server : PgServer} (sdim dim : Z)
        (q : list float) (top_k : Z) (items : list (string * MetaValue))
        (db : Database) :
  let stmt := mkSelect (PostgresVectorStore.where_clauses (Some items)) q top_k in
  let matching :=
    List.filter (PostgresVectorStore.matches (PostgresVectorStore.where_clauses (Some items)))
      (table db) in
  (forall found c,
     PostgresVectorStore.query sdim dim q top_k (Some items) db = Return found ->
     In c found ->
     Props.satisfies items c /\
     In c (map PostgresVectorStore.to_document_chunk (table db))) /\
  PostgresVectorStore.query sdim dim q top_k (Some []) db
  = PostgresVectorStore.query sdim dim q top_k None db /\
  (forall q',
     Spec.valid_query dim q ->
     Props.executes sdim stmt db q' ->
     Props.exact_scan stmt matching ->
     (length (table db) <= Z.to_nat top_k)%nat ->
     exists found,
       PostgresVectorStore.query sdim dim q top_k (Some items) db = Return found /\
       forall r, In r (table db) ->
                 Props.satisfies items (PostgresVectorStore.to_document_chunk r) ->
                 In (PostgresVectorStore.to_document_chunk r) found).
Proof.
  intros stmt matching. split; [|split; [done|]].
  - intros found c Hfound Hc.
    destruct (query_result_in_table sdim dim q top_k (Some items) db found c Hfound Hc)
      as (r & -> & Hr & Hm).
    split; [by apply matches_satisfies|by apply in_map].
  - intros q' Hq He Hscan Hk.
    destruct (query_returns_all_candidates sdim dim q top_k (Some items) db q' Hq He Hscan Hk)
      as (found & Hfound & P).
    exists found. split; [done|]. intros r Hr Hs.
    eapply Permutation_in; [symmetry; exact P|].
    apply in_map, filter_In. split; [done|]. by apply matches_satisfies.
Qed.

(** X7.  The filter compares text: a filter whose value is a boolean or
    [None] never returns a chunk whose metadata holds that boolean, any
    boolean, or [None] under the key ([str(True)] is ["True"], the JSON
    text is ["true"]; JSON null has no text), whereas a row whose metadata
    holds a string or an integer under the key is matched by a filter with
    that same value. *)
Theorem filter_compares_text `{server : PgServer} (sdim dim : Z) (q : list float)
        (top_k : Z) (key : string) (db : Database) :
  (forall v found c,
     PostgresVectorStore.query sdim dim q top_k (Some [(key, v)]) db = Return found ->
     In c found ->
     match v with
     | MBool _ | MNone =>
         (forall b, DocumentChunk.metadata c !! key <> Some (MBool b)) /\
         DocumentChunk.metadata c !! key <> Some MNone
     | _ => is_Some (DocumentChunk.metadata c !! key)
     end) /\
  (forall v r,
     ChunkModel.chunk_metadata r !! key = Some v ->
     PostgresVectorStore.matches (PostgresVectorStore.where_clauses (Some [(key, v)])) r
     = match v with MStr _ | MInt _ => true | _ => false end).
Proof.
  split.
  - intros v found c Hfound Hc.
    destruct (query_result_in_table sdim dim q top_k (Some [(key, v)]) db found c Hfound Hc)
      as (r & -> & _ & Hm).
    apply matches_satisfies in Hm. apply Forall_cons in Hm as [(mv & Hmv & Ht) _].
    simpl in *. rewrite Hmv.
    destruct v as [s|n|b|]; try by eexists.
    + split; [|by destruct mv]. intros b' [= ->]. by destruct b, b'.
    + split; [|by destruct mv]. intros b' [= ->]. by destruct b'.
  - intros v r Hv. unfold PostgresVectorStore.matches. simpl. rewrite Hv. simpl.
    destruct v as [s|n|[]|]; simpl; rewrite ?String.eqb_refl; done.
Qed.

(** X8.  Every string [generate] returns, an answer or an error message,
    is free of leading and trailing whitespace, so stripping it again
    changes nothing. *)
Theorem generate_returns_trimmed_text `{client : OllamaProvider.Client}
        (this : OllamaProvider.self) (prompt : string)
        (history : option (list LLM.Message)) (model : option string)
        (options : option OllamaProvider.Options) :
  exists text,
    OllamaProvider.generate this prompt history model options = Return text /\
    Props.trimmed text /\ strip text = text.
Proof.
assert (Herr : forall e, Props.trimmed (OllamaProvider.error_message e)).
{ intros e. rewrite <- strip_error_message. apply strip_trimmed. }
unfold OllamaProvider.generate.
destruct history as [[|turn turns]|];
  match goal with
  | |- context [OllamaProvider.chat ?m ?h ?o] => destruct (OllamaProvider.chat m h o)
  | |- context [OllamaProvider.client_generate ?m ?p ?o] =>
      destruct (OllamaProvider.client_generate m p o)
  end;
  eexists; (split; [reflexivity|]);
  first [ split; [apply strip_trimmed|apply strip_fixed, strip_trimmed]
        | split; [apply Herr|apply strip_error_message] ].
Qed.

(** ** The query service with the repository's collaborators *)

(** The run of [query] when the embedding is not empty and the store
    returns. *)
Lemma query_service_run {S : Type}
      `{embedder : EmbeddingModel.t} `{vstore : VectorStore.t S} `{llm : LLM.t}
      (top_k : Z) (user_query : string) (w : World S)
      (q : list float) (chunks : list DocumentChunk.t) (s' : S) :
  EmbeddingModel.embed_query user_query = Return q ->
  q <> [] ->
  VectorStore.query q top_k None (store w) = (Return chunks, s') ->
  QueryService.query QueryService.DEFAULT_PROMPT_TEMPLATE top_k user_query w
  = (match LLM.generate
             (Spec.default_prompt (QueryService.context_of chunks) user_query) None with
     | Return response => Return response
     | Raise e => Return (Spec.query_error e)
     end,
     mkWorld (heap w) (uuid_count w) s'
       (calls w ++ [CallEmbedQuery user_query; CallQuery q top_k None;
                    CallGenerate
                      (Spec.default_prompt (QueryService.context_of chunks) user_query)
                      None])).
Proof.
intros Hembed Hq Hquery.
unfold QueryService.query, try_except, call, call_store, record_call,
  outcome, on_store, mbind, M_bind.
rewrite Hembed. destruct q as [|x q]; [done|].
change (not_ (x :: q)) with false.
cbv beta iota. cbn [store heap uuid_count calls]. rewrite Hquery.
cbv beta iota. cbn [store heap uuid_count calls].
rewrite format_default_template.
rewrite <- !app_assoc. cbn [app].
by destruct (LLM.generate _ None).
Qed.

(** X9.  With [SentenceTransformerEmbedder], a query that is the empty
    string, or on which the model raises or returns an empty vector, ends
    with ["[Error: Failed to embed query]"]: the embedder is the only
    collaborator called, and the store is left as it was. *)
Theorem failed_embedding_ends_the_query {S : Type}
        `{model : SentenceTransformerEmbedder.Model} `{vstore : VectorStore.t S}
        `{llm : LLM.t}
        (template : list QueryService.Segment) (top_k : Z) (user_query : string)
        (w : World S) :
  user_query = "" \/
  (exists e, SentenceTransformerEmbedder.encode_one user_query = Raise e) \/
  SentenceTransformerEmbedder.encode_one user_query = Return [] ->
  QueryService.query
    (embedder := SentenceTransformerEmbedder.EmbeddingModel_instance)
    template top_k user_query w
  = (Return "[Error: Failed to embed query]",
     mkWorld (heap w) (uuid_count w) (store w) (calls w ++ [CallEmbedQuery user_query])).
Proof.
intros Hfail.
assert (Hembed : SentenceTransformerEmbedder.embed_query user_query = Return []).
{ unfold SentenceTransformerEmbedder.embed_query.
  destruct Hfail as [->|[[e ->]| ->]]; [done| |]; by destruct (not_str user_query). }
unfold QueryService.query, try_except, call, call_store, record_call,
  outcome, on_store, mbind, M_bind.
cbn [EmbeddingModel.embed_query SentenceTransformerEmbedder.EmbeddingModel_instance].
by rewrite Hembed.
Qed.

Lemma failed_embedding_ends_the_query_witness :
  (QueryService.query
     (embedder := SentenceTransformerEmbedder.EmbeddingModel_instance
                    (model := Examples.test_model))
     (vstore := PostgresVectorStore_VectorStore (server := Examples.reliable_server) 2 2)
     (llm := OllamaProvider.LLM_instance (client := Examples.answering_client)
               Examples.provider)
     QueryService.DEFAULT_PROMPT_TEMPLATE 5 "" (Examples.world Examples.db12)).1
  = Return "[Error: Failed to embed query]".
Proof.
rewrite (failed_embedding_ends_the_query
           (model := Examples.test_model)
           (vstore := PostgresVectorStore_VectorStore
                        (server := Examples.reliable_server) 2 2)
           (llm := OllamaProvider.LLM_instance (client := Examples.answering_client)
                     Examples.provider)
           QueryService.DEFAULT_PROMPT_TEMPLATE 5 "" (Examples.world Examples.db12)).
- reflexivity.
- by left.
Defined.

(** X10.  With [PostgresVectorStore], a retrieval that cannot succeed is
    answered like an empty store: when the query vector has another length
    than the store's dimension, when the SELECT fails, when the table is
    empty or [top_k] is not positive, the service sends the LLM the prompt
    with the no-context marker, once, and returns its answer; nothing in the
    result tells these cases apart. *)
Theorem failed_retrieval_looks_like_no_context
        `{server : PgServer} `{embedder : EmbeddingModel.t} `{llm : LLM.t}
        (sdim dim top_k : Z) (user_query : string) (w : World Database)
        (q : list float) :
  EmbeddingModel.embed_query user_query = Return q ->
  q <> [] ->
  len q <> dim \/
  db_fault (OpSelect (mkSelect [] q top_k) (table (store w))) = true \/
  table (store w) = [] \/
  top_k <= 0 ->
  let prompt := Spec.default_prompt QueryService.no_context_marker user_query in
  let run :=
    QueryService.query (vstore := PostgresVectorStore_VectorStore sdim dim)
      QueryService.DEFAULT_PROMPT_TEMPLATE top_k user_query w in
  calls run.2 = calls w ++ [CallEmbedQuery user_query; CallQuery q top_k None;
                            CallGenerate prompt None] /\
  store run.2 = store w /\
  run.1 = match LLM.generate prompt None with
          | Return response => Return response
          | Raise e => Return (Spec.query_error e)
          end.
Proof.
  intros Hembed Hq Hfail prompt run.
  assert (Hnone : PostgresVectorStore.query sdim dim q top_k None (store w) = Return []).
  { destruct (query_cases sdim dim q top_k None (store w))
      as [E|[[_ E]|(Hv & q' & He)]]; [done|done|].
    rewrite (query_rows sdim dim q top_k None (store w) q' Hv He).
    destruct He as (_ & _ & _ & Hs & _ & Hl). simpl in Hs, Hl.
    destruct Hfail as [Hlen|[Hfault|[Hempty|Hk]]].
    - by destruct Hv.
    - congruence.
    - rewrite Hempty. simpl.
      pose proof (scan_order_sub (mkSelect [] q top_k) []) as Hsub.
      apply submseteq_nil_r in Hsub. simpl in Hsub. rewrite Hsub. simpl.
      by rewrite take_nil.
    - replace (Z.to_nat top_k) with 0%nat by lia. done. }
  subst run.
  rewrite (query_service_run top_k user_query w q [] (store w) Hembed Hq).
  - done.
  - simpl. by rewrite Hnone.
Qed.

Lemma failed_retrieval_looks_like_no_context_witness :
  (QueryService.query
     (embedder := SentenceTransformerEmbedder.EmbeddingModel_instance
                    (model := Examples.test_model))
     (vstore := PostgresVectorStore_VectorStore
                  (server := Examples.failing_select_server) 2 2)
     (llm := OllamaProvider.LLM_instance (client := Examples.answering_client)
               Examples.provider)
     QueryService.DEFAULT_PROMPT_TEMPLATE 5 "What is alpha?"
     (Examples.world Examples.db12)).1
  = Return "An answer.".
Proof.
destruct (failed_retrieval_looks_like_no_context
            (server := Examples.failing_select_server)
            (embedder := SentenceTransformerEmbedder.EmbeddingModel_instance
                           (model := Examples.test_model))
            (llm := OllamaProvider.LLM_instance (client := Examples.answering_client)
                      Examples.provider)
            2 2 5 "What is alpha?" (Examples.world Examples.db12) [1; 0]%Q)
  as (_ & _ & Hrun).
- reflexivity.
- discriminate.
- right. left. reflexivity.
- rewrite Hrun. reflexivity.
Defined.

(** ** Ingestion: identifiers and failures *)

Lemma loading_only_app (cs cs' : list Call) :
  Props.loading_only cs -> Props.loading_only cs' -> Props.loading_only (cs ++ cs').
Proof. intros H H'. apply Forall_app. by split. Qed.

Section IngestionFacts.
Context {S : Type}.
Context `{loader : DataLoader.t} `{splitter : TextSplitter.t}
        `{embedder : EmbeddingModel.t} `{vstore : VectorStore.t S}
        `{uuids : UuidSource}.
Import IngestionService.

(** The documents built from what the loader returned. *)
Lemma build_documents_run loaded :
  forall w : World S,
    exists documents w',
      build_documents loaded w = (Return documents, w') /\
      map Document.content documents = map DataLoader.content loaded /\
      map Document.id documents = map DataLoader.id loaded /\
      uuid_count w' = uuid_count w /\ store w' = store w /\ calls w' = calls w.
Proof.
induction loaded as [|f loaded IH]; intros w.
- by exists [], w.
- simpl. unfold mbind, M_bind, new_dict.
  match goal with
  | |- context [build_documents loaded ?w1] =>
      destruct (IH w1) as (documents & w' & -> & Hc & Hi & Hu & Hs & Hk)
  end.
  eexists _, w'. split; [reflexivity|]. simpl in *. by rewrite Hc, Hi.
Qed.

(** The documents of a source the loader returns for. *)
Lemma data_loader_load_run source loaded (w : World S) :
  DataLoader.load source = Return loaded ->
  exists documents w',
    data_loader_load source w = (Return documents, w') /\
    map Document.content documents = map DataLoader.content loaded /\
    map Document.id documents = map DataLoader.id loaded /\
    uuid_count w' = uuid_count w /\ store w' = store w /\
    calls w' = calls w ++ [CallLoad source].
Proof.
intros Hload.
destruct (build_documents_run loaded
            (mkWorld (heap w) (uuid_count w) (store w) (calls w ++ [CallLoad source])))
  as (documents & w' & Hrun & Hc & Hi & Hu & Hs & Hk).
exists documents, w'. split; [|done].
unfold data_loader_load, call, record_call, outcome, mbind, M_bind.
by rewrite Hload.
Qed.

(** The chunks of one document get the next identifiers. *)
Lemma enumerate_loop_ids doc texts :
  forall i all_chunks (w : World S),
    exists group w',
      enumerate_loop doc texts i all_chunks w = (Return (all_chunks ++ group), w') /\
      map DocumentChunk.id group = map uuid4 (seq (uuid_count w) (length texts)) /\
      map DocumentChunk.content group = texts /\
      Forall (fun c => DocumentChunk.document_id c = Document.id doc /\
                       DocumentChunk.embedding c = None) group /\
      uuid_count w' = (uuid_count w + length texts)%nat /\
      store w' = store w /\ calls w' = calls w.
Proof.
induction texts as [|text texts IH]; intros i all_chunks w.
- exists [], w. simpl. rewrite app_nil_r. repeat split; auto.
- simpl. unfold mbind, M_bind, dict_copy, dict_items, new_dict, dict_setitem, new_uuid.
  unfold mbind, M_bind. simpl.
  match goal with
  | |- context [enumerate_loop doc texts (i + 1) (all_chunks ++ [?c]) ?w1] =>
      destruct (IH (i + 1) (all_chunks ++ [c]) w1)
        as (group & w' & Hrun & Hids & Hcontents & Hdoc & Hcount & Hstore & Hcalls);
      exists (c :: group), w'
  end.
  simpl in *. rewrite Hrun, <- app_assoc.
  split; [done|]. split; [by rewrite Hids|]. split; [by rewrite Hcontents|].
  split; [by constructor|]. split; [lia|done].
Qed.

(** The chunks of the documents, when the splitter returns for each. *)
Lemma chunk_documents_ids documents :
  forall all_chunks (w : World S),
    Forall (fun doc => exists texts,
                         TextSplitter.split_text (Document.content doc) = Return texts)
           documents ->
    exists chunks w' cs,
      chunk_documents documents all_chunks w = (Return (all_chunks ++ chunks), w') /\
      map DocumentChunk.id chunks = map uuid4 (seq (uuid_count w) (length chunks)) /\
      map DocumentChunk.content chunks
      = concat (map Spec.split_texts (map Document.content documents)) /\
      Forall (fun c => In (DocumentChunk.document_id c) (map Document.id documents) /\
                       DocumentChunk.embedding c = None) chunks /\
      uuid_count w' = (uuid_count w + length chunks)%nat /\
      store w' = store w /\
      calls w' = calls w ++ cs /\ Props.loading_only cs.
Proof.
induction documents as [|doc documents IH]; intros all_chunks w Hsplit.
- exists [], w, []. simpl. rewrite !app_nil_r. repeat split; auto; try lia. constructor.
- apply Forall_cons in Hsplit as [[texts Ht] Hsplit].
  set (w1 := mkWorld (heap w) (uuid_count w) (store w)
               (calls w ++ [CallSplitText (Document.content doc)])).
  destruct (enumerate_loop_ids doc texts 0 all_chunks w1)
    as (group & w2 & Hrun & Hids & Hcontents & Hdoc & Hcount & Hstore & Hcalls).
  destruct (IH (all_chunks ++ group) w2 Hsplit)
    as (chunks & w' & cs & Hrun' & Hids' & Hcontents' & Hdoc' & Hcount' & Hstore'
        & Hcalls' & Hcs).
  assert (Hlen : length group = length texts) by (by rewrite <- Hcontents, length_map).
  exists (group ++ chunks), w', (CallSplitText (Document.content doc) :: cs).
  split; [|split; [|split; [|split; [|split; [|split; [|split]]]]]].
  + simpl. unfold mbind, M_bind, call, record_call, outcome.
    unfold mbind, M_bind. simpl. rewrite Ht. fold w1.
    rewrite Hrun, Hrun'. by rewrite <- app_assoc.
  + rewrite map_app, Hids, Hids', Hcount, length_app, seq_app, map_app, Hlen. done.
  + rewrite map_app, Hcontents, Hcontents'. simpl. unfold Spec.split_texts at 2.
    by rewrite Ht.
  + apply Forall_app. split.
    * eapply Forall_impl; [exact Hdoc|]. intros c [-> ?]. split; [by left|done].
    * eapply Forall_impl; [exact Hdoc'|]. intros c [? ?]. split; [by right|done].
  + rewrite Hcount', Hcount, length_app, Hlen. simpl. lia.
  + by rewrite Hstore', Hstore.
  + rewrite Hcalls', Hcalls. simpl. by rewrite <- app_assoc.
  + by constructor.
Qed.

(** Whatever the splitter does, the chunking calls nothing but the
    splitter and leaves the store as it is. *)
Lemma chunk_documents_loading_only documents :
  forall all_chunks (w : World S),
    exists r w' cs,
      chunk_documents documents all_chunks w = (r, w') /\
      store w' = store w /\ calls w' = calls w ++ cs /\ Props.loading_only cs.
Proof.
induction documents as [|doc documents IH]; intros all_chunks w.
- exists (Return all_chunks), w, []. simpl. rewrite app_nil_r. repeat split. constructor.
- set (w1 := mkWorld (heap w) (uuid_count w) (store w)
               (calls w ++ [CallSplitText (Document.content doc)])).
  destruct (TextSplitter.split_text (Document.content doc)) as [texts|e] eqn:Ht.
  + destruct (enumerate_loop_ids doc texts 0 all_chunks w1)
      as (group & w2 & Hrun & _ & _ & _ & _ & Hstore & Hcalls).
    destruct (IH (all_chunks ++ group) w2) as (r & w' & cs & Hrun' & Hstore' & Hcalls' & Hcs).
    exists r, w', (CallSplitText (Document.content doc) :: cs).
    split; [|split; [|split]].
    * simpl. unfold mbind, M_bind, call, record_call, outcome.
      unfold mbind, M_bind. simpl. rewrite Ht. fold w1. by rewrite Hrun, Hrun'.
    * by rewrite Hstore', Hstore.
    * rewrite Hcalls', Hcalls. simpl. by rewrite <- app_assoc.
    * by constructor.
  + exists (Raise e), w1, [CallSplitText (Document.content doc)].
    split; [|split; [done|split; [done|]]].
    * simpl. unfold mbind, M_bind, call, record_call, outcome.
      unfold mbind, M_bind. simpl. by rewrite Ht.
    * by constructor.
Qed.

(** A splitter that raises on one of the documents ends the chunking. *)
Lemma chunk_documents_raises documents :
  forall all_chunks (w : World S),
    Exists (fun doc => exists e,
                         TextSplitter.split_text (Document.content doc) = Raise e)
           documents ->
    exists e w', chunk_documents documents all_chunks w = (Raise e, w').
Proof.
induction documents as [|doc documents IH]; intros all_chunks w Hraise.
- by apply Exists_nil in Hraise.
- set (w1 := mkWorld (heap w) (uuid_count w) (store w)
               (calls w ++ [CallSplitText (Document.content doc)])).
  destruct (TextSplitter.split_text (Document.content doc)) as [texts|e] eqn:Ht.
  + apply Exists_cons in Hraise as [[e He]|Hraise]; [congruence|].
    destruct (enumerate_loop_ids doc texts 0 all_chunks w1)
      as (group & w2 & Hrun & _).
    destruct (IH (all_chunks ++ group) w2 Hraise) as (e & w' & Hrun').
    exists e, w'.
    simpl. unfold mbind, M_bind, call, record_call, outcome.
    unfold mbind, M_bind. simpl. rewrite Ht. fold w1. by rewrite Hrun, Hrun'.
  + exists e, w1.
    simpl. unfold mbind, M_bind, call, record_call, outcome.
    unfold mbind, M_bind. simpl. by rewrite Ht.
Qed.

(** Steps 1 and 2 of [run_ingestion] call nothing but the loader and the
    splitter and leave the store as it is: the run either ends there with
    [False], or goes on to step 3 with the chunks. *)
Lemma run_ingestion_steps batch_size source (w : World S) :
  exists w1 cs,
    store w1 = store w /\ calls w1 = calls w ++ cs /\ Props.loading_only cs /\
    (run_ingestion batch_size source w = (Return false, w1) \/
     exists all_chunks,
       all_chunks <> [] /\
       run_ingestion batch_size source w
       = try_except (embed_and_store batch_size all_chunks) (fun e => mret false) w1).
Proof.
unfold run_ingestion.
destruct (DataLoader.load source) as [loaded|e] eqn:Hload.
- destruct (data_loader_load_run source loaded w Hload)
    as (documents & w1 & Hrun1 & _ & _ & _ & Hstore1 & Hcalls1).
  assert (Hload_only : Props.loading_only [CallLoad source]) by (by constructor).
  destruct documents as [|doc documents].
  { exists w1, [CallLoad source]. split; [done|]. split; [done|]. split; [done|]. left.
    unfold try_except. unfold mbind at 1, M_bind at 1. by rewrite Hrun1. }
  destruct (chunk_documents_loading_only (doc :: documents) [] w1)
    as (r & w2 & cs & Hrun2 & Hstore2 & Hcalls2 & Hcs).
  exists w2, (CallLoad source :: cs).
  split; [by rewrite Hstore2|]. split; [by rewrite Hcalls2, Hcalls1, <- app_assoc|].
  split; [by constructor|].
  unfold try_except, mbind, M_bind. rewrite Hrun1.
  change (not_ (doc :: documents)) with false. cbv beta iota. rewrite Hrun2.
  destruct r as [[|c all_chunks]|e]; [by left| |by left].
  right. exists (c :: all_chunks). split; [done|].
  change (not_ (c :: all_chunks)) with false. cbv iota. done.
- exists (mkWorld (heap w) (uuid_count w) (store w) (calls w ++ [CallLoad source])),
    [CallLoad source].
  split; [done|]. split; [done|]. split; [by repeat constructor|]. left.
  unfold try_except, data_loader_load, call, record_call, outcome, mbind, M_bind.
  by rewrite Hload.
Qed.

End IngestionFacts.

(** X11.  The chunks made of the documents carry, in order, the texts the
    splitter returned and the identifiers [uuid4] produced one after the
    other, starting at the first unused one; none has an embedding yet;
    identifiers are pairwise distinct when [uuid4] never repeats itself. *)
Theorem chunks_get_fresh_identifiers {S : Type}
        `{splitter : TextSplitter.t} `{uuids : UuidSource}
        (documents : list Document.t) (w : World S) :
  Forall (fun doc => exists texts,
                       TextSplitter.split_text (Document.content doc) = Return texts)
         documents ->
  (forall m n, uuid4 m = uuid4 n -> m = n) ->
  exists chunks w',
    IngestionService.chunk_documents documents [] w = (Return chunks, w') /\
    map DocumentChunk.content chunks
    = concat (map Spec.split_texts (map Document.content documents)) /\
    map DocumentChunk.id chunks = map uuid4 (seq (uuid_count w) (length chunks)) /\
    NoDup (map DocumentChunk.id chunks) /\
    uuid_count w' = (uuid_count w + length chunks)%nat /\
    Forall (fun c => In (DocumentChunk.document_id c) (map Document.id documents) /\
                     DocumentChunk.embedding c = None) chunks.
Proof.
intros Hsplit Hinj.
destruct (chunk_documents_ids documents [] w Hsplit)
  as (chunks & w' & cs & Hrun & Hids & Hcontents & Hdoc & Hcount & _).
exists chunks, w'. split; [done|]. split; [done|]. split; [done|].
split; [|done]. rewrite Hids.
apply NoDup_fmap_2; [|apply NoDup_seq]. intros m n. apply Hinj.
Qed.

Lemma chunks_get_fresh_identifiers_witness :
  exists chunks w',
    IngestionService.chunk_documents (splitter := Examples.word_splitter)
      (uuids := Examples.counter_uuids) [Examples.doc1] [] Examples.world_with_doc1
    = (Return chunks, w') /\
    map DocumentChunk.content chunks = ["Alpha"; "Beta"; "Gamma"] /\
    map DocumentChunk.id chunks = ["uuid-0"; "uuid-1"; "uuid-2"].
Proof.
destruct (chunks_get_fresh_identifiers (splitter := Examples.word_splitter)
            (uuids := Examples.counter_uuids) [Examples.doc1] Examples.world_with_doc1)
  as (chunks & w' & Hrun & Hcontents & Hids & _).
- repeat constructor. by eexists.
- intros m n H. cbv [uuid4 Examples.counter_uuids String.append] in H.
  injection H as H. by apply (inj pretty) in H.
- exists chunks, w'. split; [exact Hrun|]. split; [exact Hcontents|].
  rewrite Hids. vm_compute in Hrun. injection Hrun as <- _. reflexivity.
Defined.

(** X12.  When the loader raises, or the splitter raises on one of the
    documents, [run_ingestion] returns [False]: the exception does not
    leave the service, the store is as it was, and neither the embedding
    model nor the store has been called. *)
Theorem loader_and_splitter_errors_end_the_run {S : Type}
        `{loader : DataLoader.t} `{splitter : TextSplitter.t}
        `{embedder : EmbeddingModel.t} `{vstore : VectorStore.t S}
        `{uuids : UuidSource}
        (batch_size : Z) (source : string) (w : World S) :
  (exists e, DataLoader.load source = Raise e) \/
  (exists loaded,
     DataLoader.load source = Return loaded /\
     Exists (fun f => exists e,
                        TextSplitter.split_text (DataLoader.content f) = Raise e)
            loaded) ->
  exists w' cs,
    IngestionService.run_ingestion batch_size source w = (Return false, w') /\
    store w' = store w /\ calls w' = calls w ++ cs /\ Props.loading_only cs.
Proof.
intros [[e Hload]|(loaded & Hload & Hraise)].
- exists (mkWorld (heap w) (uuid_count w) (store w) (calls w ++ [CallLoad source])),
    [CallLoad source].
  split; [|split; [done|split; [done|by repeat constructor]]].
  unfold IngestionService.run_ingestion, try_except, IngestionService.data_loader_load,
    call, record_call, outcome, mbind, M_bind.
  by rewrite Hload.
- destruct (data_loader_load_run source loaded w Hload)
    as (documents & w1 & Hrun1 & Hc & _ & _ & Hstore1 & Hcalls1).
  assert (Hraise' : Exists (fun doc => exists e,
                      TextSplitter.split_text (Document.content doc) = Raise e)
                      documents).
  { apply (Exists_fmap DataLoader.content
             (fun text => exists e, TextSplitter.split_text text = Raise e)) in Hraise.
    change (DataLoader.content <$> loaded) with (map DataLoader.content loaded)
      in Hraise.
    rewrite <- Hc in Hraise.
    by apply (Exists_fmap Document.content
                (fun text => exists e, TextSplitter.split_text text = Raise e)). }
  destruct (chunk_documents_raises documents [] w1 Hraise') as (e & w2 & Hrun2).
  destruct (chunk_documents_loading_only documents [] w1)
    as (r & w2' & cs & Hrun2' & Hstore2 & Hcalls2 & Hcs).
  rewrite Hrun2 in Hrun2'. injection Hrun2' as <- <-.
  exists w2, (CallLoad source :: cs).
  split; [|split; [by rewrite Hstore2|split;
    [by rewrite Hcalls2, Hcalls1, <- app_assoc|by constructor]]].
  unfold IngestionService.run_ingestion, try_except, mbind, M_bind. rewrite Hrun1.
  destruct documents as [|doc documents]; [by apply Exists_nil in Hraise'|].
  change (not_ (doc :: documents)) with false. cbv beta iota. by rewrite Hrun2.
Qed.

Lemma loader_and_splitter_errors_end_the_run_witness :
  exists w' cs,
    IngestionService.run_ingestion (loader := Examples.test_loader)
      (splitter := Examples.failing_splitter) (embedder := Examples.raising_embedder)
      (vstore := PostgresVectorStore_VectorStore (server := Examples.reliable_server) 2 2)
      (uuids := Examples.counter_uuids) 2 "notes.txt" (Examples.world Examples.empty_db)
    = (Return false, w') /\
    store w' = Examples.empty_db /\ calls w' = [] ++ cs /\ Props.loading_only cs.
Proof.
apply (loader_and_splitter_errors_end_the_run (loader := Examples.test_loader)
         (splitter := Examples.failing_splitter) (embedder := Examples.raising_embedder)
         (vstore := PostgresVectorStore_VectorStore (server := Examples.reliable_server) 2 2)
         (uuids := Examples.counter_uuids) 2 "notes.txt"
         (Examples.world Examples.empty_db)).
right. eexists. split; [reflexivity|]. constructor. by eexists.
Defined.

(** X13.  With a batch size of zero or less, [run_ingestion] returns
    [False] whatever the source holds: nothing is embedded and nothing is
    stored. *)
Theorem non_positive_batch_size_ingests_nothing {S : Type}
        `{loader : DataLoader.t} `{splitter : TextSplitter.t}
        `{embedder : EmbeddingModel.t} `{vstore : VectorStore.t S}
        `{uuids : UuidSource}
        (batch_size : Z) (source : string) (w : World S) :
  batch_size <= 0 ->
  exists w' cs,
    IngestionService.run_ingestion batch_size source w = (Return false, w') /\
    store w' = store w /\ calls w' = calls w ++ cs /\ Props.loading_only cs.
Proof.
intros Hsize.
destruct (run_ingestion_steps batch_size source w)
  as (w1 & cs & Hstore & Hcalls & Hcs & [Hrun|(all_chunks & _ & Hrun)]).
- by exists w1, cs.
- exists w1, cs. split; [|done]. rewrite Hrun.
  unfold try_except, IngestionService.embed_and_store, IngestionService.range_step,
    outcome, mbind, M_bind.
  destruct (batch_size =? 0) eqn:E0; [done|].
  destruct (batch_size <? 0) eqn:E1; [done|lia].
Qed.

Lemma non_positive_batch_size_ingests_nothing_witness :
  exists w' cs,
    IngestionService.run_ingestion (loader := Examples.test_loader)
      (splitter := Examples.word_splitter) (embedder := Examples.raising_embedder)
      (vstore := PostgresVectorStore_VectorStore (server := Examples.reliable_server) 2 2)
      (uuids := Examples.counter_uuids) 0 "notes.txt" (Examples.world Examples.empty_db)
    = (Return false, w') /\
    store w' = Examples.empty_db /\ calls w' = [] ++ cs /\ Props.loading_only cs.
Proof.
apply (non_positive_batch_size_ingests_nothing (loader := Examples.test_loader)
         (splitter := Examples.word_splitter) (embedder := Examples.raising_embedder)
         (vstore := PostgresVectorStore_VectorStore (server := Examples.reliable_server) 2 2)
         (uuids := Examples.counter_uuids) 0 "notes.txt"
         (Examples.world Examples.empty_db)).
lia.
Defined.

(** ** Ingestion: a run without failures *)

Lemma zip_set_embedding_ids (batch : list DocumentChunk.t) :
  forall es, length es = length batch ->
    map DocumentChunk.id (zip_with DocumentChunk.set_embedding batch es)
    = map DocumentChunk.id batch.
Proof.
  induction batch as [|c batch IH]; intros [|e es] Hlen; simpl in *; try done.
  f_equal. apply IH. lia.
Qed.

(** The metadata of the chunks of a run is that of the loaded documents,
    with the index of the chunk. *)
Lemma chunks_metadata_of_loaded {S : Type} `{splitter : TextSplitter.t}
      (w1 w2 : World S) (loaded : list DataLoader.fields)
      (documents : list Document.t) (groups : list (list DocumentChunk.t)) :
  Forall2 (fun f doc =>
             Document.content doc = DataLoader.content f /\
             heap w1 !! Document.metadata doc = Some (DataLoader.metadata f))
          loaded documents ->
  Forall2 (fun doc group =>
             exists texts m,
               TextSplitter.split_text (Document.content doc) = Return texts /\
               heap w1 !! Document.metadata doc = Some m /\
               heap w2 !! Document.metadata doc = Some m /\
               Spec.is_chunk_set doc m texts group)
          documents groups ->
  Forall (fun c => exists f k,
                     In f loaded /\
                     DocumentChunk.metadata c
                     = <["chunk_index" := MInt k]> (DataLoader.metadata f))
         (concat groups).
Proof.
  intros Hall. revert groups.
  induction Hall as [|f doc loaded documents [_ Hf] Hall IH]; intros groups Hg.
  - inversion Hg. constructor.
  - inversion Hg as [|d group ds gs (texts & m & _ & Hm & _ & [_ Hset]) Hrest]; subst.
    simpl. apply Forall_app. split.
    + apply Forall_forall. intros c [k Hk]%list_elem_of_lookup_1.
      destruct (Hset k c Hk) as (_ & _ & _ & Hmeta).
      exists f, (Z.of_nat k). split; [by left|]. rewrite Hmeta. congruence.
    + eapply Forall_impl; [by apply IH|].
      intros c (f' & k & Hin & Hmeta). exists f', k. split; [by right|done].
Qed.

Section HealthyStore.
Context `{server : PgServer} `{embedder : EmbeddingModel.t}.
Variable dim : Z.
Hypothesis no_fault : forall op, db_fault op = false.

(** The rows of a batch of well-formed chunks with their vectors. *)
Lemma batch_rows (batch : list DocumentChunk.t) :
  forall es,
    Forall Props.well_formed batch ->
    length es = length batch ->
    Forall (fun e => len e = dim /\ is_Some (mapM float4 e)) es ->
    exists rows,
      Spec.rows_of (zip_with DocumentChunk.set_embedding batch es) rows /\
      Forall2 (Props.holds dim) batch rows /\
      Forall (fun c => Spec.passes_validation dim c = true)
             (zip_with DocumentChunk.set_embedding batch es) /\
      existsb PostgresVectorStore.row_has_nul
        (map Spec.row_of (zip_with DocumentChunk.set_embedding batch es)) = false.
Proof.
  induction batch as [|c batch IH]; intros [|e es] Hwf Hlen Hes; simpl in *; try done.
  - exists []. repeat split; constructor.
  - apply Forall_cons in Hwf as [(Hnul & Hid & Hjson) Hwf].
    apply Forall_cons in Hes as [[He [e' He']] Hes].
    destruct (IH es Hwf) as (rows & Hrows & Hholds & Hvalid & Hnuls); [lia|done|].
    exists (ChunkModel.mk (DocumentChunk.id c) (DocumentChunk.document_id c)
              (DocumentChunk.content c) (DocumentChunk.metadata c) (Some e') :: rows).
    split; [|split; [|split]].
    + constructor; [|done].
      unfold PostgresVectorStore.to_stored. simpl. rewrite Hid. simpl.
      rewrite He'. simpl. by rewrite Hjson.
    + constructor; [|done]. repeat split. exists e'. split; [done|].
      apply length_mapM in He'. unfold len in *. lia.
    + constructor; [|done]. unfold Spec.passes_validation. simpl. by apply Z.eqb_eq.
    + rewrite Hnuls, orb_false_r. exact Hnul.
Qed.

Lemma holds_ids (chunks : list DocumentChunk.t) (rows : Table) :
  Forall2 (Props.holds dim) chunks rows -> Props.ids rows = map DocumentChunk.id chunks.
Proof.
  induction 1 as [|c r chunks rows (Hid & _) _ IH]; [done|]. simpl. by rewrite Hid, IH.
Qed.

(** [add] of a batch of well-formed chunks with their vectors and with
    new, distinct ids stores them all. *)
Lemma add_batch (batch : list DocumentChunk.t) (es : list (list float)) (db : Database) :
  Forall Props.well_formed batch ->
  length es = length batch ->
  Forall (fun e => len e = dim /\ is_Some (mapM float4 e)) es ->
  NoDup (map DocumentChunk.id batch) ->
  (forall c, In c batch -> ~ In (DocumentChunk.id c) (Props.ids (table db))) ->
  let batch' := zip_with DocumentChunk.set_embedding batch es in
  exists rows,
    (PostgresVectorStore.add dim dim batch' db).1 = Return (map DocumentChunk.id batch) /\
    table (PostgresVectorStore.add dim dim batch' db).2 = table db ++ rows /\
    Forall2 (Props.holds dim) batch rows.
Proof.
  intros Hwf Hlen Hes Hnd Hfresh batch'.
  destruct (batch_rows batch es Hwf Hlen Hes) as (rows & Hrows & Hholds & Hvalid & Hnul).
  fold batch' in Hrows, Hvalid, Hnul.
  pose proof (validated_all dim batch' Hvalid) as Hall.
  pose proof (holds_ids batch rows Hholds) as Hids.
  destruct (add_succeeds dim batch' rows db) as [E1 E2]; try done.
  - by rewrite Hall.
  - by rewrite Hall.
  - by rewrite Hids.
  - intros r Hr Hin.
    assert (In (ChunkModel.id r) (map DocumentChunk.id batch)) as Hb.
    { rewrite <- Hids. by apply in_map. }
    apply in_map_iff in Hb as (c & Hc & Hcb). rewrite <- Hc in Hin. by apply (Hfresh c).
  - exists rows. rewrite Hall in E1. subst batch'.
    by rewrite zip_set_embedding_ids in E1.
Qed.

Hypothesis embeds :
  forall texts, exists es,
    EmbeddingModel.embed_documents texts = Return es /\
    length es = length texts /\
    Forall (fun e => len e = dim /\ is_Some (mapM float4 e)) es.

(** Every batch is embedded and stored. *)
Lemma store_batches_all (batches : list (list DocumentChunk.t)) :
  forall total db,
    Forall Props.well_formed (concat batches) ->
    NoDup (map DocumentChunk.id (concat batches)) ->
    (forall c, In c (concat batches) ->
               ~ In (DocumentChunk.id c) (Props.ids (table db))) ->
    exists rows,
      (Spec.store_batches (vstore := PostgresVectorStore_VectorStore dim dim)
         batches total db).1 = Return (total + len rows) /\
      table (Spec.store_batches (vstore := PostgresVectorStore_VectorStore dim dim)
               batches total db).2 = table db ++ rows /\
      Forall2 (Props.holds dim) (concat batches) rows.
Proof.
  induction batches as [|batch batches IH]; intros total db Hwf Hnd Hfresh.
  - exists []. simpl. rewrite app_nil_r. unfold len. simpl.
    split; [f_equal; lia|]. split; [done|constructor].
  - simpl. unfold Spec.embedded.
    destruct (embeds (map DocumentChunk.content batch)) as (es & -> & Hlen & Hes).
    rewrite length_map in Hlen.
    simpl in Hnd, Hwf. rewrite map_app in Hnd.
    apply NoDup_app in Hnd as (Hnd1 & Hdisj & Hnd2).
    apply Forall_app in Hwf as [Hwf1 Hwf2].
    destruct batch as [|c batch].
    { destruct es; [|done]. simpl. apply IH; [done|done|].
      intros c Hc. by apply Hfresh. }
    destruct es as [|e es]; [done|].
    change (not_ (e :: es)) with false.
    replace (len (e :: es) =? len (c :: batch)) with true
      by (symmetry; apply Z.eqb_eq; unfold len; by rewrite Hlen).
    cbn [orb negb].
    set (batch' := zip_with DocumentChunk.set_embedding (c :: batch) (e :: es)).
    destruct (add_batch (c :: batch) (e :: es) db Hwf1 Hlen Hes Hnd1)
      as (rows & E1 & E2 & Hholds).
    { intros c' Hc'. apply Hfresh.
      change (In c' ((c :: batch) ++ concat batches)). rewrite in_app_iff. by left. }
    fold batch' in E1, E2.
    cbn [VectorStore.add PostgresVectorStore_VectorStore].
    destruct (PostgresVectorStore.add dim dim batch' db) as [r db'].
    cbn [fst snd] in E1, E2. subst r.
    destruct (IH (total + len (map DocumentChunk.id (c :: batch))) db' Hwf2 Hnd2)
      as (rows' & Htotal & Htable & Hholds').
    { intros c' Hc' Hin. rewrite E2 in Hin. unfold Props.ids in Hin.
      rewrite map_app, in_app_iff in Hin. destruct Hin as [Hin|Hin].
      - apply (Hfresh c'); [|done].
        change (In c' ((c :: batch) ++ concat batches)).
        rewrite in_app_iff. by right.
      - pose proof (holds_ids _ _ Hholds) as Hids. unfold Props.ids in Hids.
        rewrite Hids in Hin.
        apply (Hdisj (DocumentChunk.id c')); apply list_elem_of_In; [done|].
        by apply in_map. }
    exists (rows ++ rows'). split; [|split].
    + rewrite Htotal. f_equal. unfold len.
      rewrite length_map, length_app, <- (Forall2_length _ _ _ Hholds). simpl. lia.
    + by rewrite Htable, E2, <- app_assoc.
    + change (c :: batch ++ concat batches) with ((c :: batch) ++ concat batches).
      by apply Forall2_app.
Qed.

End HealthyStore.

(** X14.  A run without failures loses nothing.  On a server without
    faults, with a positive batch size, a loader and a splitter that
    return, an embedding model that returns one vector of the store's
    dimension per text, with components in the range of single precision,
    texts and document ids without NUL character, metadata that the
    server accepts with the index of a chunk added, and identifiers from
    [uuid4] that are canonical uuids, new and pairwise distinct,
    [run_ingestion] appends to the table one row per text the splitter
    returned, in order: the row holds the chunk as it was made
    (identifier, text, document, metadata) and a vector of the store's
    dimension.  The result is [True] exactly when there was at least one
    text. *)
Theorem healthy_run_stores_every_chunk
        `{server : PgServer} `{loader : DataLoader.t} `{splitter : TextSplitter.t}
        `{embedder : EmbeddingModel.t} `{uuids : UuidSource}
        (dim batch_size : Z) (source : string) (loaded : list DataLoader.fields)
        (w : World Database) :
  let texts := concat (map Spec.split_texts (map DataLoader.content loaded)) in
  let ids := map uuid4 (seq (uuid_count w) (length texts)) in
  (forall op, db_fault op = false) ->
  0 < batch_size ->
  DataLoader.load source = Return loaded ->
  Forall (fun f => exists texts,
                     TextSplitter.split_text (DataLoader.content f) = Return texts)
         loaded ->
  (forall texts, exists es,
     EmbeddingModel.embed_documents texts = Return es /\
     length es = length texts /\
     Forall (fun e => len e = dim /\ is_Some (mapM float4 e)) es) ->
  Forall (fun t => has_nul t = false) texts ->
  Forall (fun f => has_nul (DataLoader.id f) = false /\
                   forall k, jsonb_accepts
                               (<["chunk_index" := MInt k]> (DataLoader.metadata f)) = true)
         loaded ->
  Forall (fun i => has_nul i = false /\ uuid_text i = Some i) ids ->
  NoDup ids ->
  (forall i, In i ids -> ~ In i (Props.ids (table (store w)))) ->
  exists w' chunks rows,
    IngestionService.run_ingestion
      (vstore := PostgresVectorStore_VectorStore dim dim) batch_size source w
    = (Return (0 <? len chunks), w') /\
    map DocumentChunk.content chunks = texts /\
    map DocumentChunk.id chunks = ids /\
    table (store w') = table (store w) ++ rows /\
    Forall2 (Props.holds dim) chunks rows.
Proof.
  intros texts ids Hno Hpos Hload Hsplit Hembed Htexts Hdocs Huuids Hnd Hfresh.
  destruct (data_loader_load_run (S := Database)
              source loaded w Hload)
    as (documents & w1 & Hrun1 & Hc & Hi & Hcount1 & Hstore1 & _).
  destruct (data_loader_load_spec (S := Database)
              source loaded w Hload)
    as (documents' & w1' & Hrun1' & Hall & _).
  rewrite Hrun1 in Hrun1'. injection Hrun1' as <- <-.
  assert (Hsplit' : Forall (fun doc => exists texts,
                      TextSplitter.split_text (Document.content doc) = Return texts)
                      documents).
  { apply (Forall_fmap DataLoader.content
             (fun text => exists texts, TextSplitter.split_text text = Return texts))
      in Hsplit.
    change (DataLoader.content <$> loaded) with (map DataLoader.content loaded) in Hsplit.
    rewrite <- Hc in Hsplit.
    by apply (Forall_fmap Document.content
                (fun text => exists texts, TextSplitter.split_text text = Return texts)). }
  destruct (chunk_documents_ids (S := Database)
              documents [] w1 Hsplit')
    as (chunks & w2 & cs & Hrun2 & Hids & Hcontents & Hdoc & _ & Hstore2 & _).
  destruct (chunk_documents_spec (S := Database) documents [] w1)
    as (groups & w2' & Hrun2' & Hgroups & _).
  { clear -Hall Hsplit'. induction Hall as [|f d fs ds [_ Hm] Hall IHall]; [constructor|].
    apply Forall_cons in Hsplit' as [Hd Hsplit'].
    constructor; [|by apply IHall]. split; [by eexists|done]. }
  rewrite Hrun2 in Hrun2'. injection Hrun2' as -> <-.
  fold texts in Hcontents. rewrite Hc in Hcontents. fold texts in Hcontents.
  assert (Hlen : length (concat groups) = length texts).
  { by rewrite <- Hcontents, length_map. }
  rewrite Hcount1, Hlen in Hids. fold ids in Hids.
  assert (Hwf : Forall Props.well_formed (concat groups)).
  { pose proof (chunks_metadata_of_loaded w1 w2 loaded documents groups Hall Hgroups)
      as Hmeta.
    apply Forall_forall. intros c Hin.
    rewrite Forall_forall in Hmeta. rewrite Forall_forall in Hdoc.
    rewrite Forall_forall in Htexts. rewrite Forall_forall in Huuids.
    rewrite Forall_forall in Hdocs.
    destruct (Hmeta c Hin) as (f & k & Hf & Hm).
    destruct (Hdoc c Hin) as [Hd _].
    apply list_elem_of_In in Hin.
    assert (Hidc : In (DocumentChunk.id c) ids).
    { rewrite <- Hids. by apply in_map. }
    assert (Htc : In (DocumentChunk.content c) texts).
    { rewrite <- Hcontents. by apply in_map. }
    apply list_elem_of_In, Huuids in Hidc as [Hn1 Hu].
    apply list_elem_of_In, Htexts in Htc.
    rewrite Hi in Hd. apply in_map_iff in Hd as (f' & Hf' & Hin').
    apply list_elem_of_In, Hdocs in Hin' as [Hn2 _].
    apply list_elem_of_In, Hdocs in Hf as [_ Hj].
    split; [|split; [done|]].
    - unfold PostgresVectorStore.row_has_nul. simpl. by rewrite Hn1, <- Hf', Hn2, Htc.
    - rewrite Hm. apply Hj. }
  unfold IngestionService.run_ingestion, try_except.
  unfold mbind at 1, M_bind at 1. rewrite Hrun1.
  destruct documents as [|doc documents].
  { exists w1, [], []. simpl in Hrun2. injection Hrun2 as Hg _.
    rewrite <- Hg in Hcontents, Hids. simpl.
    rewrite Hstore1, app_nil_r. by repeat split. }
  change (not_ (doc :: documents)) with false. cbv iota.
  unfold mbind at 1, M_bind at 1. rewrite Hrun2. cbn [app].
  destruct (concat groups) as [|c chunks] eqn:Hchunks.
  { exists w2, [], []. simpl. rewrite Hstore2, Hstore1, app_nil_r.
    by repeat split. }
  change (not_ (c :: chunks)) with false. cbv iota.
  destruct (embed_and_store_spec (vstore := PostgresVectorStore_VectorStore dim dim)
              batch_size (c :: chunks) w2 Hpos)
    as (w' & cs' & Hrun3 & _ & Hstore3 & _).
  { intros ts. destruct (Hembed ts) as (es & Hes & _). by exists es. }
  rewrite <- store_batches_skip in Hrun3, Hstore3.
  destruct (store_batches_all dim Hno Hembed (Spec.batches (c :: chunks) batch_size)
              0 (store w2))
    as (rows & Htotal & Htable & Hholds).
  { by rewrite concat_batches. }
  { rewrite concat_batches, Hids; done. }
  { rewrite concat_batches; [|done]. intros c' Hc' Hin.
    apply (in_map DocumentChunk.id) in Hc'. rewrite Hids in Hc'.
    rewrite Hstore2, Hstore1 in Hin. by apply (Hfresh _ Hc'). }
  rewrite concat_batches in Hholds by done.
  exists w', (c :: chunks), rows. rewrite Hrun3, Htotal.
  split; [|split; [done|split; [done|split; [|done]]]].
  - do 2 f_equal. unfold len. rewrite (Forall2_length _ _ _ Hholds). lia.
  - by rewrite Hstore3, Htable, Hstore2, Hstore1.
Qed.

Lemma healthy_run_stores_every_chunk_witness :
  exists w' chunks rows,
    IngestionService.run_ingestion (loader := Examples.test_loader)
      (splitter := Examples.word_splitter) (embedder := Examples.constant_embedder)
      (vstore := PostgresVectorStore_VectorStore (server := Examples.reliable_server) 2 2)
      (uuids := Examples.canonical_uuids) 2 "notes.txt" (Examples.world Examples.empty_db)
    = (Return (0 <? len chunks), w') /\
    map DocumentChunk.content chunks = ["Alpha"; "Beta"; "Gamma"] /\
    map DocumentChunk.id chunks
    = map (uuid4 (UuidSource := Examples.canonical_uuids)) (seq 0 3) /\
    table (store w') = [] ++ rows /\
    Forall2 (Props.holds 2) chunks rows.
Proof.
  apply (healthy_run_stores_every_chunk (server := Examples.reliable_server)
           (loader := Examples.test_loader) (splitter := Examples.word_splitter)
           (embedder := Examples.constant_embedder) (uuids := Examples.canonical_uuids)
           2 2 "notes.txt"
           [DataLoader.mk_fields "doc-1" "Alpha Beta Gamma"
              {["source" := MStr "notes.txt"; "page" := MInt 1]}]
           (Examples.world Examples.empty_db)).
  - reflexivity.
  - lia.
  - reflexivity.
  - repeat constructor. by eexists.
  - intros texts. exists (map (fun _ => [1; 0]%Q) texts).
    split; [reflexivity|]. split; [apply length_map|].
    apply Forall_forall. intros e He%list_elem_of_In.
    apply in_map_iff in He as (t & <- & _). split; [reflexivity|by eexists].
  - repeat constructor.
  - constructor; [|constructor]. split; [reflexivity|]. intros k. by vm_compute.
  - repeat constructor.
  - apply (bool_decide_unpack _). by vm_compute.
  - intros i _ [].
Defined.

(** ** The scripts' exit status *)

Lemma run_ingestion_returns {S : Type}
      `{loader : DataLoader.t} `{splitter : TextSplitter.t}
      `{embedder : EmbeddingModel.t} `{vstore : VectorStore.t S}
      `{uuids : UuidSource}
      (batch_size : Z) (source : string) (w : World S) :
  exists success w',
    IngestionService.run_ingestion batch_size source w = (Return success, w').
Proof.
unfold IngestionService.run_ingestion, try_except.
match goal with
| |- exists _ _, (let (_, _) := ?m in _) = _ => destruct m as [[success|e] w']
end; by eexists _, _.
Qed.

Lemma query_returns {S : Type}
      `{embedder : EmbeddingModel.t} `{vstore : VectorStore.t S} `{llm : LLM.t}
      (template : list QueryService.Segment) (top_k : Z) (user_query : string)
      (w : World S) :
  exists answer w',
    QueryService.query template top_k user_query w = (Return answer, w').
Proof.
unfold QueryService.query, try_except.
match goal with
| |- exists _ _, (let (_, _) := ?m in _) = _ => destruct m as [[answer|e] w']
end; by eexists _, _.
Qed.

(** [main] always ends with [typer.Exit], with status 0 or 1, when
    neither the construction of the components nor the loader raises
    [typer.Exit] itself. *)
Lemma main_exit_status {S : Type}
        `{loader : DataLoader.t} `{splitter : TextSplitter.t}
        `{embedder : EmbeddingModel.t} `{vstore : VectorStore.t S}
        `{uuids : UuidSource}
        (initialize_components : Outcome unit) (source : string) (batch_size : Z)
        (w : World S) :
  Props.no_exit initialize_components ->
  Props.no_exit (DataLoader.load source) ->
  exists code w',
    RunIngestion.main initialize_components source batch_size w
    = (Raise (mkExc (TyperExit code) ""), w') /\
    (code = 0 \/ code = 1) /\
    (code = 0 <->
     (exists u, initialize_components = Return u) /\
     ((IngestionService.run_ingestion batch_size source w).1 = Return true \/
      DataLoader.load source = Return [])).
Proof.
intros Hinit Hloader.
unfold RunIngestion.main, try_except, outcome.
unfold mbind at 1, M_bind at 1.
destruct initialize_components as [[]|e0].
- destruct (run_ingestion_returns batch_size source w) as (success & w1 & Hrun).
  unfold mbind at 1, M_bind at 1. rewrite Hrun. cbn [fst].
  destruct success.
  { exists 0, w1. split; [done|]. split; [by left|].
    split; [|done]. intros _. split; [by eexists|by left]. }
  unfold IngestionService.data_loader_load, call, record_call, outcome, mbind, M_bind.
  destruct (DataLoader.load source) as [loaded|e] eqn:Hload.
  + match goal with
    | |- context [IngestionService.build_documents loaded ?w2] =>
        destruct (build_documents_run loaded w2)
          as (documents & w3 & -> & Hc & _)
    end.
    destruct documents as [|doc documents].
    * destruct loaded; [|done].
      exists 0, w3. split; [done|]. split; [by left|].
      split; [|done]. intros _. split; [by eexists|by right].
    * exists 1, w3. split; [done|]. split; [by right|].
      split; [done|]. intros (_ & [H|H]); [done|].
      injection H as ->. done.
  + pose proof (Hloader e eq_refl) as Hclass.
    eexists 1, _. split; [|split; [by right|]].
    * destruct (exc_class e) eqn:Hc; try reflexivity. by destruct (Hclass code).
    * split; [done|]. intros (_ & [H|H]); done.
- pose proof (Hinit e0 eq_refl) as Hclass.
  exists 1, w. split; [|split; [by right|]].
  + destruct (exc_class e0) eqn:Hc; try reflexivity. by destruct (Hclass code).
  + split; [done|]. by intros ([u Hu] & _).
Qed.

(** X15.  The ingestion command ends with status 0, 1 or 2 when neither
    the construction of the components nor the loader raises [typer.Exit]
    itself.  The status is 2 exactly when the source path does not exist
    or cannot be read: [main] is not called then, and nothing happens.
    Otherwise [main] runs on the resolved path and ends with [typer.Exit]:
    the status is 0 exactly when the components were built and either the
    run returned [True] or the loader returns no document for the path; a
    loader that raises gives status 1. *)
Theorem ingestion_script_exit_status {S : Type}
        `{loader : DataLoader.t} `{splitter : TextSplitter.t}
        `{embedder : EmbeddingModel.t} `{vstore : VectorStore.t S}
        `{uuids : UuidSource}
        (initialize_components : Outcome unit)
        (path_readable : string -> bool) (resolve_path : string -> string)
        (source : string) (batch_size : Z) (w : World S) :
  let path := resolve_path source in
  Props.no_exit initialize_components ->
  Props.no_exit (DataLoader.load path) ->
  exists code w',
    RunIngestion.app initialize_components path_readable resolve_path source batch_size w
    = (Return code, w') /\
    (code = 0 \/ code = 1 \/ code = 2) /\
    (code = 2 <-> path_readable source = false) /\
    (path_readable source = false -> w' = w) /\
    (path_readable source = true ->
     RunIngestion.main initialize_components path batch_size w
     = (Raise (mkExc (TyperExit code) ""), w')) /\
    (code = 0 <->
     path_readable source = true /\
     (exists u, initialize_components = Return u) /\
     ((IngestionService.run_ingestion batch_size path w).1 = Return true \/
      DataLoader.load path = Return [])).
Proof.
  intros path Hinit Hloader. unfold RunIngestion.app.
  destruct (path_readable source) eqn:Hp; simpl.
  - destruct (main_exit_status initialize_components path batch_size w Hinit Hloader)
      as (code & w' & Hmain & Hcode & Hzero).
    fold path. rewrite Hmain. exists code, w'. simpl.
    split; [done|]. split; [destruct Hcode; auto|].
    split; [split; [intros ->; by destruct Hcode|done]|].
    split; [done|]. split; [done|].
    rewrite Hzero. split; [by intros H|by intros [_ H]].
  - exists 2, w. split; [done|]. split; [auto|]. split; [done|]. split; [done|].
    split; [done|]. split; [done|by intros [? _]].
Qed.

Lemma ingestion_script_exit_status_witness :
  exists code w',
    RunIngestion.app (loader := Examples.test_loader)
      (splitter := Examples.word_splitter) (embedder := Examples.constant_embedder)
      (vstore := PostgresVectorStore_VectorStore (server := Examples.reliable_server) 2 2)
      (uuids := Examples.canonical_uuids) (Return tt)
      (fun path => negb (String.eqb path "missing")) id "notes.txt" 2
      (Examples.world Examples.empty_db)
    = (Return code, w') /\
    (code = 0 \/ code = 1 \/ code = 2).
Proof.
  assert (Hinit : Props.no_exit (Return tt : Outcome unit)).
  { intros e He. discriminate He. }
  assert (Hloader : Props.no_exit (DataLoader.load (t := Examples.test_loader) "notes.txt")).
  { intros e He. discriminate He. }
  pose proof (ingestion_script_exit_status (loader := Examples.test_loader)
                (splitter := Examples.word_splitter)
                (embedder := Examples.constant_embedder)
                (vstore := PostgresVectorStore_VectorStore
                             (server := Examples.reliable_server) 2 2)
                (uuids := Examples.canonical_uuids) (Return tt)
                (fun path => negb (String.eqb path "missing")) id "notes.txt" 2
                (Examples.world Examples.empty_db) Hinit Hloader)
    as (code & w' & Hmain & Hcode & _).
  exists code, w'. split; [exact Hmain|exact Hcode].
Defined.

(** A source path that does not exist ends the command with status 2; a
    healthy run over a file of three words ends it with status 0. *)
Example ingestion_command_status :
  (RunIngestion.app (loader := Examples.test_loader)
     (splitter := Examples.word_splitter) (embedder := Examples.constant_embedder)
     (vstore := PostgresVectorStore_VectorStore (server := Examples.reliable_server) 2 2)
     (uuids := Examples.canonical_uuids) (Return tt)
     (fun path => negb (String.eqb path "missing")) id "missing" 2
     (Examples.world Examples.empty_db)).1 = Return 2 /\
  (RunIngestion.app (loader := Examples.test_loader)
     (splitter := Examples.word_splitter) (embedder := Examples.constant_embedder)
     (vstore := PostgresVectorStore_VectorStore (server := Examples.reliable_server) 2 2)
     (uuids := Examples.canonical_uuids) (Return tt)
     (fun path => negb (String.eqb path "missing")) id "notes.txt" 2
     (Examples.world Examples.empty_db)).1 = Return 0.
Proof. vm_compute. done. Qed.


(** X16.  The query script always ends with [typer.Exit]: with status 0
    whenever the components were built, whatever the embedding model, the
    store and the LLM return or raise while the query is answered; with
    status 1, and without any call to them, when the construction of the
    components raises. *)
Theorem query_script_exit_status {S : Type}
        `{embedder : EmbeddingModel.t} `{vstore : VectorStore.t S} `{llm : LLM.t}
        (initialize_components : Outcome unit) (query : string) (top_k : Z)
        (w : World S) :
  Props.no_exit initialize_components ->
  exists code w',
    RunQuery.main initialize_components query top_k w
    = (Raise (mkExc (TyperExit code) ""), w') /\
    match initialize_components with
    | Return _ =>
        code = 0 /\
        w' = (QueryService.query QueryService.DEFAULT_PROMPT_TEMPLATE top_k query w).2
    | Raise _ => code = 1 /\ w' = w
    end.
Proof.
intros Hinit.
unfold RunQuery.main, try_except, outcome.
unfold mbind at 1, M_bind at 1.
destruct initialize_components as [[]|e0].
- destruct (query_returns QueryService.DEFAULT_PROMPT_TEMPLATE top_k query w)
    as (answer & w1 & Hrun).
  unfold mbind at 1, M_bind at 1. rewrite Hrun.
  by exists 0, w1.
- pose proof (Hinit e0 eq_refl) as Hclass.
  exists 1, w. split; [|done].
  destruct (exc_class e0) eqn:Hc; try reflexivity. by destruct (Hclass code).
Qed.

Lemma query_script_exit_status_witness :
  exists code w',
    RunQuery.main (embedder := Examples.raising_embedder)
      (vstore := PostgresVectorStore_VectorStore
                   (server := Examples.failing_select_server) 2 2)
      (llm := OllamaProvider.LLM_instance (client := Examples.unreachable_client)
                Examples.provider)
      (Return tt) "What is DBT?" 5 (Examples.world Examples.empty_db)
    = (Raise (mkExc (TyperExit code) ""), w') /\ code = 0.
Proof.
assert (Hinit : Props.no_exit (Return tt : Outcome unit)).
{ intros e He. discriminate He. }
pose proof (query_script_exit_status (embedder := Examples.raising_embedder)
              (vstore := PostgresVectorStore_VectorStore
                           (server := Examples.failing_select_server) 2 2)
              (llm := OllamaProvider.LLM_instance (client := Examples.unreachable_client)
                        Examples.provider)
              (Return tt) "What is DBT?" 5 (Examples.world Examples.empty_db) Hinit)
  as (code & w' & Hmain & Hcode & _).
exists code, w'. split; [exact Hmain|exact Hcode].
Defined.

(** ** The file loader *)

Section FileLoaderFacts.
Context {S : Type}.
Context `{fs : FileLoader.FileSystem} `{uuids : UuidSource}.
Import FileLoader.

(** The loop over the pages of a PDF, started at page [page_num]. *)
Lemma pages_loop_run (source_str : string) (num_pages : Z) (pages : list (Outcome string)) :
  forall (page_num : Z) (docs : list DataLoader.fields) (w : World S),
    exists new w',
      pages_loop source_str num_pages page_num pages docs w = (Return (docs ++ new), w') /\
      map DataLoader.id new = map uuid4 (seq (uuid_count w) (length new)) /\
      uuid_count w' = (uuid_count w + length new)%nat /\
      store w' = store w /\ calls w' = calls w /\
      Forall (fun d => exists k : nat,
                pages !! k = Some (Return (DataLoader.content d)) /\
                DataLoader.content d <> "" /\
                DataLoader.metadata d
                = {["source" := MStr source_str;
                    "page" := MInt (page_num + Z.of_nat k + 1);
                    "total_pages" := MInt num_pages]}) new /\
      StronglySorted (fun a b => Props.page_of a < Props.page_of b) new /\
      Forall (fun d => page_num < Props.page_of d) new /\
      (forall (k : nat) (c : string),
         pages !! k = Some (Return c) -> c <> "" ->
         (forall j, (j < k)%nat -> exists t, pages !! j = Some (Return t)) ->
         exists d, In d new /\ DataLoader.content d = c /\
                   Props.page_of d = page_num + Z.of_nat k + 1).
Proof.
induction pages as [|[content|e] pages IH]; intros page_num docs w.
- exists [], w. simpl. rewrite app_nil_r.
  split; [done|]. split; [done|]. split; [lia|]. split; [done|]. split; [done|].
  split; [constructor|]. split; [constructor|]. split; [constructor|].
  intros k c Hk. by rewrite lookup_nil in Hk.
- destruct content as [|a content].
  + destruct (IH (page_num + 1) docs w)
      as (new & w' & Hrun & Hids & Hcount & Hstore & Hcalls & Hsound & Hsorted & Hlow
          & Hcomplete).
    exists new, w'. split; [exact Hrun|]. split; [done|]. split; [done|].
    split; [done|]. split; [done|]. split; [|split; [done|split]].
    * eapply Forall_impl; [exact Hsound|]. intros d (k & Hk & Hc & Hm).
      exists (Datatypes.S k). split; [done|]. split; [done|].
      rewrite Hm. do 3 f_equal. lia.
    * eapply Forall_impl; [exact Hlow|]. intros d Hd. simpl in Hd. lia.
    * intros [|k] c Hk Hc Hbefore.
      { simpl in Hk. injection Hk as <-. done. }
      destruct (Hcomplete k c Hk Hc) as (d & Hd & Hcd & Hp).
      { intros j Hj. apply (Hbefore (Datatypes.S j)). lia. }
      exists d. split; [done|]. split; [done|]. lia.
  + set (d0 := DataLoader.mk_fields (uuid4 (uuid_count w)) (String a content)
                 {["source" := MStr source_str; "page" := MInt (page_num + 1);
                   "total_pages" := MInt num_pages]}).
    set (w1 := mkWorld (heap w) (Datatypes.S (uuid_count w)) (store w) (calls w)).
    assert (Hp0 : Props.page_of d0 = page_num + 1).
    { unfold Props.page_of, d0. simpl.
      rewrite lookup_insert_ne by done. by rewrite lookup_insert_eq. }
    destruct (IH (page_num + 1) (docs ++ [d0]) w1)
      as (new & w' & Hrun & Hids & Hcount & Hstore & Hcalls & Hsound & Hsorted & Hlow
          & Hcomplete).
    exists (d0 :: new), w'.
    split; [|split; [|split; [|split; [done|split; [done|split; [|split; [|split]]]]]]].
    * cbn [pages_loop not_str]. unfold new_document, new_uuid, mbind, M_bind.
      cbn [mret M_ret]. fold d0 w1. rewrite Hrun. by rewrite <- app_assoc.
    * simpl. by rewrite Hids.
    * rewrite Hcount. simpl. lia.
    * constructor.
      -- exists 0%nat. split; [done|]. split; [done|]. simpl. do 3 f_equal. lia.
      -- eapply Forall_impl; [exact Hsound|]. intros d (k & Hk & Hc & Hm).
         exists (Datatypes.S k). split; [done|]. split; [done|].
         rewrite Hm. do 3 f_equal. lia.
    * constructor; [done|].
      eapply Forall_impl; [exact Hlow|]. intros d Hd. rewrite Hp0. exact Hd.
    * constructor; [lia|].
      eapply Forall_impl; [exact Hlow|]. intros d Hd. simpl in Hd. lia.
    * intros [|k] c Hk Hc Hbefore.
      { simpl in Hk. injection Hk as <-. exists d0. split; [by left|].
        split; [done|]. rewrite Hp0. lia. }
      destruct (Hcomplete k c Hk Hc) as (d & Hd & Hcd & Hp).
      { intros j Hj. apply (Hbefore (Datatypes.S j)). lia. }
      exists d. split; [by right|]. split; [done|]. lia.
- exists [], w. simpl. rewrite app_nil_r.
  split; [done|]. split; [done|]. split; [lia|]. split; [done|]. split; [done|].
  split; [constructor|]. split; [constructor|]. split; [constructor|].
  intros [|k] c Hk Hc Hbefore; [done|].
  destruct (Hbefore 0%nat) as [t Ht]; [lia|]. done.
Qed.





End FileLoaderFacts.

(** X17.  A PDF whose reader opens gives one document per page with text,
    up to the first page whose extraction raises: each document holds the
    text of its page and the metadata [source] (the resolved path), [page]
    (the 1-based number of that page) and [total_pages] (the number of
    pages of the file); the documents come in increasing page order; and
    every page with text that no failing page precedes has its document. *)
Theorem pdf_pages_become_documents {S : Type}
        `{fs : FileLoader.FileSystem} `{uuids : UuidSource}
        (file_path source_str : string) (pages : list (Outcome string)) (w : World S) :
  FileLoader.suffix_lower file_path = ".pdf" ->
  FileLoader.resolve file_path = Return source_str ->
  FileLoader.pdf_pages file_path = Return pages ->
  exists docs w',
    FileLoader._load_single_file file_path w = (Return docs, w') /\
    Forall (fun d => exists k : nat,
              pages !! k = Some (Return (DataLoader.content d)) /\
              DataLoader.content d <> "" /\
              DataLoader.metadata d
              = {["source" := MStr source_str;
                  "page" := MInt (Z.of_nat k + 1);
                  "total_pages" := MInt (len pages)]}) docs /\
    StronglySorted (fun a b => Props.page_of a < Props.page_of b) docs /\
    (forall (k : nat) (c : string),
       pages !! k = Some (Return c) -> c <> "" ->
       (forall j, (j < k)%nat -> exists t, pages !! j = Some (Return t)) ->
       exists d, In d docs /\ DataLoader.content d = c /\
                 Props.page_of d = Z.of_nat k + 1).
Proof.
intros Hsuffix Hresolve Hpages.
destruct (pages_loop_run source_str (len pages) pages 0 [] w)
  as (docs & w' & Hrun & _ & _ & _ & _ & Hsound & Hsorted & _ & Hcomplete).
exists docs, w'. split; [|split; [|split; [done|]]].
- unfold FileLoader._load_single_file, outcome. unfold mbind at 1, M_bind at 1.
  rewrite Hresolve, Hsuffix. cbn [String.eqb Ascii.eqb Bool.eqb]. by rewrite Hpages.
- eapply Forall_impl; [exact Hsound|]. intros d (k & Hk & Hc & Hm).
  exists k. split; [done|]. split; [done|]. rewrite Hm. do 3 f_equal.
- intros k c Hk Hc Hbefore.
  destruct (Hcomplete k c Hk Hc Hbefore) as (d & Hd & Hcd & Hp).
  exists d. split; [done|]. split; [done|]. by rewrite Hp.
Qed.

Lemma pdf_pages_become_documents_witness :
  exists docs w',
    FileLoader._load_single_file (fs := Examples.test_files)
      (uuids := Examples.counter_uuids) "/data/b.pdf" (Examples.world Examples.empty_db)
    = (Return docs, w') /\
    StronglySorted (fun a b => Props.page_of a < Props.page_of b) docs.
Proof.
pose proof (pdf_pages_become_documents (fs := Examples.test_files)
              (uuids := Examples.counter_uuids) "/data/b.pdf" "/data/b.pdf"
              [Return "Page one"; Return ""; Return "Page three";
               Raise (mkExc OtherException "damaged page"); Return "Page five"]
              (Examples.world Examples.empty_db) eq_refl eq_refl eq_refl)
  as (docs & w' & Hrun & _ & Hsorted & _).
exists docs, w'. split; [exact Hrun|exact Hsorted].
Defined.



